(** * The points economy and prediction market of [cogs/points.py]

    A shallow embedding of the prediction market engine and of the
    point-accrual buffer of the bot, and the properties of its
    specification that were checked against it.

    - Python integers are [Z]; Python floats are IEEE 754 binary64 values,
      given by the Standard Library's executable specification [SpecFloat]
      with [prec = 53] and [emax = 1024].
    - Python dictionaries are [gmap]s. The order in which [items()] yields
      the entries is the order of [map_to_list]; nothing that is proved
      below depends on that order (credits to distinct users commute).
    - The PostgreSQL tables are maps from their keys to their rows.
    - Methods that mutate [self] or the database are computations in a
      state-and-exception monad: a raised exception keeps the mutations
      made before it, as in Python. *)

From Stdlib Require Import ZArith String Ascii List Lia.
From Stdlib Require Import Floats.SpecFloat.
From stdpp Require Import base option list gmap fin_maps strings.

Local Open Scope Z_scope.

(** ** Exceptions and the state-and-exception monad *)

Inductive exn : Type :=
  | ZeroDivisionError
  | OverflowError
  | ValueError
  | AttributeError
  | NotFound
  | Forbidden
  | HTTPException.

Inductive result (A : Type) : Type :=
  | Ok (a : A)
  | Raise (e : exn).
Arguments Ok {A} a.
Arguments Raise {A} e.

Definition M (S A : Type) : Type := S -> result A * S.

Definition ret {S A} (a : A) : M S A := fun s => (Ok a, s).

Definition bind {S A B} (m : M S A) (k : A -> M S B) : M S B :=
  fun s => match m s with
           | (Ok a, s') => k a s'
           | (Raise e, s') => (Raise e, s')
           end.

Definition raise {S A} (e : exn) : M S A := fun s => (Raise e, s).
Definition get {S} : M S S := fun s => (Ok s, s).
Definition gets {S A} (f : S -> A) : M S A := fun s => (Ok (f s), s).
Definition put {S} (s : S) : M S unit := fun _ => (Ok tt, s).
Definition modify {S} (f : S -> S) : M S unit := fun s => (Ok tt, f s).

(** A value that may be an exception, used where no state is involved. *)
Definition lift {S A} (r : result A) : M S A := fun s => (r, s).

Declare Scope py_scope.
Delimit Scope py_scope with py.
Notation "'let*' x ':=' c 'in' k" := (bind c (fun x => k))
  (at level 10, x pattern, c at level 100, k at level 200) : py_scope.
Notation "c ';;' k" := (bind c (fun _ => k))
  (at level 100, k at level 200, right associativity) : py_scope.

Definition result_bind {A B} (r : result A) (k : A -> result B) : result B :=
  match r with
  | Ok a => k a
  | Raise e => Raise e
  end.

(** [for x in l: body x], stopping at the first exception. *)
Fixpoint for_each {S A} (l : list A) (body : A -> M S unit) : M S unit :=
  match l with
  | [] => ret tt
  | x :: l' => bind (body x) (fun _ => for_each l' body)
  end.

(** ** Python numbers

    [1] is an [int]; [1 + a / b] is a [float]. *)

Module PyNum.

Definition prec : Z := 53.
Definition emax : Z := 1024.

Inductive num : Type :=
  | PyInt (z : Z)
  | PyFloat (f : spec_float).

(** [float(z)], correctly rounded to nearest-even; an integer too large
    for a double raises [OverflowError]. *)
Definition float_of_int (z : Z) : result spec_float :=
  match binary_normalize prec emax z 0 false with
  | S754_infinity _ => Raise OverflowError
  | f => Ok f
  end.

(** [a / b] on two integers: the correctly rounded quotient of the exact
    integers ([long_true_divide]); the significands given to [SFdiv] are
    the integers themselves, so no operand is rounded beforehand. *)
Definition int_as_float (z : Z) : spec_float :=
  match z with
  | Z0 => S754_zero false
  | Zpos p => S754_finite false p 0
  | Zneg p => S754_finite true p 0
  end.

Definition truediv (a b : Z) : result spec_float :=
  if b =? 0 then Raise ZeroDivisionError
  else match SFdiv prec emax (int_as_float a) (int_as_float b) with
       | S754_infinity _ => Raise OverflowError
       | f => Ok f
       end.

Definition one : spec_float := SFone prec emax.

(** [1 + x] for a float [x]: the integer is converted, the sum rounded. *)
Definition one_plus (x : spec_float) : spec_float := SFadd prec emax one x.

(** [points * payout] for an integer [points]. *)
Definition int_mul (points : Z) (payout : num) : result num :=
  match payout with
  | PyInt k => Ok (PyInt (points * k))
  | PyFloat f =>
      result_bind (float_of_int points)
        (fun p => Ok (PyFloat (SFmul prec emax p f)))
  end.

(** Nearest integer to [m / d] for [d > 0], ties to the even neighbour. *)
Definition div_half_even (m d : Z) : Z :=
  let q := m / d in
  let r := m mod d in
  match 2 * r ?= d with
  | Lt => q
  | Gt => q + 1
  | Eq => if Z.even q then q else q + 1
  end.

(** [round(x)] with one argument: an [int], by round-half-to-even. *)
Definition round_float (f : spec_float) : result Z :=
  match f with
  | S754_zero _ => Ok 0
  | S754_infinity _ => Raise OverflowError
  | S754_nan => Raise ValueError
  | S754_finite s m e =>
      let a := match e with
               | Zneg k => div_half_even (Zpos m) (2 ^ Zpos k)
               | _ => Zpos m * 2 ^ e
               end in
      Ok (if s then - a else a)
  end.

Definition round (x : num) : result Z :=
  match x with
  | PyInt z => Ok z
  | PyFloat f => round_float f
  end.

(** [round(points * payout)] *)
Definition round_mul (points : Z) (payout : num) : result Z :=
  result_bind (int_mul points payout) round.

End PyNum.

Import PyNum.


(** ** Dictionaries of points ([user id -> points]) *)

(** [sum(d.values())] *)
Definition sum_values (d : gmap Z Z) : Z :=
  map_fold (fun _ p acc => p + acc) 0 d.

(** [d.items()], as the [(points, user_id)] tuples the comprehensions of
    the source build from it. *)
Definition items (d : gmap Z Z) : list (Z * Z) :=
  (fun kv => (kv.2, kv.1)) <$> map_to_list d.

(** The truth value of a dictionary: it is not empty. *)
Definition nonempty (d : gmap Z Z) : bool := negb (bool_decide (d = ∅)).

(** The points a user holds in a dictionary, 0 when the key is absent. *)
Definition stake (d : gmap Z Z) (uid : Z) : Z := default 0 (d !! uid).

(** ** The database

    [users(discordid PK, points)], [predictions(id PK, ...)] and
    [prediction_bets(prediction_id, user_id, option, points)] with
    [UNIQUE(prediction_id, user_id)]: the bets are grouped by prediction,
    each group a map from the user to the one row the constraint allows.
    Statements are assumed to succeed (no persistence failure). *)

Inductive status : Type := Active | Locked | Completed | Refunded.

#[global] Instance status_eq_dec : EqDecision status.
Proof. solve_decision. Defined.

Record prediction_row : Type := {
  row_creator_id : Z;
  row_title : string;
  row_option_a : string;
  row_option_b : string;
  row_status : status;
  row_winner : option string;
  row_thread_id : Z;
  row_message_id : Z
}.

Record bet_row : Type := { bet_option : string; bet_points : Z }.

Module Db.

Record t : Type := {
  users : gmap Z Z;
  predictions : gmap Z prediction_row;
  prediction_bets : gmap Z (gmap Z bet_row)
}.

Definition set_users (f : gmap Z Z -> gmap Z Z) (d : t) : t :=
  {| users := f (users d); predictions := predictions d;
     prediction_bets := prediction_bets d |}.

Definition set_predictions
    (f : gmap Z prediction_row -> gmap Z prediction_row) (d : t) : t :=
  {| users := users d; predictions := f (predictions d);
     prediction_bets := prediction_bets d |}.

Definition set_prediction_bets
    (f : gmap Z (gmap Z bet_row) -> gmap Z (gmap Z bet_row)) (d : t) : t :=
  {| users := users d; predictions := predictions d;
     prediction_bets := f (prediction_bets d) |}.

(** [SELECT points FROM users WHERE discordid = %s], then
    [result[0] if result else 0]. *)
Definition select_points (d : t) (uid : Z) : Z := default 0 (users d !! uid).

(** [UPDATE users SET points = points + %s WHERE discordid = %s]: a user
    without a row is left without one. *)
Definition add_points (points uid : Z) (us : gmap Z Z) : gmap Z Z :=
  alter (fun b => b + points) uid us.

(** [UPDATE users SET points = points - %s WHERE discordid = %s] *)
Definition sub_points (points uid : Z) (us : gmap Z Z) : gmap Z Z :=
  alter (fun b => b - points) uid us.

(** [db.perform_many] of the crediting [UPDATE] over [(points, user_id)]. *)
Definition credit_many (data : list (Z * Z)) (us : gmap Z Z) : gmap Z Z :=
  foldl (fun acc pu => add_points pu.1 pu.2 acc) us data.

(** [INSERT INTO users ... ON CONFLICT (discordid) DO UPDATE SET points =
    users.points + EXCLUDED.points] *)
Definition upsert_points (uid points : Z) (us : gmap Z Z) : gmap Z Z :=
  match us !! uid with
  | Some b => <[uid := b + points]> us
  | None => <[uid := points]> us
  end.

Definition upsert_many (data : list (Z * Z)) (us : gmap Z Z) : gmap Z Z :=
  foldl (fun acc up => upsert_points up.1 up.2 acc) us data.

(** [update_prediction_status(prediction_id, status, winner=None)]: the
    winner is written when it is given and not the empty string. *)
Definition winner_given (winner : option string) : option string :=
  match winner with
  | Some EmptyString => None
  | w => w
  end.

Definition update_prediction_status
    (prediction_id : Z) (st : status) (winner : option string) (d : t) : t :=
  match winner_given winner with
  | Some w =>
      set_predictions (alter (fun r =>
        {| row_creator_id := row_creator_id r; row_title := row_title r;
           row_option_a := row_option_a r; row_option_b := row_option_b r;
           row_status := st; row_winner := Some w;
           row_thread_id := row_thread_id r;
           row_message_id := row_message_id r |}) prediction_id) d
  | None =>
      set_predictions (alter (fun r =>
        {| row_creator_id := row_creator_id r; row_title := row_title r;
           row_option_a := row_option_a r; row_option_b := row_option_b r;
           row_status := st; row_winner := row_winner r;
           row_thread_id := row_thread_id r;
           row_message_id := row_message_id r |}) prediction_id) d
  end.

Definition bets_of (d : t) (prediction_id : Z) : gmap Z bet_row :=
  default ∅ (prediction_bets d !! prediction_id).

(** The UPSERT of a bet: a new row, or the points added to the row the
    user already has for this prediction (its option is kept). *)
Definition place_bet_db
    (prediction_id user_id : Z) (option : string) (points : Z) (d : t) : t :=
  let rows := bets_of d prediction_id in
  let row := match rows !! user_id with
             | Some r => {| bet_option := bet_option r;
                            bet_points := bet_points r + points |}
             | None => {| bet_option := option; bet_points := points |}
             end in
  set_prediction_bets (<[prediction_id := <[user_id := row]> rows]>) d.

(** [(user_id, option, points)] of every bet of a prediction. *)
Definition get_bets_for_prediction (d : t) (prediction_id : Z)
    : list (Z * string * Z) :=
  (fun ur => (ur.1, bet_option ur.2, bet_points ur.2))
    <$> map_to_list (bets_of d prediction_id).

Definition restorable (r : prediction_row) : bool :=
  bool_decide (row_status r = Active) || bool_decide (row_status r = Locked).

(** The rows with [status IN ('active', 'locked')], with their ids. *)
Definition get_restorable_predictions (d : t) : list (Z * prediction_row) :=
  filter (fun ir => restorable ir.2 = true) (map_to_list (predictions d)).

(** [create_prediction_db]: the [INSERT] names neither [id], [status] nor
    [winner]; they come from the declaration of the table, which is not
    among the files of the repository. [new_id] is the id the table
    generates (what [RETURNING id] answers) and [initial] the default of
    [status]; [winner] starts as NULL. *)
Definition create_prediction_db (new_id : Z) (initial : status)
    (creator_id : Z) (title option_a option_b : string)
    (thread_id message_id : Z) (d : t) : t :=
  set_predictions
    (<[new_id := {| row_creator_id := creator_id; row_title := title;
                    row_option_a := option_a; row_option_b := option_b;
                    row_status := initial; row_winner := None;
                    row_thread_id := thread_id;
                    row_message_id := message_id |}]>) d.

(** [get_active_prediction_by_creator]: the id of one open (active or
    locked) prediction of the creator, if there is any ([LIMIT 1]). *)
Definition get_active_prediction_by_creator (d : t) (creator_id : Z)
    : option Z :=
  head ((fun ir => ir.1)
          <$> filter (fun ir => row_creator_id ir.2 = creator_id)
                (get_restorable_predictions d)).

End Db.

(** ** Text typed into the modal

    The text is a string of bytes. Python's [isdigit] also accepts decimal
    digits outside ASCII; here such a text is not numeric. *)

Definition is_digit (c : ascii) : bool :=
  (48 <=? Z.of_nat (nat_of_ascii c)) && (Z.of_nat (nat_of_ascii c) <=? 57).

Fixpoint all_digits (s : string) : bool :=
  match s with
  | EmptyString => true
  | String c s' => is_digit c && all_digits s'
  end.

(** [value.isdigit()] on ASCII text: at least one character, all digits. *)
Definition isdigit (s : string) : bool :=
  match s with
  | EmptyString => false
  | _ => all_digits s
  end.

Fixpoint int_from (acc : Z) (s : string) : Z :=
  match s with
  | EmptyString => acc
  | String c s' => int_from (10 * acc + (Z.of_nat (nat_of_ascii c) - 48)) s'
  end.

(** [int(value)] on a string of digits. *)
Definition int (s : string) : Z := int_from 0 s.

(** ** [class PredictionView] and [class PredictionModal] *)

(** A [PredictionModal] as [button_callback] builds it; its
    [view_callback] is the [modal_callback] of the view it was opened from. *)
Record PredictionModal : Type := {
  modal_option : string;   (* the label of the button that opened it *)
  user_points : Z          (* the balance read when it was opened *)
}.

(** What a click on one of the two buttons answers. *)
Inductive button_response : Type :=
  | TriedToChangeSides
  | SentModal (m : PredictionModal).

(** What submitting the modal answers. *)
Inductive modal_response : Type :=
  | NotNumeric         (* "You must wager a numeric amount!" *)
  | NotPositive        (* "You must wager more than 0 points!" *)
  | NotEnoughPoints    (* "You don't have enough points!" *)
  | Deferred.          (* the wager went to the view's [modal_callback] *)

(** What one wager, from the click to the submitted modal, answers. *)
Inductive wager_response : Type :=
  | Ignored                       (* the button is disabled *)
  | SideChange                    (* "... tried to change sides..." *)
  | Answered (r : modal_response).

Module PredictionView.

Record t : Type := {
  option_a : string;
  option_a_points : gmap Z Z;
  option_b : string;
  option_b_points : gmap Z Z;
  locked : bool;
  prediction_id : option Z;
  timeout : option Z;
  (* [disabled] of the two buttons: both are created with [disabled=locked]
     and both are set by [disable_all_items] *)
  disabled : bool;
  (* [odds_a] and [odds_b] exist once [update_embed] has run *)
  odds_a : option num;
  odds_b : option num
}.

Definition init (option_a option_b : string) (prediction_id : option Z)
    (option_a_points option_b_points : gmap Z Z) (locked : bool) : t :=
  {| option_a := option_a; option_a_points := option_a_points;
     option_b := option_b; option_b_points := option_b_points;
     locked := locked; prediction_id := prediction_id;
     timeout := if locked then None else Some 1200;
     disabled := locked;
     odds_a := None; odds_b := None |}.

Definition set_option_a_points (d : gmap Z Z) (v : t) : t :=
  {| option_a := option_a v; option_a_points := d;
     option_b := option_b v; option_b_points := option_b_points v;
     locked := locked v; prediction_id := prediction_id v;
     timeout := timeout v; disabled := disabled v;
     odds_a := odds_a v; odds_b := odds_b v |}.

Definition set_option_b_points (d : gmap Z Z) (v : t) : t :=
  {| option_a := option_a v; option_a_points := option_a_points v;
     option_b := option_b v; option_b_points := d;
     locked := locked v; prediction_id := prediction_id v;
     timeout := timeout v; disabled := disabled v;
     odds_a := odds_a v; odds_b := odds_b v |}.

Definition set_odds_a (o : num) (v : t) : t :=
  {| option_a := option_a v; option_a_points := option_a_points v;
     option_b := option_b v; option_b_points := option_b_points v;
     locked := locked v; prediction_id := prediction_id v;
     timeout := timeout v; disabled := disabled v;
     odds_a := Some o; odds_b := odds_b v |}.

Definition set_odds_b (o : num) (v : t) : t :=
  {| option_a := option_a v; option_a_points := option_a_points v;
     option_b := option_b v; option_b_points := option_b_points v;
     locked := locked v; prediction_id := prediction_id v;
     timeout := timeout v; disabled := disabled v;
     odds_a := odds_a v; odds_b := Some o |}.

Definition set_prediction_id (i : Z) (v : t) : t :=
  {| option_a := option_a v; option_a_points := option_a_points v;
     option_b := option_b v; option_b_points := option_b_points v;
     locked := locked v; prediction_id := Some i;
     timeout := timeout v; disabled := disabled v;
     odds_a := odds_a v; odds_b := odds_b v |}.

(** The odds of one side, as [update_embed] writes them:
    [1 + (sum(opposite.values()) / sum(own.values())) if own else 1]. *)
Definition odds (own opposite : gmap Z Z) : result num :=
  if nonempty own
  then result_bind (truediv (sum_values opposite) (sum_values own))
         (fun q => Ok (PyFloat (one_plus q)))
  else Ok (PyInt 1).

(** [update_embed]: recomputes both odds (the text of the embed, which shows
    the totals, the number of users and the odds, is not modelled). *)
Definition update_embed : M t unit :=
  (let* v := get in
   let* oa := lift (odds (option_a_points v) (option_b_points v)) in
   modify (set_odds_a oa) ;;
   let* ob := lift (odds (option_b_points v) (option_a_points v)) in
   modify (set_odds_b ob))%py.

(** [self.locked = True; self.disable_all_items()] *)
Definition set_locked (v : t) : t :=
  {| option_a := option_a v; option_a_points := option_a_points v;
     option_b := option_b v; option_b_points := option_b_points v;
     locked := true; prediction_id := prediction_id v;
     timeout := timeout v; disabled := true;
     odds_a := odds_a v; odds_b := odds_b v |}.

(** [lock_view] (the edit of the message is not modelled). *)
Definition lock_view : M t unit := modify set_locked.

(** [on_timeout]: the view locks itself when its timeout elapses. *)
Definition on_timeout : M t unit :=
  (let* v := get in
   if locked v then ret tt else lock_view)%py.

(** Running a method of the view, or a statement, in a state that holds the
    view and the database. *)
Definition in_view {A} (m : M t A) : M (t * Db.t) A :=
  fun s => let '(r, v') := m s.1 in (r, (v', s.2)).

Definition in_db (f : Db.t -> Db.t) : M (t * Db.t) unit :=
  fun s => (Ok tt, (s.1, f s.2)).

(** The truth value of [self.prediction_id]: neither [None] nor 0. *)
Definition truthy_id (i : option Z) : option Z :=
  match i with
  | Some z => if z =? 0 then None else Some z
  | None => None
  end.

(** [modal_callback(user, points, option)]: merges the wager into the
    dictionary of the option, refreshes the odds, debits the user and
    persists the bet. *)
Definition modal_callback (uid points : Z) (option : string)
    : M (t * Db.t) unit :=
  (let* s := get in
   let v := s.1 in
   (if bool_decide (option = option_a v)
    then
      let prev := stake (option_a_points v) uid in
      in_view (modify (set_option_a_points
        (<[uid := prev + points]> (delete uid (option_a_points v)))))
    else
      let prev := stake (option_b_points v) uid in
      in_view (modify (set_option_b_points
        (<[uid := prev + points]> (delete uid (option_b_points v)))))) ;;
   in_view update_embed ;;
   in_db (Db.set_users (Db.sub_points points uid)) ;;
   match truthy_id (prediction_id v) with
   | Some pid => in_db (Db.place_bet_db pid uid option points)
   | None => ret tt
   end)%py.

(** The callback of the button labelled [label], for a click by [uid]. *)
Definition button_callback (label : string) (uid : Z)
    : M (t * Db.t) button_response :=
  (let* s := get in
   let v := s.1 in
   if (bool_decide (label = option_a v)
         && bool_decide (is_Some (option_b_points v !! uid)))
      || (bool_decide (label = option_b v)
         && bool_decide (is_Some (option_a_points v !! uid)))
   then ret TriedToChangeSides
   else ret (SentModal {| modal_option := label;
                          user_points := Db.select_points s.2 uid |}))%py.

(** [PredictionModal.callback]: the checks on the text typed by the user,
    then the view's [modal_callback]. *)
Definition modal_submit (m : PredictionModal) (uid : Z) (value : string)
    : M (t * Db.t) modal_response :=
  if negb (isdigit value) then ret NotNumeric
  else
    let points := int value in
    if points <=? 0 then ret NotPositive
    else if user_points m <? points then ret NotEnoughPoints
    else (modal_callback uid points (modal_option m) ;; ret Deferred)%py.

(** A click as the platform delivers it: a disabled button is not
    clickable, so its callback does not run. *)
Definition click (label : string) (uid : Z)
    : M (t * Db.t) (option button_response) :=
  (let* s := get in
   if disabled s.1 then ret None
   else let* r := button_callback label uid in ret (Some r))%py.

(** One wager from start to end: the click, and the modal it opens
    submitted at once with the text [value]. *)
Definition wager (label : string) (uid : Z) (value : string)
    : M (t * Db.t) wager_response :=
  (let* c := click label uid in
   match c with
   | None => ret Ignored
   | Some TriedToChangeSides => ret SideChange
   | Some (SentModal m) =>
       let* r := modal_submit m uid value in ret (Answered r)
   end)%py.

End PredictionView.

(** ** The chat platform

    The calls whose outcome the code branches on: fetching a thread or a
    message (which may raise [NotFound], [Forbidden] or another error) and
    the id of a message the bot sends. Editing and replying are taken to
    succeed and leave no trace in the model. *)

Record Platform : Type := {
  fetch_channel : Z -> result Z;
  fetch_message : Z -> Z -> result Z;
  send : Z -> Z
}.

(** ** [class Prediction] *)

Module Prediction.

Record t : Type := {
  title : string;
  option_a : string;
  option_b : string;
  thread : Z;
  db_id : option Z;
  message : Z;
  view : PredictionView.t
}.

Definition set_view (v : PredictionView.t) (p : t) : t :=
  {| title := title p; option_a := option_a p; option_b := option_b p;
     thread := thread p; db_id := db_id p; message := message p;
     view := v |}.

Definition set_db_id (i : Z) (p : t) : t :=
  {| title := title p; option_a := option_a p; option_b := option_b p;
     thread := thread p; db_id := Some i; message := message p;
     view := PredictionView.set_prediction_id i (view p) |}.

(** Running code of the view on [self.view]. *)
Definition in_view {A} (m : M (PredictionView.t * Db.t) A) : M (t * Db.t) A :=
  fun s => let '(r, (v', d')) := m (view s.1, s.2) in (r, (set_view v' s.1, d')).

Definition in_db (f : Db.t -> Db.t) : M (t * Db.t) unit :=
  fun s => (Ok tt, (s.1, f s.2)).

(** [Prediction(title, option_a, option_b, thread)] followed by
    [create_prediction()]: a fresh view, its odds computed, sent to the
    thread. *)
Definition create_prediction (plat : Platform)
    (title option_a option_b : string) (thread : Z) : result t :=
  match PredictionView.update_embed
          (PredictionView.init option_a option_b None ∅ ∅ false) with
  | (Ok _, v) =>
      Ok {| title := title; option_a := option_a; option_b := option_b;
            thread := thread; db_id := None; message := send plat thread;
            view := v |}
  | (Raise e, _) => Raise e
  end.

(** [Prediction.from_database(...)] followed by [restore_view()]: the view
    is rebuilt from the persisted bets; the message is fetched, and sent
    anew when it was deleted. *)
Definition restore_view (plat : Platform) (db_id : Z)
    (title option_a option_b : string) (thread message_id : Z)
    (option_a_points option_b_points : gmap Z Z) (locked : bool) : result t :=
  result_bind
    (match fetch_message plat thread message_id with
     | Ok m => Ok (Some m)
     | Raise NotFound => Ok None
     | Raise e => Raise e
     end)
    (fun fetched =>
       match PredictionView.update_embed
               (PredictionView.init option_a option_b (Some db_id)
                  option_a_points option_b_points locked) with
       | (Ok _, v) =>
           Ok {| title := title; option_a := option_a; option_b := option_b;
                 thread := thread; db_id := Some db_id;
                 message := match fetched with
                            | Some m => m
                            | None => send plat thread
                            end;
                 view := v |}
       | (Raise e, _) => Raise e
       end).

Definition lock_prediction : M (t * Db.t) unit :=
  (let* s := get in
   if PredictionView.locked (view s.1) then ret tt
   else in_view (PredictionView.in_view PredictionView.lock_view))%py.

(** [[(round(points * payout), user_id) for user_id, points in d.items()]] *)
Fixpoint payouts (payout : num) (data : list (Z * Z)) : result (list (Z * Z)) :=
  match data with
  | [] => Ok []
  | (points, user_id) :: rest =>
      result_bind (round_mul points payout) (fun amount =>
      result_bind (payouts payout rest) (fun tail =>
      Ok ((amount, user_id) :: tail)))
  end.

(** Reading an attribute that [update_embed] sets. *)
Definition attribute {S} (o : option num) : M S num :=
  match o with
  | Some x => ret x
  | None => raise AttributeError
  end.

Definition complete_prediction (winner : string) : M (t * Db.t) unit :=
  (let* s := get in
   let self := s.1 in
   let v := view self in
   if negb (nonempty (PredictionView.option_a_points v))
      || negb (nonempty (PredictionView.option_b_points v))
   then
     in_db (Db.set_users (Db.credit_many
       (items (PredictionView.option_a_points v)
        ++ items (PredictionView.option_b_points v)))) ;;
     in_view (PredictionView.in_view PredictionView.lock_view)
   else
     let* data :=
       (if bool_decide (winner = option_a self)
        then
          let* payout := attribute (PredictionView.odds_a v) in
          lift (payouts payout (items (PredictionView.option_a_points v)))
        else
          let* payout := attribute (PredictionView.odds_b v) in
          lift (payouts payout (items (PredictionView.option_b_points v)))) in
     in_db (Db.set_users (Db.credit_many data)) ;;
     in_view (PredictionView.in_view PredictionView.lock_view))%py.

Definition refund_prediction : M (t * Db.t) unit :=
  (let* s := get in
   let v := view s.1 in
   in_db (Db.set_users (Db.credit_many
     (items (PredictionView.option_a_points v)
      ++ items (PredictionView.option_b_points v)))) ;;
   in_view (PredictionView.in_view PredictionView.lock_view))%py.

End Prediction.

(** ** [class Points(commands.Cog)] *)

Module Points.

Record t : Type := {
  points_buffer : gmap Z Z;
  predictions : gmap Z Prediction.t
}.

(** [Points.__init__] *)
Definition init : t := {| points_buffer := ∅; predictions := ∅ |}.

Definition set_points_buffer (f : gmap Z Z -> gmap Z Z) (c : t) : t :=
  {| points_buffer := f (points_buffer c); predictions := predictions c |}.

Definition set_predictions
    (f : gmap Z Prediction.t -> gmap Z Prediction.t) (c : t) : t :=
  {| points_buffer := points_buffer c; predictions := f (predictions c) |}.

Definition in_self (f : t -> t) : M (t * Db.t) unit :=
  fun s => (Ok tt, (f s.1, s.2)).

Definition in_db (f : Db.t -> Db.t) : M (t * Db.t) unit :=
  fun s => (Ok tt, (s.1, f s.2)).

(** Running a method of the prediction registered for [creator_id], whose
    mutations are seen through the registry (it holds the same object). *)
Definition in_prediction {A} (creator_id : Z) (p : Prediction.t)
    (m : M (Prediction.t * Db.t) A) : M (t * Db.t) A :=
  fun s => let '(r, (p', d')) := m (p, s.2) in
           (r, (set_predictions (<[creator_id := p']>) s.1, d')).

Definition refund_prediction_bets (prediction_id : Z) : M (t * Db.t) unit :=
  (let* s := get in
   let bets := Db.get_bets_for_prediction s.2 prediction_id in
   match bets with
   | [] => ret tt
   | _ => in_db (Db.set_users (Db.credit_many
            ((fun b => (b.2, b.1.1)) <$> bets)))
   end)%py.

(** The two dictionaries rebuilt from the persisted bets. *)
Definition split_bets (option_a : string) (bets : list (Z * string * Z))
    : gmap Z Z * gmap Z Z :=
  foldl (fun acc b =>
           if bool_decide (b.1.2 = option_a)
           then (<[b.1.1 := b.2]> acc.1, acc.2)
           else (acc.1, <[b.1.1 := b.2]> acc.2))
        (∅, ∅) bets.

(** The body of the loop of [restore_predictions], for one row. *)
Definition restore_row (plat : Platform) (ir : Z * prediction_row)
    : M (t * Db.t) unit :=
  let db_id := ir.1 in
  let row := ir.2 in
  match fetch_channel plat (row_thread_id row) with
  | Raise NotFound | Raise Forbidden =>
      (refund_prediction_bets db_id ;;
       in_db (Db.update_prediction_status db_id Refunded None))%py
  | Raise e => raise e
  | Ok thread =>
      (let* s := get in
       let bets := Db.get_bets_for_prediction s.2 db_id in
       let pts := split_bets (row_option_a row) bets in
       let* prediction :=
         lift (Prediction.restore_view plat db_id (row_title row)
                 (row_option_a row) (row_option_b row) thread
                 (row_message_id row) pts.1 pts.2
                 (bool_decide (row_status row = Locked))) in
       in_self (set_predictions (<[row_creator_id row := prediction]>)))%py
  end.

Definition restore_predictions (plat : Platform) : M (t * Db.t) unit :=
  (let* s := get in
   for_each (Db.get_restorable_predictions s.2) (restore_row plat))%py.

(** [on_message]: [is_bot] stands for [user == self.bot.user or user.bot],
    [drawn] for the value of [random.randint(7, 25)]. *)
Definition on_message (uid : Z) (is_bot : bool) (drawn : Z) : M (t * Db.t) unit :=
  if is_bot then ret tt
  else in_self (set_points_buffer (<[uid := drawn]>)).

(** The points that [balance] displays. *)
Definition balance (target_user : Z) : M (t * Db.t) Z :=
  (let* s := get in ret (Db.select_points s.2 target_user))%py.

Definition status_of (db_id : option Z) (st : status) (winner : option string)
    : M (t * Db.t) unit :=
  match db_id with
  | Some i => in_db (Db.update_prediction_status i st winner)
  | None => ret tt
  end.

(** The three commands answer [false] for "You don't have a prediction
    open." (or, for [complete], a winner that is neither option). *)
Definition lock_prediction (user : Z) : M (t * Db.t) bool :=
  (let* s := get in
   match predictions s.1 !! user with
   | None => ret false
   | Some prediction =>
       in_prediction user prediction Prediction.lock_prediction ;;
       status_of (Prediction.db_id prediction) Locked None ;;
       ret true
   end)%py.

Definition complete_prediction (user : Z) (winner : string) : M (t * Db.t) bool :=
  (let* s := get in
   match predictions s.1 !! user with
   | None => ret false
   | Some prediction =>
       if bool_decide (winner = Prediction.option_a prediction)
          || bool_decide (winner = Prediction.option_b prediction)
       then
         in_prediction user prediction (Prediction.complete_prediction winner) ;;
         status_of (Prediction.db_id prediction) Completed (Some winner) ;;
         in_self (set_predictions (delete user)) ;;
         ret true
       else ret false
   end)%py.

Definition cancel_prediction (user : Z) : M (t * Db.t) bool :=
  (let* s := get in
   match predictions s.1 !! user with
   | None => ret false
   | Some prediction =>
       in_prediction user prediction Prediction.refund_prediction ;;
       status_of (Prediction.db_id prediction) Refunded None ;;
       in_self (set_predictions (delete user)) ;;
       ret true
   end)%py.

(** [update_points], the task that runs every 60 seconds, in the two parts
    its single [await] separates: up to the call of [db.perform_many], and
    from its completion on. The first part answers the [data] it hands to
    the database, or [None] when it returned at once. *)
Definition update_points_begin : M (t * Db.t) (option (list (Z * Z))) :=
  (let* s := get in
   if nonempty (points_buffer s.1)
   then ret (Some (map_to_list (points_buffer s.1)))
   else ret None)%py.

Definition update_points_end (data : list (Z * Z)) : M (t * Db.t) unit :=
  (in_db (Db.set_users (Db.upsert_many data)) ;;
   in_self (set_points_buffer (fun _ => ∅)))%py.

(** One run of the task with nothing else scheduled during its [await]. *)
Definition update_points : M (t * Db.t) unit :=
  (let* started := update_points_begin in
   match started with
   | None => ret tt
   | Some data => update_points_end data
   end)%py.

(** What [start_prediction] answers. *)
Inductive start_response : Type :=
  | AlreadyOpen      (* "You already have a prediction open." *)
  | SameOptions      (* "Options must be different." *)
  | Started.         (* "Prediction started: ..." *)

(** [start_prediction]: [thread] is the thread the platform creates on the
    announcement, [new_id] and [initial] are what the table gives the new
    row (see [Db.create_prediction_db]). *)
Definition start_prediction (plat : Platform) (thread new_id : Z)
    (initial : status) (user : Z) (title option_a option_b : string)
    : M (t * Db.t) start_response :=
  (let* s := get in
   if bool_decide (is_Some (predictions s.1 !! user)) then ret AlreadyOpen
   else if bool_decide (is_Some (Db.get_active_prediction_by_creator s.2 user))
   then ret AlreadyOpen
   else if bool_decide (option_a = option_b) then ret SameOptions
   else
     let* prediction :=
       lift (Prediction.create_prediction plat title option_a option_b thread) in
     in_db (Db.create_prediction_db new_id initial user title option_a
              option_b thread (Prediction.message prediction)) ;;
     in_self (set_predictions
                (<[user := Prediction.set_db_id new_id prediction]>)) ;;
     ret Started)%py.

(** [on_thread_delete]: the first registered prediction that uses the
    thread, in the order of the registry's items, has its persisted bets
    refunded, is marked refunded and leaves the registry. *)
Definition on_thread_delete (thread : Z) : M (t * Db.t) unit :=
  (let* s := get in
   match filter (fun cp => Prediction.thread cp.2 = thread)
           (map_to_list (predictions s.1)) with
   | [] => ret tt
   | (creator_id, prediction) :: _ =>
       match Prediction.db_id prediction with
       | Some i => refund_prediction_bets i
       | None => ret tt
       end ;;
       status_of (Prediction.db_id prediction) Refunded None ;;
       in_self (set_predictions (delete creator_id))
   end)%py.

(** [on_ready] *)
Definition on_ready (plat : Platform) : M (t * Db.t) unit :=
  restore_predictions plat.

End Points.

(** * Definitions used by the properties *)

(** Every entry of the dictionary is a positive number of points. *)
Definition positive_stakes (d : gmap Z Z) : Prop :=
  forall uid p, d !! uid = Some p -> 0 < p.

(** The points that a list of [(points, user_id)] credits to one user. *)
Definition credited (data : list (Z * Z)) (uid : Z) : Z :=
  foldr (fun pu acc => if bool_decide (pu.2 = uid) then pu.1 + acc else acc)
        0 data.

(** A float that is zero, or positive with its value below [2 ^ K]. *)
Definition below (K : Z) (f : spec_float) : Prop :=
  match f with
  | S754_zero _ => True
  | S754_finite false m e => Zpos (digits2_pos m) + e <= K
  | _ => False
  end.

(** The multiplier in the words of the specification: 1 when the own pool
    is 0, otherwise [1 + oppositePool / ownPool] (Python's division of two
    integers and Python's sum of an integer and a float). *)
Definition multiplier (ownPool oppositePool : Z) : result num :=
  if ownPool =? 0 then Ok (PyInt 1)
  else result_bind (truediv oppositePool ownPool)
         (fun q => Ok (PyFloat (one_plus q))).

(** The double 4.0 *)
Definition four : spec_float := S754_finite false 4503599627370496 (-50).

(** The amount [round(points * payout)], 0 standing for a raised exception
    (used only where the rounding is known to be defined). *)
Definition amount (payout : num) (points : Z) : Z :=
  match round_mul points payout with
  | Ok a => a
  | Raise _ => 0
  end.

(** The odds stored in the view are those of its dictionaries: running
    [update_embed] again would change nothing. Every view is created by
    [update_embed] and every wager ends with it. *)
Definition odds_current (v : PredictionView.t) : Prop :=
  PredictionView.update_embed v = (Ok tt, v).

(** The view once [modal_callback] has merged a wager into the dictionary
    of the option, before the odds are refreshed. *)
Definition merged (uid points : Z) (option : string) (v : PredictionView.t)
    : PredictionView.t :=
  if bool_decide (option = PredictionView.option_a v)
  then PredictionView.set_option_a_points
         (<[uid := stake (PredictionView.option_a_points v) uid + points]>
            (delete uid (PredictionView.option_a_points v))) v
  else PredictionView.set_option_b_points
         (<[uid := stake (PredictionView.option_b_points v) uid + points]>
            (delete uid (PredictionView.option_b_points v))) v.

(** The database once [modal_callback] has debited the user and persisted
    the bet. *)
Definition escrowed (uid points : Z) (option : string) (v : PredictionView.t)
    (d : Db.t) : Db.t :=
  match PredictionView.truthy_id (PredictionView.prediction_id v) with
  | Some pid =>
      Db.place_bet_db pid uid option points
        (Db.set_users (Db.sub_points points uid) d)
  | None => Db.set_users (Db.sub_points points uid) d
  end.

(** No click of [uid] on [label] is a change of sides. *)
Definition same_side (v : PredictionView.t) (label : string) (uid : Z) : Prop :=
  (label = PredictionView.option_a v ->
   PredictionView.option_b_points v !! uid = None)
  /\ (label = PredictionView.option_b v ->
      PredictionView.option_a_points v !! uid = None).

(** What happens to an open prediction between its creation and its
    settlement: wagers, and the lock (by command or by timeout). *)
Inductive event : Type :=
  | Wager (label : string) (uid : Z) (value : string)
  | Lock.

(** A wager is the click and the submitted modal of [PredictionView.wager];
    the lock is [Prediction.lock_prediction]. *)
Definition run_event (e : event) : M (Prediction.t * Db.t) unit :=
  match e with
  | Wager label uid value =>
      (Prediction.in_view (PredictionView.wager label uid value) ;; ret tt)%py
  | Lock => Prediction.lock_prediction
  end.

(** The points of every user are their points at [d0] less what they hold
    in the two dictionaries of the view. *)
Definition escrow_inv (d0 : Db.t) (s : Prediction.t * Db.t) : Prop :=
  forall u,
    Db.users s.2 !! u
    = (fun bal => bal - (stake (PredictionView.option_a_points
                                  (Prediction.view s.1)) u
                         + stake (PredictionView.option_b_points
                                    (Prediction.view s.1)) u))
        <$> Db.users d0 !! u.

(** The messages that arrive while the task awaits the database. *)
Definition messages (msgs : list (Z * bool * Z)) : M (Points.t * Db.t) unit :=
  for_each msgs (fun m => Points.on_message m.1.1 m.1.2 m.2).

(** The thread of the prediction cannot be fetched: it was deleted
    ([NotFound]) or the bot lost access to it ([Forbidden]). *)
Definition unreachable (plat : Platform) (row : prediction_row) : bool :=
  match fetch_channel plat (row_thread_id row) with
  | Raise NotFound | Raise Forbidden => true
  | _ => false
  end.

(** The points that [prediction_bets] holds for a user and a prediction. *)
Definition escrowed_stake (d : Db.t) (prediction_id uid : Z) : Z :=
  from_option bet_points 0 (Db.bets_of d prediction_id !! uid).

(** The stakes of a user in the unreachable predictions among [rows]. *)
Definition refund_due (plat : Platform) (d : Db.t)
    (rows : list (Z * prediction_row)) (uid : Z) : Z :=
  foldr (fun ir acc =>
           (if unreachable plat ir.2 then escrowed_stake d ir.1 uid else 0) + acc)
        0 rows.

(** The recovery can deal with a row: its thread is unreachable, or it is
    fetched and the view is rebuilt from the bets of [d] without an error. *)
Definition row_restores (plat : Platform) (d : Db.t) (ir : Z * prediction_row)
    : Prop :=
  unreachable plat ir.2 = true
  \/ exists thread p,
       fetch_channel plat (row_thread_id ir.2) = Ok thread
       /\ Prediction.restore_view plat ir.1 (row_title ir.2)
            (row_option_a ir.2) (row_option_b ir.2) thread (row_message_id ir.2)
            (Points.split_bets (row_option_a ir.2)
               (Db.get_bets_for_prediction d ir.1)).1
            (Points.split_bets (row_option_a ir.2)
               (Db.get_bets_for_prediction d ir.1)).2
            (bool_decide (row_status ir.2 = Locked)) = Ok p.

(** The row of the prediction exists and its status is ['refunded']. *)
Definition is_refunded (d : Db.t) (prediction_id : Z) : Prop :=
  row_status <$> Db.predictions d !! prediction_id = Some Refunded.

(** What every view satisfies: positive stakes, current odds, and no user
    on both sides. *)
Definition view_ok (v : PredictionView.t) : Prop :=
  positive_stakes (PredictionView.option_a_points v)
  /\ positive_stakes (PredictionView.option_b_points v)
  /\ odds_current v
  /\ forall u, PredictionView.option_a_points v !! u = None
               \/ PredictionView.option_b_points v !! u = None.

(** The creator has an open (active or locked) prediction in the table. *)
Definition has_open_row (d : Db.t) (creator_id : Z) : Prop :=
  exists id row,
    Db.predictions d !! id = Some row
    /\ row_creator_id row = creator_id
    /\ (row_status row = Active \/ row_status row = Locked).

(** The draw of the last message in [msgs] that a user who is not a bot
    sent as [u], if there is one. *)
Fixpoint last_draw (msgs : list (Z * bool * Z)) (u : Z) : option Z :=
  match msgs with
  | [] => None
  | m :: rest =>
      match last_draw rest u with
      | Some drawn => Some drawn
      | None => if negb m.1.2 && bool_decide (m.1.1 = u) then Some m.2 else None
      end
  end.

(** The text has ASCII characters only: on such a text the [isdigit] and
    the [int] of the model are Python's. *)
Definition is_ascii (s : string) : bool :=
  forallb (fun c => Z.of_nat (nat_of_ascii c) <? 128) (list_ascii_of_string s).

(** Every character of the text is the digit 0. *)
Definition all_zeros (s : string) : Prop :=
  forall c, c ∈ list_ascii_of_string s -> c = "0"%char.

(** Nobody owes points: no balance is negative. *)
Definition solvent (d : Db.t) : Prop :=
  forall u bal, Db.users d !! u = Some bal -> 0 <= bal.

(** All the points there are: the balances and the two pools of the view. *)
Definition total_points (v : PredictionView.t) (d : Db.t) : Z :=
  sum_values (Db.users d)
  + (sum_values (PredictionView.option_a_points v)
     + sum_values (PredictionView.option_b_points v)).

(** The event is one that a view with these options offers: a wager is a
    click on one of its two buttons. *)
Definition offered (option_a option_b : string) (e : event) : Prop :=
  match e with
  | Wager label _ _ => label = option_a \/ label = option_b
  | Lock => True
  end.

(** [prediction_bets] holds, for the prediction, exactly the entries of the
    two dictionaries of the view, each with the option of its dictionary. *)
Definition bets_mirror (v : PredictionView.t) (d : Db.t) (pid : Z) : Prop :=
  forall u,
    Db.bets_of d pid !! u
    = match PredictionView.option_a_points v !! u with
      | Some x => Some {| bet_option := PredictionView.option_a v;
                          bet_points := x |}
      | None =>
          (fun y => {| bet_option := PredictionView.option_b v;
                       bet_points := y |})
            <$> PredictionView.option_b_points v !! u
      end.

(** The number [m * 2 ^ e] is at least the integer [y]. *)
Definition value_ge (y m e : Z) : Prop :=
  y * 2 ^ Z.max 0 (- e) <= m * 2 ^ Z.max 0 e.

(** A float that is [+inf], or finite and positive with a value of at
    least the integer [y]. *)
Definition at_least (y : Z) (f : spec_float) : Prop :=
  match f with
  | S754_finite false m e => value_ge y (Zpos m) e
  | S754_infinity false => True
  | _ => False
  end.

(** ** Clicks and submissions as separate events

    A click and the submission of the modal it opens are two handlers of
    the source ([button_callback] and [PredictionModal.callback]), and
    other handlers run between the two. A [table] holds, beside the
    prediction and the database, the modals that were sent and not yet
    submitted, each with the user it was sent to, the latest first. *)
Inductive step : Type :=
  | Press (label : string) (uid : Z)      (* a click on a button *)
  | TypeIn (k : nat) (value : string)     (* the [k]-th open modal is submitted *)
  | LockStep.                             (* [Prediction.lock_prediction] *)

Definition table : Type :=
  list (Z * PredictionModal) * (Prediction.t * Db.t).

(** One handler, run to its end: a click that is answered with a modal
    leaves it open; a submission closes its modal, whatever the answer. *)
Definition run_step (st : step) : M table unit :=
  fun s =>
    match st with
    | Press label uid =>
        match Prediction.in_view (PredictionView.click label uid) s.2 with
        | (Ok (Some (SentModal m)), pd) => (Ok tt, ((uid, m) :: s.1, pd))
        | (Ok _, pd) => (Ok tt, (s.1, pd))
        | (Raise e, pd) => (Raise e, (s.1, pd))
        end
    | TypeIn k value =>
        match s.1 !! k with
        | None => (Ok tt, s)
        | Some (uid, m) =>
            match Prediction.in_view
                    (PredictionView.modal_submit m uid value) s.2 with
            | (Ok _, pd) => (Ok tt, (delete k s.1, pd))
            | (Raise e, pd) => (Raise e, (delete k s.1, pd))
            end
        end
    | LockStep =>
        match Prediction.lock_prediction s.2 with
        | (r, pd) => (r, (s.1, pd))
        end
    end.

(** The step is one that a view with these options and the platform allow:
    a click is on one of the two buttons, a typed text is ASCII (where the
    [isdigit] and the [int] of the model are Python's). *)
Definition allowed (option_a option_b : string) (st : step) : Prop :=
  match st with
  | Press label _ => label = option_a \/ label = option_b
  | TypeIn _ value => is_ascii value = true
  | LockStep => True
  end.

(** An event whose modal, if one opens, is submitted at once, before any
    other handler runs. *)
Definition at_once (e : event) : list step :=
  match e with
  | Wager label uid value => [Press label uid; TypeIn 0 value]
  | Lock => [LockStep]
  end.

(** No user holds points on both options. *)
Definition one_sided (v : PredictionView.t) : Prop :=
  forall u, PredictionView.option_a_points v !! u = None
            \/ PredictionView.option_b_points v !! u = None.

(** What holds of a table however clicks, submissions and locks
    interleave: positive stakes, current odds, balances of at most [B],
    and open modals that were sent by this view to users who own what the
    modal offers. *)
Definition sound_table (B : Z) (s : table) : Prop :=
  let v := Prediction.view s.2.1 in
  positive_stakes (PredictionView.option_a_points v)
  /\ positive_stakes (PredictionView.option_b_points v)
  /\ odds_current v
  /\ (forall u bal, Db.users s.2.2 !! u = Some bal -> bal <= B)
  /\ (forall uid m, (uid, m) ∈ s.1 ->
        (modal_option m = PredictionView.option_a v
         \/ modal_option m = PredictionView.option_b v)
        /\ user_points m <= B
        /\ (0 < user_points m -> is_Some (Db.users s.2.2 !! uid))).

(** The two pools of a view together. *)
Definition pools (v : PredictionView.t) : Z :=
  sum_values (PredictionView.option_a_points v)
  + sum_values (PredictionView.option_b_points v).

(** * Inputs of the examples *)

(** Views with the options "A" and "B" of prediction 1, as the constructor
    makes them from the given dictionaries. *)
Definition view_100_300 : PredictionView.t :=
  PredictionView.init "A" "B" (Some 1) {[ 1 := 100 ]} {[ 2 := 300 ]} false.

Definition view_u1_on_a : PredictionView.t :=
  PredictionView.init "A" "B" (Some 1) {[ 1 := 100 ]} ∅ false.

Definition db_u1 : Db.t :=
  {| Db.users := {[ 1 := 900 ]}; Db.predictions := ∅;
     Db.prediction_bets := {[ 1 := {[ 1 := {| bet_option := "A";
                                               bet_points := 100 |} ]} ]} |}.

Definition db_no_users : Db.t :=
  {| Db.users := ∅; Db.predictions := ∅; Db.prediction_bets := ∅ |}.

Definition view_empty : PredictionView.t :=
  PredictionView.init "A" "B" (Some 1) ∅ ∅ false.

(** A prediction around a view. *)
Definition prediction_of (v : PredictionView.t) : Prediction.t :=
  {| Prediction.title := "match"; Prediction.option_a := PredictionView.option_a v;
     Prediction.option_b := PredictionView.option_b v; Prediction.thread := 10;
     Prediction.db_id := PredictionView.prediction_id v;
     Prediction.message := 11; Prediction.view := v |}.

(** Nobody on A and 150 points of user 2 on B, with the odds that
    [update_embed] leaves for these pools: 1 for A and the float 1.0 for
    B. *)
Definition view_0_150 : PredictionView.t :=
  (PredictionView.update_embed
     (PredictionView.init "A" "B" (Some 1) ∅ {[ 2 := 150 ]} false)).2.

Definition db_u2 : Db.t :=
  {| Db.users := {[ 2 := 50 ]}; Db.predictions := ∅; Db.prediction_bets := ∅ |}.

(** 100 points of user 1 on A, 300 of user 2 on B, with the odds of that:
    4.0 for A and [1 + 100/300] for B. *)
Definition view_100_300_current : PredictionView.t :=
  PredictionView.set_odds_b
    (PyFloat (one_plus (S754_finite false 6004799503160661 (-54))))
    (PredictionView.set_odds_a (PyFloat four) view_100_300).

Definition db_u1_u2 : Db.t :=
  {| Db.users := {[ 1 := 0; 2 := 0 ]}; Db.predictions := ∅;
     Db.prediction_bets := ∅ |}.

Definition db_rich_u1 : Db.t :=
  {| Db.users := {[ 1 := 1000 ]}; Db.predictions := ∅; Db.prediction_bets := ∅ |}.

(** User 1 wagers 30 and then 12 points on A. *)
Definition after_30 : PredictionView.t * Db.t :=
  (PredictionView.wager "A" 1 "30" (view_empty, db_rich_u1)).2.

Definition after_30_12 : PredictionView.t * Db.t :=
  (PredictionView.wager "A" 1 "12" after_30).2.

(** A platform on which every thread and message is there. *)
Definition plat0 : Platform :=
  {| fetch_channel := fun thread => Ok thread;
     fetch_message := fun _ message => Ok message;
     send := fun thread => thread + 1 |}.

Definition db_u1_u2_rich : Db.t :=
  {| Db.users := {[ 1 := 500; 2 := 80 ]}; Db.predictions := ∅;
     Db.prediction_bets := ∅ |}.

Definition bets_u1_u2 : list event := [Wager "A" 1 "100"; Wager "B" 2 "50"].

(** A prediction as [create_prediction] makes it, with the id the database
    gave it (as [start_prediction] sets it on the prediction and its view). *)
Definition fresh_prediction : Prediction.t :=
  match Prediction.create_prediction plat0 "match" "A" "B" 10 with
  | Ok p => Prediction.set_db_id 1 p
  | Raise _ => prediction_of view_empty
  end.

Definition after_bets : Prediction.t * Db.t :=
  (for_each bets_u1_u2 run_event (fresh_prediction, db_u1_u2_rich)).2.

(** User 1 owns 1000 points and clicks A while the prediction is open... *)
Definition modal_before_lock : PredictionModal :=
  {| modal_option := "A"; user_points := 1000 |}.

(** ... the creator locks the prediction (or refunds it) ... *)
Definition locked_prediction : Prediction.t * Db.t :=
  (Prediction.lock_prediction (fresh_prediction, db_rich_u1)).2.

Definition refunded_prediction : Prediction.t * Db.t :=
  (Prediction.refund_prediction (fresh_prediction, db_rich_u1)).2.

(** ... and user 1 then submits the modal with 50 points. *)
Definition late_submit (s : Prediction.t * Db.t)
    : result modal_response * (Prediction.t * Db.t) :=
  Prediction.in_view (PredictionView.modal_submit modal_before_lock 1 "50") s.

(** One user is buffered when the task starts; while it awaits the
    database, a message of user 2 is rewarded 7 points. *)
Definition cog_one_buffered : Points.t * Db.t :=
  ({| Points.points_buffer := {[ 1 := 10 ]}; Points.predictions := ∅ |},
   db_no_users).

Definition cog_during_flush : Points.t * Db.t :=
  (Points.on_message 2 false 7 cog_one_buffered).2.

Definition cog_after_flush : Points.t * Db.t :=
  (Points.update_points_end [(1, 10)] cog_during_flush).2.

(** Thread 77 was deleted; every other thread and message is there. *)
Definition plat_77_deleted : Platform :=
  {| fetch_channel := fun thread => if thread =? 77 then Raise NotFound else Ok thread;
     fetch_message := fun _ message => Ok message;
     send := fun thread => thread + 1 |}.

(** Prediction 5 (locked, thread 77) holds 100 points of user 1 on A and
    50 of user 2 on B; prediction 6 (active, thread 78) holds 20 points of
    user 1. *)
Definition db_two_predictions : Db.t :=
  {| Db.users := {[ 1 := 0; 2 := 10 ]};
     Db.predictions :=
       {[ 5 := {| row_creator_id := 8; row_title := "first";
                  row_option_a := "A"; row_option_b := "B";
                  row_status := Locked; row_winner := None;
                  row_thread_id := 77; row_message_id := 770 |};
          6 := {| row_creator_id := 9; row_title := "second";
                  row_option_a := "A"; row_option_b := "B";
                  row_status := Active; row_winner := None;
                  row_thread_id := 78; row_message_id := 780 |} ]};
     Db.prediction_bets :=
       {[ 5 := {[ 1 := {| bet_option := "A"; bet_points := 100 |};
                  2 := {| bet_option := "B"; bet_points := 50 |} ]};
          6 := {[ 1 := {| bet_option := "A"; bet_points := 20 |} ]} ]} |}.

(** The cog and the database after the recovery. *)
Definition recovered : Points.t * Db.t :=
  (Points.restore_predictions plat_77_deleted (Points.init, db_two_predictions)).2.

(** User 8 has the locked prediction 5 in the table and nothing in the
    registry (as after a restart, before the recovery). *)
Definition cog_before_recovery : Points.t * Db.t :=
  (Points.init, db_two_predictions).

(** The prediction that the recovery registered for creator 9 (prediction 6,
    thread 78). *)
Definition prediction_6 : Prediction.t :=
  default (prediction_of view_empty) (Points.predictions recovered.1 !! 9).

(** User 3 starts prediction 1 ("A" against "B"), and users 1 and 2 place
    the bets of [bets_u1_u2] on it. *)
Definition cog_started : Points.t * Db.t :=
  (Points.start_prediction plat0 10 1 Active 3 "match" "A" "B"
     (Points.init, db_u1_u2_rich)).2.

Definition prediction_3 : Prediction.t :=
  default (prediction_of view_empty) (Points.predictions cog_started.1 !! 3).

Definition cog_with_bets : Points.t * Db.t :=
  (Points.in_prediction 3 prediction_3 (for_each bets_u1_u2 run_event)
     cog_started).2.

Definition prediction_3_bets : Prediction.t :=
  default (prediction_of view_empty) (Points.predictions cog_with_bets.1 !! 3).

Definition cog_completed : Points.t * Db.t :=
  (Points.complete_prediction 3 "A" cog_with_bets).2.

(** User 1 owns 1000 points and clicks B on the fresh prediction 1: this
    is the modal that opens. *)
Definition modal_b_before_bet : PredictionModal :=
  {| modal_option := "B"; user_points := 1000 |}.

(** User 1 then wagers 100 points on A ... *)
Definition after_bet_on_a : PredictionView.t * Db.t :=
  (PredictionView.wager "A" 1 "100"
     (Prediction.view fresh_prediction, db_rich_u1)).2.

(** ... and submits the modal of B with 50 points. *)
Definition after_late_b : result modal_response * (PredictionView.t * Db.t) :=
  PredictionView.modal_submit modal_b_before_bet 1 "50" after_bet_on_a.

(** The same as handlers in a row, with a lock at the end. *)
Definition steps_both_sides : list step :=
  [Press "B" 1; Press "A" 1; TypeIn 0 "100"; TypeIn 0 "50"; LockStep].

(** Users 1 and 2 click A and B, and then submit their modals. *)
Definition steps_interleaved : list step :=
  [Press "A" 1; Press "B" 2; TypeIn 1 "100"; TypeIn 0 "50"].

Definition after_interleaved : table :=
  (for_each steps_interleaved run_step
     ([], (fresh_prediction, db_u1_u2_rich))).2.

Definition events_at_once : list event :=
  bets_u1_u2 ++ [Wager "B" 1 "5"; Lock; Wager "A" 2 "x"].

(** * Properties *)

(** ** Sums and credits over dictionaries *)

(** Closes an equation between two arithmetic updates of the row that a
    lookup finds, by cases on whether the row exists. *)
Ltac row_arith m :=
  destruct m; cbn; [f_equal; lia | done].

Lemma sum_values_empty : sum_values ∅ = 0.
Proof. unfold sum_values. by rewrite map_fold_empty. Qed.

Lemma sum_values_insert (d : gmap Z Z) (uid p : Z) :
  d !! uid = None -> sum_values (<[uid := p]> d) = p + sum_values d.
Proof.
  intros Hnone. unfold sum_values.
  rewrite map_fold_insert_L; [done | intros; lia | done].
Qed.

Lemma sum_values_nonneg (d : gmap Z Z) :
  positive_stakes d -> 0 <= sum_values d.
Proof.
  induction d as [| uid p d Hnone IH] using map_ind; intros Hpos.
  - by rewrite sum_values_empty.
  - rewrite sum_values_insert by done.
    assert (0 < p) by (apply (Hpos uid); by rewrite lookup_insert_eq).
    assert (0 <= sum_values d); [| lia].
    apply IH. intros u q Hu. apply (Hpos u).
    rewrite lookup_insert_ne; [done | intros ->; congruence].
Qed.

Lemma sum_values_pos (d : gmap Z Z) :
  positive_stakes d -> d <> ∅ -> 0 < sum_values d.
Proof.
  destruct d as [| uid p d Hnone _] using map_ind; intros Hpos Hne; [done |].
  rewrite sum_values_insert by done.
  assert (0 < p) by (apply (Hpos uid); by rewrite lookup_insert_eq).
  assert (0 <= sum_values d); [| lia].
  apply sum_values_nonneg. intros u q Hu. apply (Hpos u).
  rewrite lookup_insert_ne; [done | intros ->; congruence].
Qed.

Lemma nonempty_true (d : gmap Z Z) : nonempty d = true <-> d <> ∅.
Proof.
  unfold nonempty. rewrite negb_true_iff, bool_decide_eq_false. done.
Qed.

Lemma nonempty_false (d : gmap Z Z) : nonempty d = false <-> d = ∅.
Proof.
  unfold nonempty. rewrite negb_false_iff, bool_decide_eq_true. done.
Qed.

(** A pool is zero exactly when nobody bet on the side. *)
Lemma pool_zero_iff_no_bettor (d : gmap Z Z) :
  positive_stakes d -> (sum_values d = 0 <-> d = ∅).
Proof.
  intros Hpos. split.
  - intros Hz. destruct (decide (d = ∅)) as [| Hne]; [done |].
    pose proof (sum_values_pos d Hpos Hne). lia.
  - intros ->. apply sum_values_empty.
Qed.

Lemma positive_stakes_delete (d : gmap Z Z) (uid : Z) :
  positive_stakes d -> positive_stakes (delete uid d).
Proof.
  intros Hpos u p Hu. apply lookup_delete_Some in Hu as [_ Hu]. by apply (Hpos u).
Qed.

Lemma sum_values_delete (d : gmap Z Z) (uid p : Z) :
  d !! uid = Some p -> sum_values d = p + sum_values (delete uid d).
Proof.
  intros Hp. rewrite <- (insert_delete_id d uid p Hp) at 1.
  apply sum_values_insert, lookup_delete_eq.
Qed.

(** A stake is at most the pool it belongs to. *)
Lemma stake_le_pool (d : gmap Z Z) (uid p : Z) :
  positive_stakes d -> d !! uid = Some p -> 0 < p <= sum_values d.
Proof.
  intros Hpos Hp. split; [by apply (Hpos uid) |].
  rewrite (sum_values_delete d uid p Hp).
  pose proof (sum_values_nonneg _ (positive_stakes_delete d uid Hpos)). lia.
Qed.

Lemma credited_cons (pu : Z * Z) (l : list (Z * Z)) (uid : Z) :
  credited (pu :: l) uid
  = if bool_decide (pu.2 = uid) then pu.1 + credited l uid else credited l uid.
Proof. reflexivity. Qed.

Lemma credited_app (l1 l2 : list (Z * Z)) (uid : Z) :
  credited (l1 ++ l2) uid = credited l1 uid + credited l2 uid.
Proof.
  induction l1 as [| pu l1 IH]; simpl; [done |].
  case_bool_decide; lia.
Qed.

Lemma credited_perm (l1 l2 : list (Z * Z)) (uid : Z) :
  l1 ≡ₚ l2 -> credited l1 uid = credited l2 uid.
Proof.
  induction 1 as [| x l l' _ IH | x y l | l l' l'' _ IH1 _ IH2]; simpl.
  - done.
  - by rewrite IH.
  - repeat case_bool_decide; lia.
  - congruence.
Qed.

Lemma credit_many_lookup (data : list (Z * Z)) (us : gmap Z Z) (uid : Z) :
  Db.credit_many data us !! uid
  = (fun b => b + credited data uid) <$> us !! uid.
Proof.
  unfold Db.credit_many. revert us.
  induction data as [| [p u] data IH]; intros us; simpl.
  - row_arith (us !! uid).
  - rewrite IH. unfold Db.add_points. simpl.
    case_bool_decide as Hu.
    + subst u. rewrite lookup_alter_eq.
      row_arith (us !! uid).
    + by rewrite lookup_alter_ne.
Qed.

Lemma items_empty : items ∅ = [].
Proof. unfold items. by rewrite map_to_list_empty. Qed.

Lemma items_insert (d : gmap Z Z) (uid p : Z) :
  d !! uid = None -> items (<[uid := p]> d) ≡ₚ (p, uid) :: items d.
Proof.
  intros Hnone. unfold items.
  rewrite (map_to_list_insert d uid p Hnone). done.
Qed.

(** The comprehension over [d.items()] names every user of [d] once, with
    the points [d] holds for them. *)
Lemma credited_items (d : gmap Z Z) (uid : Z) :
  credited (items d) uid = stake d uid.
Proof.
  unfold stake.
  induction d as [| u p d Hnone IH] using map_ind.
  - by rewrite items_empty, lookup_empty.
  - rewrite (credited_perm _ _ uid (items_insert d u p Hnone)). simpl.
    case_bool_decide as Hu.
    + subst u. rewrite lookup_insert_eq, IH, Hnone. simpl. lia.
    + rewrite lookup_insert_ne by done. exact IH.
Qed.

(** ** Python's floats stay finite on integers of moderate size

    [Zdigits2 m + e] bounds the binary magnitude of [m * 2 ^ e]; rounding
    raises it by at most one, and a result whose magnitude stays far below
    [emax] is a finite double. *)

Lemma digits2_pos_size (p : positive) : digits2_pos p = Pos.size p.
Proof. induction p; simpl; congruence. Qed.

Lemma Zdigits2_log2 (m : Z) : 0 < m -> Zdigits2 m = Z.log2 m + 1.
Proof.
  destruct m as [| p | p]; try lia. intros _. simpl.
  rewrite digits2_pos_size.
  destruct p; simpl; rewrite ?Pos2Z.inj_succ; lia.
Qed.

Lemma Zdigits2_nonneg (m : Z) : 0 <= Zdigits2 m.
Proof. destruct m; simpl; lia. Qed.

Lemma Zdigits2_le (a b : Z) : 0 <= a <= b -> Zdigits2 a <= Zdigits2 b.
Proof.
  intros [Ha Hab].
  destruct (Z.eq_dec a 0) as [-> | Hne]; [apply Zdigits2_nonneg |].
  rewrite !Zdigits2_log2 by lia.
  pose proof (Z.log2_le_mono a b Hab). lia.
Qed.

Lemma Zdigits2_succ (a : Z) : 0 <= a -> Zdigits2 (a + 1) <= Zdigits2 a + 1.
Proof.
  intros Ha. destruct (Z.eq_dec a 0) as [-> | Hne]; [simpl; lia |].
  rewrite !Zdigits2_log2 by lia.
  pose proof (Z.log2_succ_le a). unfold Z.succ in *. lia.
Qed.

Lemma Zdigits2_shiftr (a n : Z) :
  0 <= a -> 0 <= n -> Zdigits2 (Z.shiftr a n) <= Z.max 0 (Zdigits2 a - n).
Proof.
  intros Ha Hn.
  destruct (Z.eq_dec (Z.shiftr a n) 0) as [-> | Hne]; [simpl; lia |].
  assert (0 <= Z.shiftr a n) by (apply Z.shiftr_nonneg; lia).
  assert (0 < a).
  { destruct (Z.eq_dec a 0) as [-> | ?]; [| lia]. rewrite Z.shiftr_0_l in Hne. lia. }
  rewrite !Zdigits2_log2 by lia.
  rewrite Z.log2_shiftr by lia.
  assert (Hlt : n <= Z.log2 a).
  { destruct (Z.le_gt_cases n (Z.log2 a)); [done |].
    exfalso. apply Hne. apply Z.shiftr_eq_0; lia. }
  lia.
Qed.

Lemma Zdigits2_mul (a b : Z) :
  0 <= a -> 0 <= b -> Zdigits2 (a * b) <= Zdigits2 a + Zdigits2 b.
Proof.
  intros Ha Hb.
  destruct (Z.eq_dec a 0) as [-> | Hna]; [simpl; apply Zdigits2_nonneg |].
  destruct (Z.eq_dec b 0) as [-> | Hnb];
    [rewrite Z.mul_0_r; simpl; pose proof (Zdigits2_nonneg a); lia |].
  rewrite !Zdigits2_log2 by nia.
  pose proof (Z.log2_mul_above a b ltac:(lia) ltac:(lia)). lia.
Qed.

Lemma Zdigits2_shiftl (a n : Z) :
  0 < a -> 0 <= n -> Zdigits2 (Z.shiftl a n) = Zdigits2 a + n.
Proof.
  intros Ha Hn.
  assert (0 < Z.shiftl a n).
  { rewrite Z.shiftl_mul_pow2 by lia. pose proof (Z.pow_pos_nonneg 2 n). nia. }
  rewrite !Zdigits2_log2 by lia.
  rewrite Z.log2_shiftl by lia. lia.
Qed.

Lemma shr_1_m (r : shr_record) :
  0 <= shr_m r -> shr_m (shr_1 r) = Z.shiftr (shr_m r) 1.
Proof.
  destruct r as [m rb sb]. simpl. intros Hm.
  rewrite <- Z.div2_spec.
  destruct m as [| [p | p |] | p]; simpl; try reflexivity; lia.
Qed.

Lemma iter_pos_shr_m (n : positive) (r : shr_record) :
  0 <= shr_m r ->
  shr_m (SpecFloat.iter_pos shr_1 n r) = Z.shiftr (shr_m r) (Zpos n).
Proof.
  revert r. induction n as [n IH | n IH |]; intros r Hr; simpl.
  - assert (H1 : 0 <= shr_m (shr_1 r)).
    { rewrite shr_1_m by done. apply Z.shiftr_nonneg. done. }
    assert (H2 : 0 <= shr_m (SpecFloat.iter_pos shr_1 n (shr_1 r))).
    { rewrite IH by done. apply Z.shiftr_nonneg. done. }
    rewrite IH by done. rewrite IH by done. rewrite shr_1_m by done.
    rewrite !Z.shiftr_shiftr by lia. f_equal. lia.
  - assert (H2 : 0 <= shr_m (SpecFloat.iter_pos shr_1 n r)).
    { rewrite IH by done. apply Z.shiftr_nonneg. done. }
    rewrite IH by done. rewrite IH by done.
    rewrite !Z.shiftr_shiftr by lia. f_equal. lia.
  - by apply shr_1_m.
Qed.

Lemma shr_record_of_loc_m (m : Z) (l : location) :
  shr_m (shr_record_of_loc m l) = m.
Proof. by destruct l as [| []]. Qed.

Lemma fexp_le (x : Z) : fexp prec emax x <= Z.max (x - 53) (-1074).
Proof. unfold fexp, emin, prec, emax. lia. Qed.

Lemma shr_fexp_bound (m e : Z) (l : location) :
  0 <= m ->
  0 <= shr_m (shr_fexp prec emax m e l).1
  /\ Zdigits2 (shr_m (shr_fexp prec emax m e l).1) + (shr_fexp prec emax m e l).2
     <= Z.max (Zdigits2 m + e) (-1074).
Proof.
  intros Hm. unfold shr_fexp, shr.
  pose proof (fexp_le (Zdigits2 m + e)) as Hf.
  destruct (fexp prec emax (Zdigits2 m + e) - e) as [| n | n] eqn:Hn;
    cbn [fst snd]; rewrite ?shr_record_of_loc_m; try (split; lia).
  rewrite iter_pos_shr_m by (by rewrite shr_record_of_loc_m).
  rewrite shr_record_of_loc_m.
  split; [apply Z.shiftr_nonneg; done |].
  pose proof (Zdigits2_shiftr m (Zpos n) Hm ltac:(lia)). lia.
Qed.

Lemma round_nearest_even_bound (m : Z) (l : location) :
  0 <= m -> m <= round_nearest_even m l <= m + 1.
Proof.
  intros Hm. unfold round_nearest_even.
  destruct l as [| []]; try lia. destruct (Z.even m); lia.
Qed.

Lemma binary_round_aux_below (m e : Z) (l : location) (K : Z) :
  0 <= m -> Zdigits2 m + e <= K -> -1074 <= K <= 970 ->
  below (K + 1) (binary_round_aux prec emax false m e l).
Proof.
  intros Hm HK Hrange. unfold binary_round_aux.
  pose proof (shr_fexp_bound m e l Hm) as [H1 H2].
  destruct (shr_fexp prec emax m e l) as [mrs' e'] eqn:E1. cbn [fst snd] in H1, H2.
  pose proof (round_nearest_even_bound (shr_m mrs') (loc_of_shr_record mrs') H1)
    as Hr.
  set (m2 := round_nearest_even (shr_m mrs') (loc_of_shr_record mrs')) in *.
  assert (Hd2 : Zdigits2 m2 <= Zdigits2 (shr_m mrs') + 1).
  { etransitivity; [apply (Zdigits2_le m2 (shr_m mrs' + 1)); lia |].
    by apply Zdigits2_succ. }
  pose proof (shr_fexp_bound m2 e' loc_Exact ltac:(lia)) as [H3 H4].
  destruct (shr_fexp prec emax m2 e' loc_Exact) as [mrs'' e''] eqn:E2.
  cbn [fst snd] in H3, H4.
  destruct (shr_m mrs'') as [| p | p] eqn:Em; [done | | lia].
  assert (Hp : 1 <= Zdigits2 (Zpos p)) by (simpl; lia).
  destruct (Z.leb_spec e'' (emax - prec)) as [| Hbig].
  - simpl in H4 |- *. lia.
  - unfold emax, prec in Hbig. lia.
Qed.

Lemma Zdigits2_add (a b : Z) :
  0 <= a -> 0 <= b -> Zdigits2 (a + b) <= Z.max (Zdigits2 a) (Zdigits2 b) + 1.
Proof.
  intros Ha Hb.
  assert (Hmax : a + b <= Z.shiftl (Z.max a b) 1).
  { rewrite Z.shiftl_mul_pow2 by lia. lia. }
  destruct (Z.eq_dec (Z.max a b) 0) as [Hz | Hnz].
  { assert (a = 0) by lia. assert (b = 0) by lia. subst. simpl. lia. }
  assert (Hab : 0 <= a + b) by lia.
  pose proof (Zdigits2_le (a + b) (Z.shiftl (Z.max a b) 1) (conj Hab Hmax))
    as Hle.
  rewrite Zdigits2_shiftl in Hle by lia.
  destruct (Z.max_spec a b) as [[? Hm] | [? Hm]]; rewrite Hm in Hle;
    [pose proof (Zdigits2_le a b) | pose proof (Zdigits2_le b a)]; lia.
Qed.

Lemma Zdigits2_lt_pow2 (a n : Z) : 0 <= a < 2 ^ n -> 0 <= n -> Zdigits2 a <= n.
Proof.
  intros [Ha Hlt] Hn.
  destruct (Z.eq_dec a 0) as [-> | Hne]; [simpl; lia |].
  rewrite Zdigits2_log2 by lia.
  assert (Z.log2 a < n) by (apply Z.log2_lt_pow2; lia). lia.
Qed.

Lemma digits2_pos_iter_xO (m d : positive) :
  Zpos (digits2_pos (Pos.iter xO m d)) = Zpos (digits2_pos m) + Zpos d.
Proof.
  induction d as [| d IH] using Pos.peano_ind.
  - simpl. lia.
  - rewrite Pos.iter_succ. simpl. lia.
Qed.

(** Aligning a significand to a smaller exponent keeps the value. *)
Lemma shl_align_digits (m : positive) (e e' : Z) :
  Zpos (digits2_pos (shl_align m e e').1) + (shl_align m e e').2
  = Zpos (digits2_pos m) + e.
Proof.
  unfold shl_align. destruct (e' - e) as [| d | d] eqn:Hd; cbn [fst snd]; try done.
  rewrite digits2_pos_iter_xO. lia.
Qed.

Lemma shl_align_snd (m : positive) (e e' : Z) :
  e' <= e -> (shl_align m e e').2 = e'.
Proof.
  intros Hle. unfold shl_align.
  destruct (e' - e) as [| d | d] eqn:Hd; cbn [fst snd]; lia.
Qed.

Lemma binary_round_below (m : positive) (e K : Z) :
  Zpos (digits2_pos m) + e <= K -> -1074 <= K <= 970 ->
  below (K + 1) (binary_round prec emax false m e).
Proof.
  intros HK Hrange. unfold binary_round.
  pose proof (shl_align_digits m e (fexp prec emax (Zpos (digits2_pos m) + e))) as Hal.
  destruct (shl_align m e _) as [mz ez]. cbn [fst snd] in Hal.
  apply binary_round_aux_below; [lia | simpl; lia | done].
Qed.

Lemma float_of_int_below (q K : Z) :
  0 <= q -> Zdigits2 q <= K -> 0 <= K <= 970 ->
  exists f, float_of_int q = Ok f /\ below (K + 1) f.
Proof.
  intros Hq HK Hrange. unfold float_of_int, binary_normalize.
  destruct q as [| p | p]; [by eexists | | lia].
  pose proof (binary_round_below p 0 K ltac:(simpl in HK; lia) ltac:(lia)) as Hb.
  destruct (binary_round prec emax false p 0) as [s | s | | [] m e];
    try done; by eexists.
Qed.

Lemma truediv_below (a b K : Z) :
  0 <= a -> 0 < b -> Zdigits2 a <= K -> 0 <= K <= 970 ->
  exists f, truediv a b = Ok f /\ below (K + 1) f.
Proof.
  intros Ha Hb HK Hrange. unfold truediv.
  destruct (Z.eqb_spec b 0) as [| _]; [lia |].
  destruct a as [| pa | pa]; [| | lia].
  { destruct b; try lia. by eexists. }
  destruct b as [| pb | pb]; try lia.
  cbn [int_as_float SFdiv xorb].
  assert (Hcore : 0 <= (SFdiv_core_binary prec emax (Zpos pa) 0 (Zpos pb) 0).1.1
                  /\ Zdigits2 (SFdiv_core_binary prec emax (Zpos pa) 0 (Zpos pb) 0).1.1
                     + (SFdiv_core_binary prec emax (Zpos pa) 0 (Zpos pb) 0).1.2
                     <= K).
  { unfold SFdiv_core_binary.
    set (e' := Z.min (fexp prec emax (Zdigits2 (Zpos pa) + 0 - (Zdigits2 (Zpos pb) + 0))) (0 - 0)).
    assert (He' : e' <= 0) by (subst e'; lia).
    set (m' := match 0 - 0 - e' with
               | Zpos _ => Z.shiftl (Zpos pa) (0 - 0 - e')
               | Z0 => Zpos pa
               | Zneg _ => 0
               end).
    assert (Hm' : 0 <= m' /\ Zdigits2 m' + e' <= Zdigits2 (Zpos pa)).
    { subst m'. destruct (0 - 0 - e') as [| s | s] eqn:Hs; [split; lia | | lia].
      rewrite <- Hs. rewrite Zdigits2_shiftl by lia.
      split; [apply Z.shiftl_nonneg; lia | lia]. }
    pose proof (Z_div_mod m' (Zpos pb) ltac:(lia)) as Hdiv.
    destruct (Z.div_eucl m' (Zpos pb)) as [q r]. cbn [fst snd].
    destruct Hdiv as [Hdiv Hr].
    assert (Hq : 0 <= q <= m') by nia.
    split; [lia |].
    pose proof (Zdigits2_le q m' Hq). lia. }
  destruct (SFdiv_core_binary prec emax (Zpos pa) 0 (Zpos pb) 0) as [[mz ez] lz].
  cbn [fst snd] in Hcore. destruct Hcore as [Hmz Hdz].
  pose proof (binary_round_aux_below mz ez lz K Hmz Hdz ltac:(lia)) as Hbel.
  destruct (binary_round_aux prec emax false mz ez lz) as [s | s | | [] m e];
    try done; by eexists.
Qed.

Lemma one_plus_below (x : spec_float) (K : Z) :
  below K x -> 1 <= K <= 968 -> below (K + 2) (one_plus x).
Proof.
  intros Hx Hrange. unfold one_plus, one.
  change (SFone prec emax) with (S754_finite false 4503599627370496 (-52)).
  destruct x as [s | s | | [] mx ex]; try done.
  { simpl. lia. }
  cbn [SFadd cond_Zopp]. cbn [below] in Hx.
  set (ez := Z.min (-52) ex).
  assert (Hez1 : ez <= -52) by (subst ez; lia).
  assert (Hez2 : ez <= ex) by (subst ez; lia).
  clearbody ez.
  pose proof (shl_align_digits 4503599627370496 (-52) ez) as H1.
  pose proof (shl_align_snd 4503599627370496 (-52) ez Hez1) as H1'.
  pose proof (shl_align_digits mx ex ez) as H2.
  pose proof (shl_align_snd mx ex ez Hez2) as H2'.
  destruct (shl_align 4503599627370496 (-52) ez) as [m1 e1].
  destruct (shl_align mx ex ez) as [m2 e2].
  cbn [fst snd] in *. subst e1 e2.
  change (Zpos (digits2_pos 4503599627370496)) with 53 in H1.
  pose proof (Zdigits2_add (Zpos m1) (Zpos m2) ltac:(lia) ltac:(lia)) as Hadd.
  cbn [Zdigits2] in Hadd.
  unfold binary_normalize.
  destruct (Zpos m1 + Zpos m2) as [| p | p] eqn:Hsum; [done | | lia].
  cbn [Zdigits2] in Hadd.
  replace (K + 2) with ((K + 1) + 1) by lia.
  apply binary_round_below; lia.
Qed.

Lemma SFmul_below (x y : spec_float) (Kx Ky : Z) :
  below Kx x -> below Ky y -> -1074 <= Kx + Ky <= 970 ->
  below (Kx + Ky + 1) (SFmul prec emax x y).
Proof.
  intros Hx Hy Hrange.
  destruct x as [sx | sx | | [] mx ex]; try done;
    destruct y as [sy | sy | | [] my ey]; try done.
  cbn [SFmul xorb]. cbn [below] in Hx, Hy.
  apply binary_round_aux_below; [lia | | lia].
  pose proof (Zdigits2_mul (Zpos mx) (Zpos my) ltac:(lia) ltac:(lia)) as Hm.
  rewrite <- Pos2Z.inj_mul in Hm. cbn [Zdigits2] in Hm |- *. lia.
Qed.

Lemma round_float_below (f : spec_float) (K : Z) :
  below K f -> exists a, round_float f = Ok a.
Proof. destruct f as [s | s | | [] m e]; try done; by eexists. Qed.

(** For a positive own pool and an opposite pool, and points, below
    [2 ^ bits], neither the odds nor the rounded payout raise. *)
Lemma round_mul_defined (own opposite points bits : Z) :
  0 < own -> 0 <= opposite < 2 ^ bits -> 0 <= points < 2 ^ bits ->
  0 <= bits <= 480 ->
  exists q, truediv opposite own = Ok q
    /\ exists a, round_mul points (PyFloat (one_plus q)) = Ok a.
Proof.
  intros Hown Hopp Hpts Hbits.
  destruct (truediv_below opposite own bits) as (q & Hq & Hbq); try lia.
  { apply Zdigits2_lt_pow2; lia. }
  exists q. split; [done |].
  pose proof (one_plus_below q (bits + 1) Hbq ltac:(lia)) as Hone.
  destruct (float_of_int_below points bits) as (p & Hp & Hbp); try lia.
  { apply Zdigits2_lt_pow2; lia. }
  unfold round_mul, int_mul. rewrite Hp. cbn [result_bind round].
  eapply round_float_below.
  apply (SFmul_below p (one_plus q) (bits + 1) (bits + 1 + 2)); [done | done | lia].
Qed.

(** ** The odds *)

Lemma odds_is_multiplier (own opposite : gmap Z Z) :
  positive_stakes own ->
  PredictionView.odds own opposite
  = multiplier (sum_values own) (sum_values opposite).
Proof.
  intros Hpos. unfold PredictionView.odds, multiplier.
  destruct (nonempty own) eqn:Hne.
  - apply nonempty_true in Hne.
    pose proof (sum_values_pos own Hpos Hne) as Hs.
    destruct (Z.eqb_spec (sum_values own) 0); [lia | done].
  - apply nonempty_false in Hne. subst own.
    by rewrite sum_values_empty.
Qed.

(** With positive stakes and an opposite pool below [2 ^ bits], the
    multiplier is defined, and so is the payout of every stake of the
    side. *)
Lemma multiplier_defined (own opposite : gmap Z Z) (bits : Z) :
  positive_stakes own -> positive_stakes opposite ->
  sum_values own < 2 ^ bits -> sum_values opposite < 2 ^ bits ->
  0 <= bits <= 480 ->
  exists m,
    multiplier (sum_values own) (sum_values opposite) = Ok m
    /\ forall uid q, own !! uid = Some q -> exists a, round_mul q m = Ok a.
Proof.
  intros Hown Hopp Hbo Hbp Hbits. unfold multiplier.
  pose proof (sum_values_nonneg opposite Hopp) as Hnn.
  destruct (Z.eqb_spec (sum_values own) 0) as [Hz | Hnz].
  - exists (PyInt 1). split; [done |]. intros uid q Hq. by eexists.
  - pose proof (sum_values_nonneg own Hown) as Hnn'.
    destruct (round_mul_defined (sum_values own) (sum_values opposite) 0 bits)
      as (q0 & Hq0 & _); try lia.
    rewrite Hq0. cbn [result_bind]. eexists. split; [done |].
    intros uid q Hq. pose proof (stake_le_pool own uid q Hown Hq) as Hle.
    destruct (round_mul_defined (sum_values own) (sum_values opposite) q bits)
      as (q1 & Hq1 & Ha); try lia.
    rewrite Hq0 in Hq1. by injection Hq1 as <-.
Qed.

Lemma update_embed_run (v : PredictionView.t) (oa ob : num) :
  PredictionView.odds (PredictionView.option_a_points v)
    (PredictionView.option_b_points v) = Ok oa ->
  PredictionView.odds (PredictionView.option_b_points v)
    (PredictionView.option_a_points v) = Ok ob ->
  PredictionView.update_embed v
  = (Ok tt, PredictionView.set_odds_b ob (PredictionView.set_odds_a oa v)).
Proof.
  intros Ha Hb. unfold PredictionView.update_embed, bind, get, lift, modify.
  rewrite Ha. simpl. by rewrite Hb.
Qed.

(** When [update_embed] returns, only the two odds have changed, and they
    are the odds of the two dictionaries. *)
Lemma update_embed_inv (v v' : PredictionView.t) :
  PredictionView.update_embed v = (Ok tt, v') ->
  exists oa ob,
    PredictionView.odds (PredictionView.option_a_points v)
      (PredictionView.option_b_points v) = Ok oa
    /\ PredictionView.odds (PredictionView.option_b_points v)
         (PredictionView.option_a_points v) = Ok ob
    /\ v' = PredictionView.set_odds_b ob (PredictionView.set_odds_a oa v).
Proof.
  unfold PredictionView.update_embed, bind, get, lift, modify.
  destruct (PredictionView.odds (PredictionView.option_a_points v) _)
    as [oa | e] eqn:Ha; [| discriminate].
  simpl.
  destruct (PredictionView.odds (PredictionView.option_b_points v) _)
    as [ob | e] eqn:Hb; [| discriminate].
  intros [= <-]. by exists oa, ob.
Qed.

(** C4. The odds that [update_embed] computes for a side are the
    multiplier of the specification at the two pools: 1 when the side's own
    pool is 0, which is when it has no bettors, and [1 + opposite / own]
    otherwise; [multiplier(100, 300)] is 4.0 and [multiplier(0, b)] is 1.
    The stakes of a view are positive (the modal accepts no other wager);
    the division raises for no pools below [2 ^ 480]. *)
Theorem odds_multiplier (v : PredictionView.t) :
  positive_stakes (PredictionView.option_a_points v) ->
  positive_stakes (PredictionView.option_b_points v) ->
  let a := sum_values (PredictionView.option_a_points v) in
  let b := sum_values (PredictionView.option_b_points v) in
  (PredictionView.odds (PredictionView.option_a_points v)
     (PredictionView.option_b_points v) = multiplier a b
   /\ PredictionView.odds (PredictionView.option_b_points v)
        (PredictionView.option_a_points v) = multiplier b a)
  /\ (forall oa ob, multiplier a b = Ok oa -> multiplier b a = Ok ob ->
        exists v', PredictionView.update_embed v = (Ok tt, v')
          /\ PredictionView.odds_a v' = Some oa
          /\ PredictionView.odds_b v' = Some ob)
  /\ (a = 0 <-> PredictionView.option_a_points v = ∅)
  /\ (b = 0 <-> PredictionView.option_b_points v = ∅)
  /\ multiplier 100 300 = Ok (PyFloat four)
  /\ (forall pool, multiplier 0 pool = Ok (PyInt 1))
  /\ (a < 2 ^ 480 -> b < 2 ^ 480 ->
      exists oa ob, multiplier a b = Ok oa /\ multiplier b a = Ok ob).
Proof.
  intros Ha Hb a b.
  pose proof (odds_is_multiplier _ (PredictionView.option_b_points v) Ha) as Ea.
  pose proof (odds_is_multiplier _ (PredictionView.option_a_points v) Hb) as Eb.
  split; [exact (conj Ea Eb) |].
  split.
  { intros oa ob Hoa Hob. eexists. split.
    - apply update_embed_run; [by rewrite Ea | by rewrite Eb].
    - done. }
  split; [by apply pool_zero_iff_no_bettor |].
  split; [by apply pool_zero_iff_no_bettor |].
  split; [vm_compute; reflexivity |].
  split; [done |].
  intros Hba Hbb.
  destruct (multiplier_defined _ _ 480 Ha Hb Hba Hbb ltac:(lia)) as (oa & Hoa & _).
  destruct (multiplier_defined _ _ 480 Hb Ha Hbb Hba ltac:(lia)) as (ob & Hob & _).
  by exists oa, ob.
Qed.

Lemma positive_stakes_singleton (uid p : Z) :
  0 < p -> positive_stakes {[ uid := p ]}.
Proof.
  intros Hp u q Hu. apply lookup_singleton_Some in Hu as [_ <-]. done.
Qed.

Lemma odds_multiplier_witness :
  PredictionView.odds {[ 1 := 100 ]} {[ 2 := 300 ]} = Ok (PyFloat four)
  /\ exists v', PredictionView.update_embed view_100_300 = (Ok tt, v')
       /\ PredictionView.odds_a v' = Some (PyFloat four).
Proof.
  pose proof (odds_multiplier view_100_300
                (positive_stakes_singleton 1 100 eq_refl)
                (positive_stakes_singleton 2 300 eq_refl)) as H.
  cbv zeta in H.
  destruct H as [[Ha _] [Hrun [_ [_ [H4 _]]]]].
  assert (Hsa : sum_values {[ 1 := 100 ]} = 100) by (vm_compute; reflexivity).
  assert (Hsb : sum_values {[ 2 := 300 ]} = 300) by (vm_compute; reflexivity).
  simpl in Ha, Hrun. rewrite Hsa, Hsb in Ha, Hrun.
  split.
  - rewrite Ha. exact H4.
  - destruct (Hrun (PyFloat four)
                (PyFloat (one_plus (S754_finite false 6004799503160661 (-54)))))
      as [v' [Hv' [Hoa _]]].
    + exact H4.
    + vm_compute. reflexivity.
    + exists v'. split; assumption.
Defined.

(** ** Clicks and modals *)

(** The test of the side, in the callback of the button. A user who holds
    a position on one option and clicks the button of the other option is
    answered "tried to change sides" (the specification's [SideConflict]):
    no modal opens, and neither the view (its two dictionaries) nor the
    database (the balances, the persisted bets) changes, whatever text the
    user meant to wager. A modal that was opened before the position was
    taken is not stopped by this test: [late_modal_changes_sides]. *)
Theorem opposite_side_rejected
    (v : PredictionView.t) (d : Db.t) (uid : Z) (label value : string) :
  (label = PredictionView.option_a v
   /\ is_Some (PredictionView.option_b_points v !! uid))
  \/ (label = PredictionView.option_b v
      /\ is_Some (PredictionView.option_a_points v !! uid)) ->
  PredictionView.button_callback label uid (v, d)
  = (Ok TriedToChangeSides, (v, d))
  /\ (PredictionView.disabled v = false ->
      PredictionView.wager label uid value (v, d) = (Ok SideChange, (v, d)))
  /\ (PredictionView.wager label uid value (v, d)).2 = (v, d).
Proof.
  intros Hside.
  assert (Hb : PredictionView.button_callback label uid (v, d)
               = (Ok TriedToChangeSides, (v, d))).
  { unfold PredictionView.button_callback, bind, get, ret. simpl.
    destruct Hside as [[-> Hin] | [-> Hin]].
    - rewrite (bool_decide_eq_true_2 _ eq_refl).
      rewrite (bool_decide_eq_true_2 _ Hin). done.
    - rewrite (bool_decide_eq_true_2 (PredictionView.option_b v
                                       = PredictionView.option_b v) eq_refl).
      rewrite (bool_decide_eq_true_2 _ Hin).
      by rewrite andb_true_r, orb_true_r. }
  split; [exact Hb |].
  unfold PredictionView.wager, PredictionView.click, bind, get, ret. simpl.
  destruct (PredictionView.disabled v); simpl.
  - split; [discriminate | done].
  - rewrite Hb. done.
Qed.

Lemma opposite_side_rejected_witness :
  PredictionView.wager "B" 1 "50" (view_u1_on_a, db_u1)
  = (Ok SideChange, (view_u1_on_a, db_u1)).
Proof.
  refine (proj1 (proj2 (opposite_side_rejected view_u1_on_a db_u1 1 "B" "50"
                          _)) eq_refl).
  right. split; [reflexivity |]. exists 100. reflexivity.
Defined.

(** C8, at its failing input. The side of a user is tested by the
    callback of the button only. User 1 clicks B while holding nothing (a
    modal opens), wagers 100 points on A, and then submits the modal of B
    with 50 points: a click on B is now answered "tried to change sides",
    but the submission goes to [modal_callback], which tests no side. The
    user ends with 100 points on A and 50 on B, is debited both, and
    [prediction_bets] holds one row for the user, on A with 150 points. *)
Theorem late_modal_changes_sides :
  PredictionView.click "B" 1 (Prediction.view fresh_prediction, db_rich_u1)
  = (Ok (Some (SentModal modal_b_before_bet)),
     (Prediction.view fresh_prediction, db_rich_u1))
  /\ (PredictionView.wager "A" 1 "100"
        (Prediction.view fresh_prediction, db_rich_u1)).1
     = Ok (Answered Deferred)
  /\ PredictionView.option_a_points after_bet_on_a.1 = {[ 1 := 100 ]}
  /\ PredictionView.option_b_points after_bet_on_a.1 = ∅
  /\ Db.users after_bet_on_a.2 !! 1 = Some 900
  /\ PredictionView.button_callback "B" 1 after_bet_on_a
     = (Ok TriedToChangeSides, after_bet_on_a)
  /\ after_late_b.1 = Ok Deferred
  /\ PredictionView.option_a_points after_late_b.2.1 = {[ 1 := 100 ]}
  /\ PredictionView.option_b_points after_late_b.2.1 = {[ 1 := 50 ]}
  /\ Db.users after_late_b.2.2 !! 1 = Some 850
  /\ Db.bets_of after_late_b.2.2 1 !! 1
     = Some {| bet_option := "A"; bet_points := 150 |}.
Proof. vm_compute. repeat split; reflexivity. Qed.

(** C10. A user without a row in [users] reads as 0 points: [balance]
    displays 0, a click opens a modal offering 0 points (unless it is the
    click of a side change), and every positive wager typed into that modal
    is answered "You don't have enough points!" with nothing changed. *)
Theorem missing_user_has_zero_points
    (c : Points.t) (v : PredictionView.t) (d : Db.t) (uid : Z) :
  Db.users d !! uid = None ->
  Points.balance uid (c, d) = (Ok 0, (c, d))
  /\ (forall label,
        PredictionView.button_callback label uid (v, d)
        = (Ok TriedToChangeSides, (v, d))
        \/ PredictionView.button_callback label uid (v, d)
           = (Ok (SentModal {| modal_option := label; user_points := 0 |}),
              (v, d)))
  /\ (forall label value,
        isdigit value = true -> 0 < int value ->
        PredictionView.modal_submit
          {| modal_option := label; user_points := 0 |} uid value (v, d)
        = (Ok NotEnoughPoints, (v, d))).
Proof.
  intros Hrow.
  assert (Hsel : Db.select_points d uid = 0).
  { unfold Db.select_points. by rewrite Hrow. }
  split; [| split].
  - unfold Points.balance, bind, get, ret. simpl. by rewrite Hsel.
  - intros label.
    unfold PredictionView.button_callback, bind, get, ret. simpl.
    rewrite Hsel.
    destruct (_ || _); [by left | by right].
  - intros label value Hdig Hpos.
    unfold PredictionView.modal_submit. rewrite Hdig. simpl.
    destruct (Z.leb_spec (int value) 0); [lia |].
    destruct (Z.ltb_spec 0 (int value)); [done | lia].
Qed.

Lemma missing_user_has_zero_points_witness :
  Points.balance 7 (Points.init, db_no_users) = (Ok 0, (Points.init, db_no_users))
  /\ PredictionView.modal_submit
       {| modal_option := "A"; user_points := 0 |} 7 "5" (view_empty, db_no_users)
     = (Ok NotEnoughPoints, (view_empty, db_no_users)).
Proof.
  pose proof (missing_user_has_zero_points Points.init view_empty db_no_users 7
                eq_refl) as [Hb [_ Hm]].
  split; [exact Hb |].
  apply Hm; [reflexivity | reflexivity].
Defined.

(** ** Settlement *)

Lemma elem_of_items (d : gmap Z Z) (p uid : Z) :
  (p, uid) ∈ items d <-> d !! uid = Some p.
Proof.
  unfold items. rewrite list_elem_of_fmap. split.
  - intros [[u q] [[= -> ->] Hin]]. by apply elem_of_map_to_list in Hin.
  - intros Hd. exists (uid, p). split; [done |]. by apply elem_of_map_to_list.
Qed.

Lemma credited_items_map (f : Z -> Z) (d : gmap Z Z) (uid : Z) :
  credited ((fun pu => (f pu.1, pu.2)) <$> items d) uid
  = from_option f 0 (d !! uid).
Proof.
  induction d as [| u p d Hnone IH] using map_ind.
  - by rewrite items_empty, lookup_empty.
  - assert (Hperm : (fun pu : Z * Z => (f pu.1, pu.2)) <$> items (<[u := p]> d)
                    ≡ₚ (fun pu : Z * Z => (f pu.1, pu.2)) <$> ((p, u) :: items d)).
    { by rewrite (items_insert d u p Hnone). }
    rewrite (credited_perm _ _ uid Hperm), fmap_cons, credited_cons.
    cbn [fst snd].
    case_bool_decide as Hu.
    + subst u. rewrite lookup_insert_eq, IH, Hnone. simpl. lia.
    + rewrite lookup_insert_ne by done. exact IH.
Qed.

Lemma payouts_defined (payout : num) (data : list (Z * Z)) :
  (forall p uid, (p, uid) ∈ data -> exists a, round_mul p payout = Ok a) ->
  Prediction.payouts payout data
  = Ok ((fun pu => (amount payout pu.1, pu.2)) <$> data).
Proof.
  induction data as [| [p u] data IH]; intros Hdef; simpl; [done |].
  destruct (Hdef p u) as [a Ha]; [by left |].
  rewrite Ha. simpl. rewrite IH.
  - simpl. unfold amount at 2. simpl. by rewrite Ha.
  - intros q w Hin. apply (Hdef q w). by right.
Qed.

Lemma refund_prediction_run (p : Prediction.t) (d : Db.t) :
  Prediction.refund_prediction (p, d)
  = (Ok tt,
     (Prediction.set_view (PredictionView.set_locked (Prediction.view p)) p,
      Db.set_users (Db.credit_many
        (items (PredictionView.option_a_points (Prediction.view p))
         ++ items (PredictionView.option_b_points (Prediction.view p)))) d)).
Proof. reflexivity. Qed.

Lemma refund_credits_stakes (a b : gmap Z Z) (us : gmap Z Z) (uid : Z) :
  Db.credit_many (items a ++ items b) us !! uid
  = (fun bal => bal + (stake a uid + stake b uid)) <$> us !! uid.
Proof.
  rewrite credit_many_lookup, credited_app, !credited_items. done.
Qed.

(** C5. When a prediction is completed while one of its two dictionaries
    is empty, whoever the winner, every user's row is credited exactly the
    stake the user holds (on either side): no multiplier is applied.
    Nothing else in the database changes and the view ends locked. *)
Theorem wash_refunds_stakes (p : Prediction.t) (d : Db.t) (winner : string) :
  let a := PredictionView.option_a_points (Prediction.view p) in
  let b := PredictionView.option_b_points (Prediction.view p) in
  a = ∅ \/ b = ∅ ->
  exists p' d',
    Prediction.complete_prediction winner (p, d) = (Ok tt, (p', d'))
    /\ (forall uid,
          Db.users d' !! uid
          = (fun bal => bal + (stake a uid + stake b uid)) <$> Db.users d !! uid)
    /\ Db.predictions d' = Db.predictions d
    /\ Db.prediction_bets d' = Db.prediction_bets d
    /\ PredictionView.locked (Prediction.view p') = true
    /\ PredictionView.option_a_points (Prediction.view p') = a
    /\ PredictionView.option_b_points (Prediction.view p') = b.
Proof.
  intros a b Hempty.
  assert (Hcond : negb (nonempty a) || negb (nonempty b) = true).
  { destruct Hempty as [Ha | Hb].
    - apply nonempty_false in Ha. by rewrite Ha.
    - apply nonempty_false in Hb. rewrite Hb. apply orb_true_r. }
  exists (Prediction.set_view (PredictionView.set_locked (Prediction.view p)) p).
  exists (Db.set_users (Db.credit_many (items a ++ items b)) d).
  split.
  - unfold Prediction.complete_prediction, bind, get. simpl.
    fold a b. rewrite Hcond. reflexivity.
  - split; [| done]. intros uid. simpl. apply refund_credits_stakes.
Qed.

(** Pools A=0, B=150: the 150 points go back to the bettor of B. *)
Lemma wash_refunds_stakes_witness :
  exists p' d',
    Prediction.complete_prediction "B" (prediction_of view_0_150, db_u2)
    = (Ok tt, (p', d'))
    /\ Db.users d' !! 2 = Some 200.
Proof.
  destruct (wash_refunds_stakes (prediction_of view_0_150) db_u2 "B"
              (or_introl eq_refl)) as [p' [d' [Hrun [Hus _]]]].
  exists p', d'. split; [exact Hrun |].
  rewrite (Hus 2). reflexivity.
Defined.

Lemma odds_current_fields (v : PredictionView.t) :
  odds_current v ->
  exists oa ob,
    PredictionView.odds (PredictionView.option_a_points v)
      (PredictionView.option_b_points v) = Ok oa
    /\ PredictionView.odds (PredictionView.option_b_points v)
         (PredictionView.option_a_points v) = Ok ob
    /\ PredictionView.odds_a v = Some oa
    /\ PredictionView.odds_b v = Some ob.
Proof.
  intros Hcur. destruct (update_embed_inv v v Hcur) as [oa [ob [Ha [Hb Hv]]]].
  exists oa, ob. repeat split; try done.
  - by rewrite Hv.
  - by rewrite Hv.
Qed.

Lemma payout_credits (payout : num) (win : gmap Z Z) (us : gmap Z Z) :
  (forall uid q, win !! uid = Some q -> exists a, round_mul q payout = Ok a) ->
  exists data,
    Prediction.payouts payout (items win) = Ok data
    /\ (forall uid q, win !! uid = Some q ->
          exists a, round_mul q payout = Ok a
            /\ Db.credit_many data us !! uid = (fun bal => bal + a) <$> us !! uid)
    /\ (forall uid, win !! uid = None ->
          Db.credit_many data us !! uid = us !! uid).
Proof.
  intros Hdef. eexists. split; [| split].
  - apply payouts_defined. intros p uid Hin. apply elem_of_items in Hin. eauto.
  - intros uid q Hq. destruct (Hdef uid q Hq) as [a Ha]. exists a.
    split; [done |].
    rewrite credit_many_lookup, credited_items_map, Hq. simpl.
    unfold amount. by rewrite Ha.
  - intros uid Hnone.
    rewrite credit_many_lookup, credited_items_map, Hnone. simpl.
    row_arith (us !! uid).
Qed.

(** C3. When a prediction is completed while both dictionaries hold
    bets, each bettor of the winning side is credited exactly
    [round(points * m)] for the points they staked, [m] being the
    multiplier of the winning side at the pools of that moment, and nobody
    else is credited anything (a bettor of the losing side holds nothing on
    the winning side). The winning side is A when [winner] is [option_a],
    and B otherwise. This is what happens when no rounding raises, and none
    does when both pools are below [2 ^ 480]. *)
Theorem winners_paid_by_multiplier
    (p : Prediction.t) (d : Db.t) (winner : string) :
  let v := Prediction.view p in
  let a_wins := bool_decide (winner = Prediction.option_a p) in
  let win := if a_wins then PredictionView.option_a_points v
             else PredictionView.option_b_points v in
  let lose := if a_wins then PredictionView.option_b_points v
              else PredictionView.option_a_points v in
  win <> ∅ -> lose <> ∅ ->
  positive_stakes win -> positive_stakes lose ->
  odds_current v ->
  exists m,
    multiplier (sum_values win) (sum_values lose) = Ok m
    /\ ((forall uid q, win !! uid = Some q -> exists a, round_mul q m = Ok a) ->
        exists p' d',
          Prediction.complete_prediction winner (p, d) = (Ok tt, (p', d'))
          /\ (forall uid q, win !! uid = Some q ->
                exists a, round_mul q m = Ok a
                  /\ Db.users d' !! uid
                     = (fun bal => bal + a) <$> Db.users d !! uid)
          /\ (forall uid, win !! uid = None ->
                Db.users d' !! uid = Db.users d !! uid)
          /\ PredictionView.locked (Prediction.view p') = true)
    /\ (forall bits, 0 <= bits <= 480 ->
          sum_values win < 2 ^ bits -> sum_values lose < 2 ^ bits ->
          forall uid q, win !! uid = Some q -> exists a, round_mul q m = Ok a).
Proof.
  intros v a_wins win lose Hwin Hlose Hpos Hposl Hcur.
  destruct (odds_current_fields v Hcur) as [oa [ob [Hoa [Hob [Hfa Hfb]]]]].
  assert (Hm : exists m, multiplier (sum_values win) (sum_values lose) = Ok m
                 /\ (if a_wins then PredictionView.odds_a v
                     else PredictionView.odds_b v) = Some m).
  { subst win lose. destruct a_wins.
    - exists oa. by rewrite <- (odds_is_multiplier _ _ Hpos).
    - exists ob. by rewrite <- (odds_is_multiplier _ _ Hpos). }
  destruct Hm as (m & Hm & Hfield). exists m. split; [exact Hm |]. split.
  - intros Hdef.
    destruct (payout_credits m win (Db.users d) Hdef) as [data [Hdata [Hw Hl]]].
    exists (Prediction.set_view (PredictionView.set_locked v) p).
    exists (Db.set_users (Db.credit_many data) d).
    split; [| split; [exact Hw | split; [exact Hl | reflexivity]]].
    unfold Prediction.complete_prediction, bind, get. simpl. fold v.
    subst win lose. fold a_wins.
    destruct a_wins eqn:Hside.
    + apply nonempty_true in Hwin, Hlose. rewrite Hwin, Hlose. simpl.
      rewrite Hfield. simpl. unfold lift. rewrite Hdata. reflexivity.
    + apply nonempty_true in Hwin, Hlose. rewrite Hwin, Hlose. simpl.
      rewrite Hfield. simpl. unfold lift. rewrite Hdata. reflexivity.
  - intros bits Hbits Hbw Hbl.
    destruct (multiplier_defined win lose bits Hpos Hposl Hbw Hbl Hbits)
      as (m' & Hm' & Hdef).
    rewrite Hm in Hm'. injection Hm' as <-. exact Hdef.
Qed.

(** Pools A=100 (user 1) and B=300 (user 2), winner A: user 1 is credited
    400 and user 2 nothing. *)
Lemma winners_paid_by_multiplier_witness :
  exists p' d',
    Prediction.complete_prediction "A"
      (prediction_of view_100_300_current, db_u1_u2) = (Ok tt, (p', d'))
    /\ Db.users d' !! 1 = Some 400
    /\ Db.users d' !! 2 = Some 0.
Proof.
  destruct (winners_paid_by_multiplier
              (prediction_of view_100_300_current) db_u1_u2 "A")
    as (m & Hm & Hpaid & Hdef).
  - vm_compute. discriminate.
  - vm_compute. discriminate.
  - apply positive_stakes_singleton. reflexivity.
  - apply positive_stakes_singleton. reflexivity.
  - vm_compute. reflexivity.
  - assert (Em : m = PyFloat four).
    { vm_compute in Hm. by injection Hm as <-. }
    subst m.
    destruct (Hpaid (Hdef 9 ltac:(lia) ltac:(vm_compute; reflexivity)
                       ltac:(vm_compute; reflexivity)))
      as (p' & d' & Hrun & Hw & Hl & _).
    exists p', d'. split; [exact Hrun |]. split.
    + destruct (Hw 1 100 eq_refl) as [a [Ha Hu]].
      rewrite Hu. vm_compute in Ha. injection Ha as <-. reflexivity.
    + rewrite (Hl 2 eq_refl). reflexivity.
Defined.

(** ** Wagers *)

Lemma modal_callback_run (uid points : Z) (option : string)
    (v : PredictionView.t) (d : Db.t) :
  PredictionView.modal_callback uid points option (v, d)
  = match PredictionView.update_embed (merged uid points option v) with
    | (Ok _, v') => (Ok tt, (v', escrowed uid points option v d))
    | (Raise e, v') => (Raise e, (v', d))
    end.
Proof.
  unfold PredictionView.modal_callback, merged, escrowed, bind, get.
  cbn [fst snd].
  destruct (bool_decide (option = PredictionView.option_a v));
    unfold PredictionView.in_view, PredictionView.in_db, modify; cbn [fst snd];
    (match goal with
     | |- context [PredictionView.update_embed ?x] =>
         destruct (PredictionView.update_embed x) as [[[] | e] v']
     end; [| reflexivity]);
    destruct (PredictionView.truthy_id (PredictionView.prediction_id v));
    reflexivity.
Qed.

(** What an accepted wager is: the button was enabled, the click was not a
    change of sides, the text is a positive number within the balance read
    at the click, and [modal_callback] returned. *)
Lemma wager_accepted (label : string) (uid : Z) (value : string)
    (v v' : PredictionView.t) (d d' : Db.t) :
  PredictionView.wager label uid value (v, d) = (Ok (Answered Deferred), (v', d')) ->
  PredictionView.disabled v = false
  /\ same_side v label uid
  /\ 0 < int value <= Db.select_points d uid
  /\ PredictionView.update_embed (merged uid (int value) label v) = (Ok tt, v')
  /\ d' = escrowed uid (int value) label v d.
Proof.
  unfold PredictionView.wager, PredictionView.click, bind, get, ret.
  cbn [fst snd].
  destruct (PredictionView.disabled v) eqn:Hdis; [discriminate |].
  unfold PredictionView.button_callback, bind, get, ret. cbn [fst snd].
  destruct (_ || _) eqn:Hside; [discriminate |].
  unfold PredictionView.modal_submit. cbn [user_points modal_option].
  destruct (isdigit value); cbn [negb]; [| discriminate].
  destruct (Z.leb_spec (int value) 0) as [| Hpos]; [discriminate |].
  destruct (Z.ltb_spec (Db.select_points d uid) (int value)) as [| Hle];
    [discriminate |].
  unfold bind, ret. rewrite modal_callback_run.
  destruct (PredictionView.update_embed _) as [[[] | e] v1] eqn:Hup;
    [| discriminate].
  intros [= <- <-].
  apply orb_false_iff in Hside as [H1 H2].
  apply andb_false_iff in H1, H2.
  repeat split; try done; try lia.
  - intros ->. destruct H1 as [H1 | H1].
    + by apply bool_decide_eq_false in H1.
    + apply bool_decide_eq_false in H1. by apply eq_None_not_Some.
  - intros ->. destruct H2 as [H2 | H2].
    + by apply bool_decide_eq_false in H2.
    + apply bool_decide_eq_false in H2. by apply eq_None_not_Some.
Qed.

(** A wager that is answered anything else changes nothing. *)
Lemma wager_not_accepted (label : string) (uid : Z) (value : string)
    (s s' : PredictionView.t * Db.t) (r : wager_response) :
  PredictionView.wager label uid value s = (Ok r, s') ->
  r <> Answered Deferred -> s' = s.
Proof.
  destruct s as [v d].
  unfold PredictionView.wager, PredictionView.click, bind, get, ret.
  cbn [fst snd].
  destruct (PredictionView.disabled v); [by intros [= <- <-] |].
  unfold PredictionView.button_callback, bind, get, ret. cbn [fst snd].
  destruct (_ || _); [by intros [= <- <-] |].
  unfold PredictionView.modal_submit. cbn [user_points modal_option].
  destruct (negb (isdigit value)); [by intros [= <- <-] |].
  destruct (int value <=? 0); [by intros [= <- <-] |].
  destruct (Db.select_points d uid <? int value); [by intros [= <- <-] |].
  unfold bind, ret.
  destruct (PredictionView.modal_callback _ _ _ _) as [[[] | e] s1];
    [| discriminate].
  intros [= <- <-]. done.
Qed.

(** [update_embed] touches the odds only. *)
Lemma update_embed_keeps (v v' : PredictionView.t) :
  PredictionView.update_embed v = (Ok tt, v') ->
  PredictionView.option_a v' = PredictionView.option_a v
  /\ PredictionView.option_b v' = PredictionView.option_b v
  /\ PredictionView.option_a_points v' = PredictionView.option_a_points v
  /\ PredictionView.option_b_points v' = PredictionView.option_b_points v
  /\ PredictionView.locked v' = PredictionView.locked v
  /\ PredictionView.disabled v' = PredictionView.disabled v
  /\ PredictionView.prediction_id v' = PredictionView.prediction_id v.
Proof.
  intros Hup. destruct (update_embed_inv v v' Hup) as [oa [ob [_ [_ ->]]]].
  done.
Qed.

Lemma stake_merge (d : gmap Z Z) (uid points u : Z) :
  stake (<[uid := stake d uid + points]> (delete uid d)) u
  = stake d u + (if bool_decide (u = uid) then points else 0).
Proof.
  unfold stake. rewrite insert_delete_eq.
  case_bool_decide as Hu.
  - subst u. by rewrite lookup_insert_eq.
  - rewrite lookup_insert_ne by done. lia.
Qed.

Lemma merged_a_points (uid points : Z) (option : string) (v : PredictionView.t) :
  PredictionView.option_a_points (merged uid points option v)
  = if bool_decide (option = PredictionView.option_a v)
    then <[uid := stake (PredictionView.option_a_points v) uid + points]>
           (delete uid (PredictionView.option_a_points v))
    else PredictionView.option_a_points v.
Proof. unfold merged. by case_bool_decide. Qed.

Lemma merged_b_points (uid points : Z) (option : string) (v : PredictionView.t) :
  PredictionView.option_b_points (merged uid points option v)
  = if bool_decide (option = PredictionView.option_a v)
    then PredictionView.option_b_points v
    else <[uid := stake (PredictionView.option_b_points v) uid + points]>
           (delete uid (PredictionView.option_b_points v)).
Proof. unfold merged. by case_bool_decide. Qed.

(** The stakes after a wager: the points are added to the user's entry in
    the dictionary of the option, and nothing else moves. *)
Lemma merged_stakes (uid points : Z) (option : string) (v : PredictionView.t)
    (u : Z) :
  stake (PredictionView.option_a_points (merged uid points option v)) u
  + stake (PredictionView.option_b_points (merged uid points option v)) u
  = stake (PredictionView.option_a_points v) u
    + stake (PredictionView.option_b_points v) u
    + (if bool_decide (u = uid) then points else 0).
Proof.
  unfold merged. case_bool_decide; cbn; rewrite stake_merge; lia.
Qed.

Lemma escrowed_users (uid points : Z) (option : string) (v : PredictionView.t)
    (d : Db.t) :
  Db.users (escrowed uid points option v d) = Db.sub_points points uid (Db.users d).
Proof.
  unfold escrowed. by destruct (PredictionView.truthy_id _).
Qed.

Lemma escrowed_bets (uid points pid : Z) (option : string)
    (v : PredictionView.t) (d : Db.t) :
  PredictionView.truthy_id (PredictionView.prediction_id v) = Some pid ->
  Db.bets_of (escrowed uid points option v d) pid !! uid
  = Some match Db.bets_of d pid !! uid with
         | Some r => {| bet_option := bet_option r;
                        bet_points := bet_points r + points |}
         | None => {| bet_option := option; bet_points := points |}
         end.
Proof.
  intros Hid. unfold escrowed. rewrite Hid.
  unfold Db.place_bet_db, Db.bets_of. cbn.
  rewrite lookup_insert_eq. cbn. by rewrite lookup_insert_eq.
Qed.

(** C1. Two accepted wagers in a row, of [p1] then [p2] points, by a user
    on the same option of a persisted prediction, the user holding nothing
    before: the view holds one entry for the user, [p1 + p2] on that
    option and none on the other; [prediction_bets] holds one row for the
    user and the prediction, with the option and [p1 + p2] points; and the
    user's balance went down by [p1 + p2]. *)
Theorem repeated_wagers_accumulate
    (v : PredictionView.t) (d : Db.t) (uid pid : Z) (label t1 t2 : string)
    (s1 s2 : PredictionView.t * Db.t) :
  PredictionView.truthy_id (PredictionView.prediction_id v) = Some pid ->
  PredictionView.option_a_points v !! uid = None ->
  PredictionView.option_b_points v !! uid = None ->
  Db.bets_of d pid !! uid = None ->
  PredictionView.wager label uid t1 (v, d) = (Ok (Answered Deferred), s1) ->
  PredictionView.wager label uid t2 s1 = (Ok (Answered Deferred), s2) ->
  let p1 := int t1 in
  let p2 := int t2 in
  let on_a := bool_decide (label = PredictionView.option_a v) in
  0 < p1 /\ 0 < p2
  /\ PredictionView.option_a_points s2.1 !! uid
     = (if on_a then Some (p1 + p2) else None)
  /\ PredictionView.option_b_points s2.1 !! uid
     = (if on_a then None else Some (p1 + p2))
  /\ Db.bets_of s2.2 pid !! uid
     = Some {| bet_option := label; bet_points := p1 + p2 |}
  /\ exists bal, Db.users d !! uid = Some bal
       /\ p1 + p2 <= bal
       /\ Db.users s2.2 !! uid = Some (bal - (p1 + p2)).
Proof.
  intros Hid Ha Hb Hrow H1 H2 p1 p2 on_a.
  destruct s1 as [v1 d1], s2 as [v2 d2].
  apply wager_accepted in H1 as (_ & _ & Hp1 & Hup1 & ->).
  apply wager_accepted in H2 as (_ & _ & Hp2 & Hup2 & ->).
  fold p1 in Hp1, Hup1. fold p2 in Hp2, Hup2. fold p1 p2.
  destruct (update_embed_keeps _ _ Hup1) as (Ea1 & Eb1 & Eap1 & Ebp1 & _ & _ & Eid1).
  destruct (update_embed_keeps _ _ Hup2) as (_ & _ & Eap2 & Ebp2 & _ & _ & _).
  assert (Eoa : PredictionView.option_a (merged uid p1 label v)
                = PredictionView.option_a v).
  { unfold merged. by case_bool_decide. }
  assert (Eid : PredictionView.prediction_id (merged uid p1 label v)
                = PredictionView.prediction_id v).
  { unfold merged. by case_bool_decide. }
  cbn [fst snd]. rewrite Eap2, Ebp2.
  (* the balance *)
  assert (Hbal : exists bal, Db.users d !! uid = Some bal /\ p1 + p2 <= bal
                   /\ Db.users (escrowed uid p2 label v1
                                  (escrowed uid p1 label v d)) !! uid
                      = Some (bal - (p1 + p2))).
  { unfold Db.select_points in Hp1, Hp2.
    rewrite escrowed_users in Hp2. unfold Db.sub_points in Hp2.
    rewrite lookup_alter_eq in Hp2.
    destruct (Db.users d !! uid) as [bal |] eqn:Hbal; cbn in Hp1, Hp2; [| lia].
    exists bal. split; [done |]. split; [lia |].
    rewrite !escrowed_users. unfold Db.sub_points.
    rewrite !lookup_alter_eq, Hbal. cbn. f_equal. lia. }
  (* the persisted row *)
  assert (Hbet : Db.bets_of (escrowed uid p2 label v1
                               (escrowed uid p1 label v d)) pid !! uid
                 = Some {| bet_option := label; bet_points := p1 + p2 |}).
  { rewrite (escrowed_bets uid p2 pid label v1); [| by rewrite Eid1, Eid].
    rewrite (escrowed_bets uid p1 pid label v d Hid), Hrow. done. }
  split; [lia |]. split; [lia |].
  split; [| split; [| split; [exact Hbet | exact Hbal]]].
  - (* the dictionary of option A *)
    rewrite merged_a_points, Ea1, Eoa. fold on_a.
    rewrite Eap1, merged_a_points. fold on_a.
    destruct on_a; [| exact Ha].
    rewrite lookup_insert_eq. unfold stake.
    rewrite lookup_insert_eq, Ha. cbn. f_equal; lia.
  - (* the dictionary of option B *)
    rewrite merged_b_points, Ea1, Eoa. fold on_a.
    rewrite Ebp1, merged_b_points. fold on_a.
    destruct on_a; [exact Hb |].
    rewrite lookup_insert_eq. unfold stake.
    rewrite lookup_insert_eq, Hb. cbn. f_equal; lia.
Qed.

(** 30 and then 12 points on A by user 1, who owns 1000 points. *)
Lemma repeated_wagers_accumulate_witness :
  PredictionView.option_a_points after_30_12.1 !! 1 = Some 42
  /\ PredictionView.option_b_points after_30_12.1 !! 1 = None
  /\ Db.bets_of after_30_12.2 1 !! 1
     = Some {| bet_option := "A"; bet_points := 42 |}
  /\ Db.users after_30_12.2 !! 1 = Some 958.
Proof.
  destruct (repeated_wagers_accumulate view_empty db_rich_u1 1 1 "A" "30" "12"
              after_30 after_30_12)
    as (_ & _ & Ha & Hb & Hrow & bal & Hbal & _ & Hus).
  - reflexivity.
  - reflexivity.
  - reflexivity.
  - reflexivity.
  - vm_compute. reflexivity.
  - vm_compute. reflexivity.
  - vm_compute in Hbal. injection Hbal as <-.
    repeat split; assumption.
Defined.

(** ** Escrow and refund *)

Lemma create_prediction_ok (plat : Platform) (title a b : string) (thread : Z) :
  exists p0,
    Prediction.create_prediction plat title a b thread = Ok p0
    /\ PredictionView.option_a_points (Prediction.view p0) = ∅
    /\ PredictionView.option_b_points (Prediction.view p0) = ∅
    /\ PredictionView.locked (Prediction.view p0) = false
    /\ odds_current (Prediction.view p0).
Proof. eexists. split; [reflexivity |]. done. Qed.

Lemma escrow_inv_wager (d0 : Db.t) (p : Prediction.t) (d : Db.t)
    (label : string) (uid : Z) (value : string)
    (v' : PredictionView.t) (d' : Db.t) (r : wager_response) :
  escrow_inv d0 (p, d) ->
  PredictionView.wager label uid value (Prediction.view p, d) = (Ok r, (v', d')) ->
  escrow_inv d0 (Prediction.set_view v' p, d').
Proof.
  intros Hinv Hw u. cbn [fst snd Prediction.view Prediction.set_view].
  assert (Hcases : r = Answered Deferred \/ r <> Answered Deferred).
  { destruct r as [| | []]; (by left) || (by right). }
  destruct Hcases as [-> | Hr].
  - apply wager_accepted in Hw as (_ & _ & _ & Hup & ->).
    destruct (update_embed_keeps _ _ Hup) as (_ & _ & -> & -> & _).
    rewrite merged_stakes, escrowed_users. unfold Db.sub_points.
    specialize (Hinv u). cbn [fst snd] in Hinv.
    case_bool_decide as Hu.
    + subst u. rewrite lookup_alter_eq, Hinv.
      row_arith (Db.users d0 !! uid).
    + rewrite lookup_alter_ne by done. rewrite Hinv.
      row_arith (Db.users d0 !! u).
  - apply wager_not_accepted in Hw; [| done].
    injection Hw as -> ->. apply Hinv.
Qed.

Lemma escrow_inv_event (d0 : Db.t) (e : event) (s s' : Prediction.t * Db.t) :
  escrow_inv d0 s -> run_event e s = (Ok tt, s') -> escrow_inv d0 s'.
Proof.
  destruct s as [p d]. intros Hinv. destruct e as [label uid value |]; cbn.
  - unfold bind, Prediction.in_view, ret. cbn [fst snd].
    destruct (PredictionView.wager label uid value (Prediction.view p, d))
      as [[r | e] [v' d']] eqn:Hw; [| discriminate].
    intros [= <-]. by eapply escrow_inv_wager.
  - unfold Prediction.lock_prediction, bind, get, ret. cbn [fst snd].
    destruct (PredictionView.locked (Prediction.view p)).
    + by intros [= <-].
    + intros [= <-]. exact Hinv.
Qed.

Lemma escrow_inv_events (d0 : Db.t) (events : list event)
    (s s' : Prediction.t * Db.t) :
  escrow_inv d0 s -> for_each events run_event s = (Ok tt, s') ->
  escrow_inv d0 s'.
Proof.
  revert s. induction events as [| e events IH]; intros s Hinv; cbn.
  - by intros [= <-].
  - unfold bind.
    destruct (run_event e s) as [[[] | x] s1] eqn:He; [| discriminate].
    intros Hrest. apply (IH s1); [| done]. by eapply escrow_inv_event.
Qed.

(** C6. From a prediction without bets (as [create_prediction] makes it),
    any wagers are placed and the prediction is possibly locked; then it is
    refunded. The refund credits every user exactly the stake they hold in
    the view, and the balances are again what they were before the bets:
    every bettor is back at their balance from before their bets. *)
Theorem refund_restores_balances
    (p0 : Prediction.t) (d0 : Db.t) (events : list event)
    (s : Prediction.t * Db.t) :
  PredictionView.option_a_points (Prediction.view p0) = ∅ ->
  PredictionView.option_b_points (Prediction.view p0) = ∅ ->
  for_each events run_event (p0, d0) = (Ok tt, s) ->
  exists s',
    Prediction.refund_prediction s = (Ok tt, s')
    /\ (forall u,
          Db.users s'.2 !! u
          = (fun bal => bal + (stake (PredictionView.option_a_points
                                        (Prediction.view s.1)) u
                               + stake (PredictionView.option_b_points
                                          (Prediction.view s.1)) u))
              <$> Db.users s.2 !! u)
    /\ Db.users s'.2 = Db.users d0
    /\ PredictionView.locked (Prediction.view s'.1) = true.
Proof.
  intros Ha0 Hb0 Hrun.
  assert (Hinv0 : escrow_inv d0 (p0, d0)).
  { intros u. cbn [fst snd]. rewrite Ha0, Hb0. unfold stake.
    rewrite lookup_empty. cbn.
    row_arith (Db.users d0 !! u). }
  pose proof (escrow_inv_events d0 events _ _ Hinv0 Hrun) as Hinv.
  destruct s as [p d]. eexists. split; [apply refund_prediction_run |].
  cbn [fst snd Db.users Db.set_users Prediction.view Prediction.set_view].
  split; [| split; [| reflexivity]].
  - intros u. apply refund_credits_stakes.
  - apply map_eq. intros u. rewrite refund_credits_stakes.
    specialize (Hinv u). cbn [fst snd] in Hinv. rewrite Hinv.
    row_arith (Db.users d0 !! u).
Qed.

(** Bets {u1: 100 on A, u2: 50 on B}: after them the balances are 400 and
    30, after the refund 500 and 80 again. *)
Lemma refund_restores_balances_witness :
  Db.users after_bets.2 = {[ 1 := 400; 2 := 30 ]}
  /\ exists s',
       Prediction.refund_prediction after_bets = (Ok tt, s')
       /\ Db.users s'.2 = {[ 1 := 500; 2 := 80 ]}.
Proof.
  split; [vm_compute; reflexivity |].
  destruct (refund_restores_balances
              fresh_prediction db_u1_u2_rich bets_u1_u2 after_bets)
    as (s' & Hrun & _ & Hus & _).
  - reflexivity.
  - reflexivity.
  - vm_compute. reflexivity.
  - exists s'. split; [exact Hrun | exact Hus].
Defined.

(** ** Wagers and the lock *)

(** Once the view is locked no click reaches a callback: a wager that
    starts after the lock changes nothing. *)
Lemma wager_ignored_when_locked (v : PredictionView.t) (d : Db.t)
    (label : string) (uid : Z) (value : string) :
  PredictionView.wager label uid value (PredictionView.set_locked v, d)
  = (Ok Ignored, (PredictionView.set_locked v, d)).
Proof. reflexivity. Qed.

(** C2, at its failing input. A modal that was opened while the
    prediction was open and is submitted after [lock_prediction] (or after
    [refund_prediction]) still goes to [modal_callback], which does not look
    at [locked]: the locked view gains the entry [1 -> 50] on option A and
    user 1 is debited 50 points. *)
Theorem late_modal_changes_locked_view :
  PredictionView.click "A" 1 (Prediction.view fresh_prediction, db_rich_u1)
  = (Ok (Some (SentModal modal_before_lock)),
     (Prediction.view fresh_prediction, db_rich_u1))
  /\ PredictionView.locked (Prediction.view locked_prediction.1) = true
  /\ PredictionView.option_a_points (Prediction.view locked_prediction.1) = ∅
  /\ Db.users locked_prediction.2 !! 1 = Some 1000
  /\ (late_submit locked_prediction).1 = Ok Deferred
  /\ PredictionView.locked
       (Prediction.view (late_submit locked_prediction).2.1) = true
  /\ PredictionView.option_a_points
       (Prediction.view (late_submit locked_prediction).2.1) = {[ 1 := 50 ]}
  /\ Db.users (late_submit locked_prediction).2.2 !! 1 = Some 950
  /\ PredictionView.locked (Prediction.view refunded_prediction.1) = true
  /\ Db.users refunded_prediction.2 !! 1 = Some 1000
  /\ (late_submit refunded_prediction).1 = Ok Deferred
  /\ PredictionView.option_a_points
       (Prediction.view (late_submit refunded_prediction).2.1) = {[ 1 := 50 ]}
  /\ Db.users (late_submit refunded_prediction).2.2 !! 1 = Some 950.
Proof. vm_compute. repeat split; reflexivity. Qed.

(** ** The accrual buffer *)

Lemma upsert_many_lookup_list (l : list (Z * Z)) (us : gmap Z Z) (u : Z) :
  NoDup l.*1 ->
  Db.upsert_many l us !! u
  = match (list_to_map l : gmap Z Z) !! u with
    | Some p => Some (default 0 (us !! u) + p)
    | None => us !! u
    end.
Proof.
  unfold Db.upsert_many. revert us.
  induction l as [| [k p] l IH]; intros us Hnd; cbn [foldl].
  - by rewrite list_to_map_nil, lookup_empty.
  - rewrite fmap_cons in Hnd. cbn [fst] in Hnd.
    apply NoDup_cons in Hnd as [Hk Hnd]. rewrite (IH _ Hnd).
    rewrite list_to_map_cons. cbn [fst snd].
    destruct (decide (u = k)) as [-> | Hne].
    + rewrite lookup_insert_eq.
      rewrite (not_elem_of_list_to_map_1 l k Hk).
      unfold Db.upsert_points.
      destruct (us !! k) as [b |]; rewrite lookup_insert_eq; cbn; f_equal; lia.
    + rewrite lookup_insert_ne by done.
      assert (Hus : Db.upsert_points k p us !! u = us !! u).
      { unfold Db.upsert_points.
        destruct (us !! k); by rewrite lookup_insert_ne. }
      by rewrite Hus.
Qed.

(** The UPSERT of a snapshot of the buffer: a row is created at the
    buffered amount for a user without one, the amount is added otherwise. *)
Lemma upsert_snapshot_lookup (buffer us : gmap Z Z) (u : Z) :
  Db.upsert_many (map_to_list buffer) us !! u
  = match buffer !! u with
    | Some p => Some (default 0 (us !! u) + p)
    | None => us !! u
    end.
Proof.
  rewrite upsert_many_lookup_list by apply NoDup_fst_map_to_list.
  by rewrite list_to_map_to_list.
Qed.

Lemma messages_run (msgs : list (Z * bool * Z)) (c : Points.t) (d : Db.t) :
  exists c', messages msgs (c, d) = (Ok tt, (c', d))
    /\ Points.predictions c' = Points.predictions c.
Proof.
  revert c. induction msgs as [| [[uid is_bot] drawn] msgs IH]; intros c.
  - by exists c.
  - unfold messages. cbn [for_each]. unfold bind.
    unfold Points.on_message at 1. cbn [fst snd].
    destruct is_bot.
    + cbn. apply IH.
    + unfold Points.in_self. cbn [fst snd].
      destruct (IH (Points.set_points_buffer (<[uid := drawn]>) c))
        as [c' [Hrun Hp]].
      exists c'. split; [exact Hrun | by rewrite Hp].
Qed.

(** C7 does not hold as stated: the entry recorded while the flush was in
    flight is in the buffer before the flush completes and gone after it,
    without having been credited; the next flush finds nothing to credit. *)
Lemma record_during_flush_is_dropped :
  Points.update_points_begin cog_one_buffered
  = (Ok (Some [(1, 10)]), cog_one_buffered)
  /\ Points.points_buffer cog_during_flush.1 !! 2 = Some 7
  /\ Points.points_buffer cog_after_flush.1 !! 2 = None
  /\ Db.users cog_after_flush.2 !! 1 = Some 10
  /\ Db.users cog_after_flush.2 !! 2 = None
  /\ Points.update_points cog_after_flush = (Ok tt, cog_after_flush).
Proof. vm_compute. repeat split; reflexivity. Qed.

(** C7, amended. The task read its snapshot [data] and awaits the
    database; whatever messages arrive meanwhile, the completed flush has
    upserted exactly the snapshot and left the buffer empty, so the entries
    recorded during the flush are cleared with the rest. An entry recorded
    after the flush has completed is in the buffer, and is the snapshot of
    the next flush. *)
Theorem flush_clears_whole_buffer
    (c : Points.t) (d : Db.t) (data : list (Z * Z))
    (msgs : list (Z * bool * Z)) :
  Points.update_points_begin (c, d) = (Ok (Some data), (c, d)) ->
  exists c' d',
    (messages msgs ;; Points.update_points_end data)%py (c, d)
    = (Ok tt, (c', d'))
    /\ Points.points_buffer c' = ∅
    /\ (forall u,
          Db.users d' !! u
          = match Points.points_buffer c !! u with
            | Some p => Some (Db.select_points d u + p)
            | None => Db.users d !! u
            end)
    /\ (forall uid drawn,
          Points.points_buffer
            (Points.on_message uid false drawn (c', d')).2.1 = {[ uid := drawn ]}
          /\ (Points.update_points_begin
                (Points.on_message uid false drawn (c', d')).2).1
             = Ok (Some [(uid, drawn)])).
Proof.
  unfold Points.update_points_begin, bind, get, ret. cbn [fst snd].
  destruct (nonempty (Points.points_buffer c)) eqn:Hne; [| discriminate].
  intros [= <-].
  destruct (messages_run msgs c d) as [c1 [Hmsgs _]].
  exists (Points.set_points_buffer (fun _ => ∅) c1).
  exists (Db.set_users (Db.upsert_many (map_to_list (Points.points_buffer c))) d).
  split; [| split; [reflexivity | split]].
  - unfold bind. rewrite Hmsgs. reflexivity.
  - intros u. cbn [Db.users Db.set_users]. apply upsert_snapshot_lookup.
  - intros uid drawn. cbn. rewrite insert_empty. split; [reflexivity |].
    unfold nonempty.
    rewrite bool_decide_eq_false_2 by apply insert_non_empty.
    cbn. by rewrite map_to_list_singleton.
Qed.

(** The flush of [cog_one_buffered], with the message of user 2 in flight
    and a message of user 3 afterwards. *)
Lemma flush_clears_whole_buffer_witness :
  exists c' d',
    (messages [(2, false, 7)] ;; Points.update_points_end [(1, 10)])%py
      cog_one_buffered = (Ok tt, (c', d'))
    /\ Points.points_buffer c' = ∅
    /\ Db.users d' !! 1 = Some 10
    /\ Db.users d' !! 2 = None
    /\ Points.points_buffer (Points.on_message 3 false 9 (c', d')).2.1
       = {[ 3 := 9 ]}.
Proof.
  destruct (flush_clears_whole_buffer cog_one_buffered.1 cog_one_buffered.2
              [(1, 10)] [(2, false, 7)])
    as (c' & d' & Hrun & Hbuf & Hus & Hnext).
  - vm_compute. reflexivity.
  - exists c', d'. split; [exact Hrun |]. split; [exact Hbuf |].
    split; [exact (Hus 1) |]. split; [exact (Hus 2) |].
    exact (proj1 (Hnext 3 9)).
Defined.

(** ** Recovery at startup *)

Lemma credited_map_to_list {A} (f : A -> Z) (m : gmap Z A) (uid : Z) :
  credited ((fun kv => (f kv.2, kv.1)) <$> map_to_list m) uid
  = from_option f 0 (m !! uid).
Proof.
  induction m as [| u x m Hnone IH] using map_ind.
  - by rewrite map_to_list_empty, lookup_empty.
  - assert (Hperm : (fun kv : Z * A => (f kv.2, kv.1)) <$> map_to_list (<[u := x]> m)
                    ≡ₚ (fun kv : Z * A => (f kv.2, kv.1)) <$> ((u, x) :: map_to_list m)).
    { by rewrite (map_to_list_insert m u x Hnone). }
    rewrite (credited_perm _ _ uid Hperm), fmap_cons, credited_cons.
    cbn [fst snd].
    case_bool_decide as Hu.
    + subst u. rewrite lookup_insert_eq, IH, Hnone. simpl. lia.
    + rewrite lookup_insert_ne by done. exact IH.
Qed.

Lemma refund_prediction_bets_run (prediction_id : Z) (c : Points.t) (d : Db.t) :
  exists d',
    Points.refund_prediction_bets prediction_id (c, d) = (Ok tt, (c, d'))
    /\ Db.predictions d' = Db.predictions d
    /\ Db.prediction_bets d' = Db.prediction_bets d
    /\ forall u,
         Db.users d' !! u
         = (fun bal => bal + escrowed_stake d prediction_id u) <$> Db.users d !! u.
Proof.
  assert (Hcred : forall u,
            Db.credit_many ((fun b : Z * string * Z => (b.2, b.1.1))
                              <$> Db.get_bets_for_prediction d prediction_id)
              (Db.users d) !! u
            = (fun bal => bal + escrowed_stake d prediction_id u)
                <$> Db.users d !! u).
  { intros u.
    assert (Hc : credited ((fun b : Z * string * Z => (b.2, b.1.1))
                             <$> Db.get_bets_for_prediction d prediction_id) u
                 = escrowed_stake d prediction_id u).
    { unfold Db.get_bets_for_prediction. rewrite <- list_fmap_compose.
      exact (credited_map_to_list bet_points (Db.bets_of d prediction_id) u). }
    by rewrite credit_many_lookup, Hc. }
  unfold Points.refund_prediction_bets, bind, get. cbn [fst snd].
  destruct (Db.get_bets_for_prediction d prediction_id) as [| b bets] eqn:Hbets.
  - exists d. split; [reflexivity |]. split; [done |]. split; [done |].
    intros u. rewrite <- (Hcred u). reflexivity.
  - eexists. split; [reflexivity |]. split; [done |]. split; [done |].
    exact Hcred.
Qed.

Lemma status_after_update (prediction_id j : Z) (st : status) (d : Db.t) :
  row_status <$> Db.predictions (Db.update_prediction_status prediction_id st None d) !! j
  = if decide (j = prediction_id)
    then (fun _ => st) <$> Db.predictions d !! j
    else row_status <$> Db.predictions d !! j.
Proof.
  unfold Db.update_prediction_status. cbn.
  destruct (decide (j = prediction_id)) as [-> | Hne].
  - rewrite lookup_alter_eq. by destruct (Db.predictions d !! prediction_id).
  - by rewrite lookup_alter_ne.
Qed.

(** The loop body on a prediction whose thread is unreachable: its bets
    are credited back, it is marked refunded, nothing is registered. *)
Lemma restore_row_unreachable (plat : Platform) (id : Z) (row : prediction_row)
    (c : Points.t) (d : Db.t) :
  unreachable plat row = true ->
  exists d',
    Points.restore_row plat (id, row) (c, d) = (Ok tt, (c, d'))
    /\ Db.prediction_bets d' = Db.prediction_bets d
    /\ (forall u,
          Db.users d' !! u
          = (fun bal => bal + escrowed_stake d id u) <$> Db.users d !! u)
    /\ (forall j,
          row_status <$> Db.predictions d' !! j
          = if decide (j = id)
            then (fun _ => Refunded) <$> Db.predictions d !! j
            else row_status <$> Db.predictions d !! j).
Proof.
  intros Hun.
  destruct (refund_prediction_bets_run id c d) as (d1 & Hrun & Hp & Hb & Hu).
  exists (Db.update_prediction_status id Refunded None d1).
  split; [| split; [by rewrite <- Hb | split]].
  - unfold Points.restore_row, unreachable in *. cbn [fst snd].
    destruct (fetch_channel plat (row_thread_id row)) as [thread | []];
      try discriminate;
      unfold bind; rewrite Hrun; reflexivity.
  - intros u. rewrite <- Hu. done.
  - intros j. rewrite status_after_update, Hp. done.
Qed.

Lemma restore_view_db_id (plat : Platform) (id : Z) (title a b : string)
    (thread message_id : Z) (pa pb : gmap Z Z) (lk : bool) (p : Prediction.t) :
  Prediction.restore_view plat id title a b thread message_id pa pb lk = Ok p ->
  Prediction.db_id p = Some id.
Proof.
  unfold Prediction.restore_view, result_bind.
  destruct (match fetch_message plat thread message_id with
            | Ok m => Ok (Some m)
            | Raise NotFound => Ok None
            | Raise e => Raise e
            end) as [fetched | e]; [| discriminate].
  destruct (PredictionView.update_embed _) as [[[] | e] v]; [| discriminate].
  by intros [= <-].
Qed.

(** The loop body on a prediction whose thread is reachable: the database
    is left as it is, and the prediction is registered under its creator. *)
Lemma restore_row_reachable (plat : Platform) (id : Z) (row : prediction_row)
    (c : Points.t) (d : Db.t) (s' : Points.t * Db.t) :
  unreachable plat row = false ->
  Points.restore_row plat (id, row) (c, d) = (Ok tt, s') ->
  exists p,
    s' = (Points.set_predictions (<[row_creator_id row := p]>) c, d)
    /\ Prediction.db_id p = Some id.
Proof.
  unfold Points.restore_row, unreachable. cbn [fst snd].
  destruct (fetch_channel plat (row_thread_id row)) as [thread | []];
    try discriminate; intros _.
  unfold bind, get, lift. cbn [fst snd].
  destruct (Prediction.restore_view _ _ _ _ _ _ _ _ _ _) as [p | e] eqn:Hp;
    [| discriminate].
  intros [= <-]. exists p. split; [done |]. by eapply restore_view_db_id.
Qed.

Lemma refund_due_bets (plat : Platform) (d d' : Db.t)
    (rows : list (Z * prediction_row)) (u : Z) :
  Db.prediction_bets d' = Db.prediction_bets d ->
  refund_due plat d' rows u = refund_due plat d rows u.
Proof.
  intros Hb. unfold refund_due, escrowed_stake, Db.bets_of. by rewrite Hb.
Qed.

Lemma is_refunded_step (d d' : Db.t) (id : Z) :
  (forall j,
     row_status <$> Db.predictions d' !! j
     = if decide (j = id)
       then (fun _ => Refunded) <$> Db.predictions d !! j
       else row_status <$> Db.predictions d !! j) ->
  (forall j, is_refunded d j -> is_refunded d' j)
  /\ (forall j, is_Some (Db.predictions d !! j) -> is_Some (Db.predictions d' !! j))
  /\ (is_Some (Db.predictions d !! id) -> is_refunded d' id).
Proof.
  intros Hst. split; [| split].
  - intros j Hj. unfold is_refunded in *. rewrite Hst.
    destruct (decide (j = id)); [| done].
    by destruct (Db.predictions d !! j).
  - intros j [r Hr]. specialize (Hst j). rewrite Hr in Hst.
    destruct (Db.predictions d' !! j); [done |].
    by destruct (decide (j = id)).
  - intros [r Hr]. unfold is_refunded. rewrite Hst.
    destruct (decide (id = id)); [| done]. by rewrite Hr.
Qed.

(** The loop of [restore_predictions] over the rows it read. *)
Lemma restore_rows_spec (plat : Platform) (rows : list (Z * prediction_row))
    (c : Points.t) (d : Db.t) (s' : Points.t * Db.t) :
  for_each rows (Points.restore_row plat) (c, d) = (Ok tt, s') ->
  Db.prediction_bets s'.2 = Db.prediction_bets d
  /\ (forall u,
        Db.users s'.2 !! u
        = (fun bal => bal + refund_due plat d rows u) <$> Db.users d !! u)
  /\ (forall j, is_refunded d j -> is_refunded s'.2 j)
  /\ (forall j, is_Some (Db.predictions d !! j) ->
        is_Some (Db.predictions s'.2 !! j))
  /\ (forall id row, (id, row) ∈ rows -> unreachable plat row = true ->
        is_Some (Db.predictions d !! id) -> is_refunded s'.2 id)
  /\ (forall creator p, Points.predictions s'.1 !! creator = Some p ->
        Points.predictions c !! creator = Some p
        \/ exists id row, (id, row) ∈ rows /\ unreachable plat row = false
             /\ Prediction.db_id p = Some id).
Proof.
  revert c d. induction rows as [| [id row] rows IH]; intros c d; cbn [for_each].
  - intros [= <-]. cbn [fst snd]. repeat split; try done.
    + intros u. cbn. row_arith (Db.users d !! u).
    + intros id row Hin. by apply elem_of_nil in Hin.
    + intros creator p Hp. by left.
  - unfold bind.
    destruct (Points.restore_row plat (id, row) (c, d)) as [[[] | e] s1] eqn:Hrow;
      [| discriminate].
    intros Hrest. destruct (unreachable plat row) eqn:Hun.
    + destruct (restore_row_unreachable plat id row c d Hun)
        as (d1 & Hrow' & Hb1 & Hu1 & Hst1).
      rewrite Hrow' in Hrow. injection Hrow as <-.
      destruct (is_refunded_step d d1 id Hst1) as (Hkeep & Hdom & Hnow).
      destruct (IH c d1 Hrest) as (Hb & Hu & Hr & Hs & Hunr & Hreg).
      split; [by rewrite Hb |]. split; [| split; [| split; [| split]]].
      * intros u. rewrite Hu, Hu1, (refund_due_bets plat d d1 rows u Hb1).
        cbn [refund_due foldr fst snd]. rewrite Hun.
        fold (refund_due plat d rows u).
        row_arith (Db.users d !! u).
      * intros j Hj. apply Hr, Hkeep, Hj.
      * intros j Hj. apply Hs, Hdom, Hj.
      * intros id' row' Hin Hun' Hsome.
        apply elem_of_cons in Hin as [[= -> ->] | Hin].
        -- apply Hr, Hnow, Hsome.
        -- apply (Hunr id' row' Hin Hun'), Hdom, Hsome.
      * intros creator p Hp. destruct (Hreg creator p Hp) as [Hc | Hnew].
        -- by left.
        -- right. destruct Hnew as (id' & row' & Hin & Hre & Hid).
           exists id', row'. split; [by right | done].
    + destruct (restore_row_reachable plat id row c d s1 Hun Hrow)
        as (p1 & -> & Hid1).
      destruct (IH _ d Hrest) as (Hb & Hu & Hr & Hs & Hunr & Hreg).
      split; [done |]. split; [| split; [done | split; [done | split]]].
      * intros u. rewrite Hu. cbn [refund_due foldr fst snd]. rewrite Hun.
        fold (refund_due plat d rows u).
        row_arith (Db.users d !! u).
      * intros id' row' Hin Hun' Hsome.
        apply elem_of_cons in Hin as [[= -> ->] | Hin]; [congruence |].
        by apply (Hunr id' row').
      * intros creator p Hp. destruct (Hreg creator p Hp) as [Hc | Hnew].
        -- cbn in Hc. destruct (decide (row_creator_id row = creator)) as [<- | Hne].
           ++ rewrite lookup_insert_eq in Hc. injection Hc as <-.
              right. exists id, row. split; [by left | done].
           ++ rewrite lookup_insert_ne in Hc by done. by left.
        -- right. destruct Hnew as (id' & row' & Hin & Hre & Hid).
           exists id', row'. split; [by right | done].
Qed.

Lemma get_bets_for_prediction_bets (d d' : Db.t) (id : Z) :
  Db.prediction_bets d' = Db.prediction_bets d ->
  Db.get_bets_for_prediction d' id = Db.get_bets_for_prediction d id.
Proof.
  intros Hb. unfold Db.get_bets_for_prediction, Db.bets_of. by rewrite Hb.
Qed.

(** The recovery completes when it can deal with every row it reads. *)
Lemma restore_rows_return (plat : Platform) (d0 : Db.t)
    (rows : list (Z * prediction_row)) (c : Points.t) (d : Db.t) :
  Db.prediction_bets d = Db.prediction_bets d0 ->
  Forall (row_restores plat d0) rows ->
  exists s', for_each rows (Points.restore_row plat) (c, d) = (Ok tt, s').
Proof.
  revert c d. induction rows as [| [id row] rows IH]; intros c d Hb Hall.
  - by eexists.
  - apply Forall_cons in Hall as [Hrow Hall]. cbn [for_each]. unfold bind.
    destruct Hrow as [Hun | (thread & p & Hfetch & Hview)]; cbn [fst snd] in *.
    + destruct (restore_row_unreachable plat id row c d Hun)
        as (d1 & Hrun & Hb1 & _).
      rewrite Hrun. apply IH; [congruence | done].
    + assert (Hrun : Points.restore_row plat (id, row) (c, d)
                     = (Ok tt, (Points.set_predictions
                                  (<[row_creator_id row := p]>) c, d))).
      { unfold Points.restore_row. cbn [fst snd]. rewrite Hfetch.
        unfold bind, get, lift. cbn [fst snd].
        rewrite (get_bets_for_prediction_bets d0 d id Hb), Hview. reflexivity. }
      rewrite Hrun. by apply IH.
Qed.

Lemma restore_predictions_returns (plat : Platform) (c : Points.t) (d : Db.t) :
  Forall (row_restores plat d) (Db.get_restorable_predictions d) ->
  exists s', Points.restore_predictions plat (c, d) = (Ok tt, s').
Proof.
  intros Hall. unfold Points.restore_predictions, bind, get. cbn [fst snd].
  by apply (restore_rows_return plat d).
Qed.

Lemma elem_of_get_restorable (d : Db.t) (id : Z) (row : prediction_row) :
  (id, row) ∈ Db.get_restorable_predictions d
  <-> Db.predictions d !! id = Some row /\ Db.restorable row = true.
Proof.
  unfold Db.get_restorable_predictions.
  rewrite list_elem_of_filter, elem_of_map_to_list. cbn. tauto.
Qed.

(** C9. Recovery at startup. It completes when it can deal with every
    row it reads (no error of the platform other than an unreachable
    thread). When it completes, every persisted prediction that is active
    or locked and whose thread is unreachable (deleted, or access revoked)
    is among the rows of the recovery and ends with the status [Refunded];
    no prediction of the registry is that prediction; and every user's row
    holds what it held plus the user's stakes in the unreachable
    predictions, this one included, as [prediction_bets] records them. *)
Theorem unreachable_predictions_are_refunded
    (plat : Platform) (d0 : Db.t) (id : Z) (row : prediction_row) :
  Db.predictions d0 !! id = Some row ->
  row_status row = Active \/ row_status row = Locked ->
  unreachable plat row = true ->
  (id, row) ∈ Db.get_restorable_predictions d0
  /\ (Forall (row_restores plat d0) (Db.get_restorable_predictions d0) ->
      exists s', Points.restore_predictions plat (Points.init, d0) = (Ok tt, s'))
  /\ forall s',
       Points.restore_predictions plat (Points.init, d0) = (Ok tt, s') ->
       (forall u,
          Db.users s'.2 !! u
          = (fun bal => bal + refund_due plat d0
                              (Db.get_restorable_predictions d0) u)
              <$> Db.users d0 !! u)
       /\ is_refunded s'.2 id
       /\ (forall creator p, Points.predictions s'.1 !! creator = Some p ->
             Prediction.db_id p <> Some id).
Proof.
  intros Hrow Hst Hun.
  assert (Hres : Db.restorable row = true).
  { unfold Db.restorable. destruct Hst as [-> | ->]; done. }
  assert (Hin : (id, row) ∈ Db.get_restorable_predictions d0).
  { by apply elem_of_get_restorable. }
  split; [exact Hin |]. split; [apply restore_predictions_returns |].
  intros s' Hrun.
  unfold Points.restore_predictions, bind, get in Hrun. cbn [fst snd] in Hrun.
  destruct (restore_rows_spec plat _ _ _ _ Hrun)
    as (_ & Hu & _ & _ & Hunr & Hreg).
  split; [exact Hu |]. split.
  - apply (Hunr id row Hin Hun). by rewrite Hrow.
  - intros creator p Hp Hid.
    destruct (Hreg creator p Hp) as [Hc | (id' & row' & Hin' & Hre & Hid')].
    + cbn in Hc. by rewrite lookup_empty in Hc.
    + rewrite Hid in Hid'. injection Hid' as <-.
      apply elem_of_get_restorable in Hin' as [Hrow' _].
      rewrite Hrow in Hrow'. injection Hrow' as <-. congruence.
Qed.

Lemma unreachable_predictions_are_refunded_witness :
  Points.restore_predictions plat_77_deleted (Points.init, db_two_predictions)
  = (Ok tt, recovered)
  /\ Db.users recovered.2 !! 1 = Some 100
  /\ Db.users recovered.2 !! 2 = Some 60
  /\ is_refunded recovered.2 5
  /\ (forall creator p, Points.predictions recovered.1 !! creator = Some p ->
        Prediction.db_id p <> Some 5)
  /\ dom (Points.predictions recovered.1) = {[ 9 ]}.
Proof.
  assert (Hrun : Points.restore_predictions plat_77_deleted
                   (Points.init, db_two_predictions) = (Ok tt, recovered))
    by (vm_compute; reflexivity).
  destruct (unreachable_predictions_are_refunded plat_77_deleted
              db_two_predictions 5
              {| row_creator_id := 8; row_title := "first";
                 row_option_a := "A"; row_option_b := "B";
                 row_status := Locked; row_winner := None;
                 row_thread_id := 77; row_message_id := 770 |}
              eq_refl (or_intror eq_refl) eq_refl)
    as (_ & _ & Hafter).
  destruct (Hafter recovered Hrun) as (Hu & Hst & Hreg).
  split; [exact Hrun |].
  split; [rewrite (Hu 1); vm_compute; reflexivity |].
  split; [rewrite (Hu 2); vm_compute; reflexivity |].
  split; [exact Hst |].
  split; [exact Hreg |].
  vm_compute. reflexivity.
Defined.

(** ** What every view satisfies

    A created prediction satisfies [view_ok], and wagers and locks keep it. *)

Lemma positive_stakes_empty : positive_stakes ∅.
Proof. intros u p Hu. by rewrite lookup_empty in Hu. Qed.

Lemma stake_nonneg (d : gmap Z Z) (uid : Z) :
  positive_stakes d -> 0 <= stake d uid.
Proof.
  intros Hpos. unfold stake. destruct (d !! uid) as [p |] eqn:Hp; [| done].
  pose proof (Hpos uid p Hp). cbn. lia.
Qed.

Lemma positive_stakes_merge (d : gmap Z Z) (uid points : Z) :
  positive_stakes d -> 0 < points ->
  positive_stakes (<[uid := stake d uid + points]> (delete uid d)).
Proof.
  intros Hpos Hp u q Hu. rewrite insert_delete_eq in Hu.
  apply lookup_insert_Some in Hu as [[<- <-] | [_ Hu]].
  - pose proof (stake_nonneg d uid Hpos). lia.
  - by apply (Hpos u).
Qed.

Lemma sum_values_merge (d : gmap Z Z) (uid points : Z) :
  sum_values (<[uid := stake d uid + points]> (delete uid d))
  = sum_values d + points.
Proof.
  rewrite sum_values_insert by apply lookup_delete_eq.
  unfold stake. destruct (d !! uid) as [p |] eqn:Hp; cbn.
  - rewrite (sum_values_delete d uid p Hp). lia.
  - rewrite delete_id by done. lia.
Qed.

Lemma create_prediction_view_ok (plat : Platform) (title a b : string)
    (thread : Z) (p0 : Prediction.t) :
  Prediction.create_prediction plat title a b thread = Ok p0 ->
  view_ok (Prediction.view p0).
Proof.
  intros Hp0.
  destruct (create_prediction_ok plat title a b thread)
    as (p & Hp & Ha & Hb & _ & Hcur).
  rewrite Hp0 in Hp. injection Hp as <-.
  repeat split; try done.
  - rewrite Ha. apply positive_stakes_empty.
  - rewrite Hb. apply positive_stakes_empty.
  - intros u. left. by rewrite Ha.
Qed.

Lemma lock_view_ok (v : PredictionView.t) :
  view_ok v -> view_ok (PredictionView.set_locked v).
Proof.
  intros (Ha & Hb & Hcur & Hside). repeat split; try done.
  destruct (odds_current_fields v Hcur) as (oa & ob & Hoa & Hob & Hfa & Hfb).
  unfold odds_current. rewrite (update_embed_run _ oa ob) by done.
  unfold PredictionView.set_locked, PredictionView.set_odds_a,
    PredictionView.set_odds_b. cbn. by rewrite Hfa, Hfb.
Qed.

Lemma update_embed_current (v v' : PredictionView.t) :
  PredictionView.update_embed v = (Ok tt, v') -> odds_current v'.
Proof.
  intros Hup. destruct (update_embed_inv v v' Hup) as (oa & ob & Hoa & Hob & ->).
  unfold odds_current. by rewrite (update_embed_run _ oa ob).
Qed.

Lemma wager_view_ok (label : string) (uid : Z) (value : string)
    (v v' : PredictionView.t) (d d' : Db.t) (r : wager_response) :
  view_ok v ->
  label = PredictionView.option_a v \/ label = PredictionView.option_b v ->
  PredictionView.wager label uid value (v, d) = (Ok r, (v', d')) ->
  view_ok v'.
Proof.
  intros Hok Hlabel Hw.
  assert (Hcases : r = Answered Deferred \/ r <> Answered Deferred).
  { destruct r as [| | []]; (by left) || (by right). }
  destruct Hcases as [-> | Hr].
  2: { apply wager_not_accepted in Hw; [| done]. by injection Hw as -> ->. }
  destruct Hok as (Ha & Hb & _ & Hside).
  apply wager_accepted in Hw as (_ & [Hsa Hsb] & [Hp _] & Hup & _).
  destruct (update_embed_keeps _ _ Hup) as (_ & _ & Eap & Ebp & _).
  split; [| split; [| split; [by eapply update_embed_current |]]].
  - rewrite Eap, merged_a_points. case_bool_decide; [| done].
    by apply positive_stakes_merge.
  - rewrite Ebp, merged_b_points. case_bool_decide; [done |].
    by apply positive_stakes_merge.
  - intros u. rewrite Eap, Ebp, merged_a_points, merged_b_points.
    case_bool_decide as Hon.
    + destruct (decide (u = uid)) as [-> | Hne].
      * right. by apply Hsa.
      * rewrite insert_delete_eq, lookup_insert_ne by done. apply Hside.
    + destruct Hlabel as [? | Hlb]; [done |].
      destruct (decide (u = uid)) as [-> | Hne].
      * left. by apply Hsb.
      * rewrite insert_delete_eq, lookup_insert_ne by done. apply Hside.
Qed.

(** A wager does not raise while the pools, with the bettor's balance
    added, stay below [2 ^ 480]. *)
Lemma wager_returns (label : string) (uid : Z) (value : string)
    (v : PredictionView.t) (d : Db.t) :
  view_ok v ->
  sum_values (PredictionView.option_a_points v) + Db.select_points d uid < 2 ^ 480 ->
  sum_values (PredictionView.option_b_points v) + Db.select_points d uid < 2 ^ 480 ->
  exists r s', PredictionView.wager label uid value (v, d) = (Ok r, s').
Proof.
  intros (Ha & Hb & _ & _) Hba Hbb.
  unfold PredictionView.wager, PredictionView.click, bind, get, ret.
  cbn [fst snd].
  destruct (PredictionView.disabled v); [by eexists _, _ |].
  unfold PredictionView.button_callback, bind, get, ret. cbn [fst snd].
  destruct (_ || _); [by eexists _, _ |].
  unfold PredictionView.modal_submit. cbn [user_points modal_option].
  destruct (negb (isdigit value)); [by eexists _, _ |].
  destruct (Z.leb_spec (int value) 0) as [| Hp]; [by eexists _, _ |].
  destruct (Z.ltb_spec (Db.select_points d uid) (int value)) as [| Hle];
    [by eexists _, _ |].
  unfold bind, ret. rewrite modal_callback_run.
  set (v1 := merged uid (int value) label v).
  assert (Ha1 : positive_stakes (PredictionView.option_a_points v1)).
  { subst v1. rewrite merged_a_points. case_bool_decide; [| done].
    by apply positive_stakes_merge. }
  assert (Hb1 : positive_stakes (PredictionView.option_b_points v1)).
  { subst v1. rewrite merged_b_points. case_bool_decide; [done |].
    by apply positive_stakes_merge. }
  assert (Hsa : sum_values (PredictionView.option_a_points v1) < 2 ^ 480).
  { subst v1. rewrite merged_a_points. case_bool_decide.
    - rewrite sum_values_merge. lia.
    - pose proof (sum_values_nonneg _ Ha). lia. }
  assert (Hsb : sum_values (PredictionView.option_b_points v1) < 2 ^ 480).
  { subst v1. rewrite merged_b_points. case_bool_decide.
    - pose proof (sum_values_nonneg _ Hb). lia.
    - rewrite sum_values_merge. lia. }
  destruct (multiplier_defined _ _ 480 Ha1 Hb1 Hsa Hsb ltac:(lia)) as (oa & Hoa & _).
  destruct (multiplier_defined _ _ 480 Hb1 Ha1 Hsb Hsa ltac:(lia)) as (ob & Hob & _).
  rewrite <- (odds_is_multiplier _ _ Ha1) in Hoa.
  rewrite <- (odds_is_multiplier _ _ Hb1) in Hob.
  rewrite (update_embed_run v1 oa ob Hoa Hob). by eexists _, _.
Qed.


(** ** The commands of the creator *)

Lemma on_timeout_locks (v : PredictionView.t) :
  PredictionView.on_timeout v
  = (Ok tt, if PredictionView.locked v then v else PredictionView.set_locked v).
Proof.
  unfold PredictionView.on_timeout, bind, get.
  by destruct (PredictionView.locked v).
Qed.

(** [/points prediction refund]: the stakes of the view are credited back,
    the row of the prediction is marked refunded, and the creator has no
    prediction in the registry any more. *)
Lemma cancel_prediction_refunds (user : Z) (c : Points.t) (d : Db.t)
    (p : Prediction.t) (i : Z) :
  Points.predictions c !! user = Some p ->
  Prediction.db_id p = Some i ->
  exists c' d',
    Points.cancel_prediction user (c, d) = (Ok true, (c', d'))
    /\ Points.predictions c' !! user = None
    /\ (forall u,
          Db.users d' !! u
          = (fun bal =>
               bal + (stake (PredictionView.option_a_points (Prediction.view p)) u
                      + stake (PredictionView.option_b_points (Prediction.view p)) u))
              <$> Db.users d !! u)
    /\ (is_Some (Db.predictions d !! i) -> is_refunded d' i).
Proof.
  intros Hp Hi.
  exists (Points.set_predictions (delete user)
            (Points.set_predictions
               (<[user := Prediction.set_view
                            (PredictionView.set_locked (Prediction.view p)) p]>) c)).
  exists (Db.update_prediction_status i Refunded None
            (Db.set_users (Db.credit_many
               (items (PredictionView.option_a_points (Prediction.view p))
                ++ items (PredictionView.option_b_points (Prediction.view p)))) d)).
  split; [| split; [| split]].
  - unfold Points.cancel_prediction, bind, get. cbn [fst snd]. rewrite Hp.
    unfold Points.in_prediction. cbn [fst snd].
    rewrite refund_prediction_run. unfold Points.status_of. rewrite Hi.
    reflexivity.
  - cbn. apply lookup_delete_eq.
  - intros u. cbn [Db.users Db.set_users Db.update_prediction_status
                   Db.winner_given Db.set_predictions].
    apply refund_credits_stakes.
  - intros [r Hr]. unfold is_refunded. rewrite status_after_update.
    destruct (decide (i = i)); [| done]. cbn. by rewrite Hr.
Qed.

(** ** Starting a prediction *)

Lemma get_active_is_Some (d : Db.t) (creator_id : Z) :
  is_Some (Db.get_active_prediction_by_creator d creator_id)
  <-> has_open_row d creator_id.
Proof.
  unfold Db.get_active_prediction_by_creator, has_open_row. split.
  - intros [i Hi]. apply head_Some_elem_of in Hi.
    apply list_elem_of_fmap in Hi as ([id row] & -> & Hin).
    apply list_elem_of_filter in Hin as [Hc Hin]. cbn in Hc.
    apply elem_of_get_restorable in Hin as [Hrow Hres].
    exists id, row. split; [done |]. split; [done |].
    unfold Db.restorable in Hres. apply orb_true_iff in Hres as [H | H];
      apply bool_decide_eq_true in H; tauto.
  - intros (id & row & Hrow & Hc & Hst).
    assert (Hin : (id, row) ∈ filter (fun ir : Z * prediction_row =>
                                        row_creator_id ir.2 = creator_id)
                                 (Db.get_restorable_predictions d)).
    { apply list_elem_of_filter. split; [done |].
      apply elem_of_get_restorable. split; [done |].
      unfold Db.restorable. destruct Hst as [-> | ->]; done. }
    destruct (filter _ _) as [| x l]; [by apply elem_of_nil in Hin |].
    by eexists.
Qed.

(** X1. [start_prediction] starts nothing for a creator who already has a
    prediction in the registry or an active or locked one in the table, nor
    when the two options are the same text: the answer is "You already have
    a prediction open." in the first two cases and "Options must be
    different." otherwise, and neither the registry nor the database
    changes. *)
Theorem start_prediction_refuses
    (plat : Platform) (thread new_id : Z) (initial : status) (user : Z)
    (title option_a option_b : string) (c : Points.t) (d : Db.t) :
  is_Some (Points.predictions c !! user) \/ has_open_row d user
  \/ option_a = option_b ->
  exists r,
    Points.start_prediction plat thread new_id initial user title
      option_a option_b (c, d) = (Ok r, (c, d))
    /\ r <> Points.Started
    /\ (is_Some (Points.predictions c !! user) \/ has_open_row d user ->
        r = Points.AlreadyOpen)
    /\ (~ (is_Some (Points.predictions c !! user) \/ has_open_row d user) ->
        r = Points.SameOptions).
Proof.
  intros Hwhy. unfold Points.start_prediction, bind, get, ret. cbn [fst snd].
  case_bool_decide as Hreg.
  { exists Points.AlreadyOpen. repeat split; try done. intros Hn. tauto. }
  case_bool_decide as Hrow.
  { apply get_active_is_Some in Hrow.
    exists Points.AlreadyOpen. repeat split; try done. intros Hn. tauto. }
  rewrite get_active_is_Some in Hrow.
  case_bool_decide as Hopt; [| tauto].
  exists Points.SameOptions. repeat split; try done. tauto.
Qed.

Lemma start_prediction_refuses_witness :
  Points.start_prediction plat0 30 7 Active 8 "again" "A" "B" cog_before_recovery
  = (Ok Points.AlreadyOpen, cog_before_recovery)
  /\ Points.start_prediction plat0 30 7 Active 3 "same" "A" "A" cog_before_recovery
     = (Ok Points.SameOptions, cog_before_recovery).
Proof.
  split.
  - destruct (start_prediction_refuses plat0 30 7 Active 8 "again" "A" "B"
                Points.init db_two_predictions) as (r & Hrun & _ & Hdup & _).
    + right. left. exists 5. eexists. split; [reflexivity |].
      split; [reflexivity | by right].
    + rewrite Hdup in Hrun; [exact Hrun |].
      right. exists 5. eexists. split; [reflexivity |].
      split; [reflexivity | by right].
  - destruct (start_prediction_refuses plat0 30 7 Active 3 "same" "A" "A"
                Points.init db_two_predictions) as (r & Hrun & _ & _ & Hsame).
    + by right; right.
    + rewrite Hsame in Hrun; [exact Hrun |].
      intros [[p Hp] | (id & row & Hrow & Hc & _)].
      * vm_compute in Hp. discriminate.
      * destruct (decide (id = 5)) as [-> | H5];
          [vm_compute in Hrow; injection Hrow as <-; vm_compute in Hc; discriminate |].
        destruct (decide (id = 6)) as [-> | H6];
          [vm_compute in Hrow; injection Hrow as <-; vm_compute in Hc; discriminate |].
        unfold db_two_predictions in Hrow. cbn in Hrow.
        rewrite lookup_insert_ne in Hrow by done.
        rewrite lookup_singleton_ne in Hrow by done. discriminate.
Defined.

(** What [start_prediction] does when it refuses nothing. *)
Lemma start_prediction_run
    (plat : Platform) (thread new_id : Z) (initial : status) (user : Z)
    (title option_a option_b : string) (c : Points.t) (d : Db.t) :
  Points.predictions c !! user = None ->
  ~ has_open_row d user ->
  option_a <> option_b ->
  exists p0,
    Prediction.create_prediction plat title option_a option_b thread = Ok p0
    /\ Points.start_prediction plat thread new_id initial user title
         option_a option_b (c, d)
       = (Ok Points.Started,
          (Points.set_predictions
             (<[user := Prediction.set_db_id new_id p0]>) c,
           Db.create_prediction_db new_id initial user title option_a
             option_b thread (Prediction.message p0) d)).
Proof.
  intros Hreg Hrow Hopt.
  destruct (create_prediction_ok plat title option_a option_b thread)
    as (p0 & Hp0 & _).
  exists p0. split; [exact Hp0 |].
  unfold Points.start_prediction, bind, get, ret. cbn [fst snd].
  rewrite bool_decide_eq_false_2 by (rewrite Hreg; by intros [? ?]).
  rewrite bool_decide_eq_false_2 by (by rewrite get_active_is_Some).
  rewrite bool_decide_eq_false_2 by done.
  unfold lift. rewrite Hp0. reflexivity.
Qed.

(** X2. For a creator without a prediction (none in the registry, none
    open in the table) and two different options, [start_prediction]
    registers a prediction under the creator, open and without bets, whose
    [db_id] and whose view's [prediction_id] are the id of the row it
    inserted; the row holds the creator, the options, the thread and the
    message of the view; balances and bets are untouched; and any further
    [start_prediction] of that creator is refused. *)
Theorem start_prediction_registers
    (plat : Platform) (thread new_id : Z) (initial : status) (user : Z)
    (title option_a option_b : string) (c : Points.t) (d : Db.t) :
  Points.predictions c !! user = None ->
  ~ has_open_row d user ->
  option_a <> option_b ->
  exists p c' d',
    Points.start_prediction plat thread new_id initial user title
      option_a option_b (c, d) = (Ok Points.Started, (c', d'))
    /\ Points.predictions c' = <[user := p]> (Points.predictions c)
    /\ Points.points_buffer c' = Points.points_buffer c
    /\ Prediction.db_id p = Some new_id
    /\ PredictionView.prediction_id (Prediction.view p) = Some new_id
    /\ Prediction.option_a p = option_a /\ Prediction.option_b p = option_b
    /\ PredictionView.option_a (Prediction.view p) = option_a
    /\ PredictionView.option_b (Prediction.view p) = option_b
    /\ PredictionView.option_a_points (Prediction.view p) = ∅
    /\ PredictionView.option_b_points (Prediction.view p) = ∅
    /\ PredictionView.disabled (Prediction.view p) = false
    /\ Db.predictions d'
       = <[new_id := {| row_creator_id := user; row_title := title;
                        row_option_a := option_a; row_option_b := option_b;
                        row_status := initial; row_winner := None;
                        row_thread_id := thread;
                        row_message_id := Prediction.message p |}]>
           (Db.predictions d)
    /\ Db.users d' = Db.users d
    /\ Db.prediction_bets d' = Db.prediction_bets d
    /\ forall plat' thread' id' initial' title' a' b',
         Points.start_prediction plat' thread' id' initial' user title' a' b'
           (c', d') = (Ok Points.AlreadyOpen, (c', d')).
Proof.
  intros Hreg Hrow Hopt.
  destruct (start_prediction_run plat thread new_id initial user title
              option_a option_b c d Hreg Hrow Hopt) as (p0 & Hp0 & Hrun).
  destruct (create_prediction_ok plat title option_a option_b thread)
    as (p0' & Hp0' & Ha & Hb & _).
  rewrite Hp0 in Hp0'. injection Hp0' as <-.
  exists (Prediction.set_db_id new_id p0).
  exists (Points.set_predictions
            (<[user := Prediction.set_db_id new_id p0]>) c).
  eexists.
  split; [exact Hrun |].
  assert (Hfields : Prediction.option_a p0 = option_a
                    /\ Prediction.option_b p0 = option_b
                    /\ PredictionView.option_a (Prediction.view p0) = option_a
                    /\ PredictionView.option_b (Prediction.view p0) = option_b
                    /\ PredictionView.disabled (Prediction.view p0) = false).
  { unfold Prediction.create_prediction in Hp0. cbn in Hp0.
    by injection Hp0 as <-. }
  destruct Hfields as (F1 & F2 & F3 & F4 & F5).
  repeat (split; [done |]).
  intros plat' thread' id' initial' title' a' b'.
  unfold Points.start_prediction, bind, get, ret. cbn [fst snd].
  rewrite bool_decide_eq_true_2; [done |].
  cbn. rewrite lookup_insert_eq. by eexists.
Qed.

Lemma start_prediction_registers_witness :
  exists p c' d',
    Points.start_prediction plat0 30 1 Active 3 "match" "A" "B"
      (Points.init, db_no_users) = (Ok Points.Started, (c', d'))
    /\ Points.predictions c' !! 3 = Some p
    /\ Prediction.db_id p = Some 1
    /\ row_creator_id <$> Db.predictions d' !! 1 = Some 3.
Proof.
  destruct (start_prediction_registers plat0 30 1 Active 3 "match" "A" "B"
              Points.init db_no_users)
    as (p & c' & d' & Hrun & Hreg & _ & Hid & _ & _ & _ & _ & _ & _ & _ & _
        & Hrow & _).
  - reflexivity.
  - intros (id & row & Hrow & _). vm_compute in Hrow. discriminate.
  - discriminate.
  - exists p, c', d'. split; [exact Hrun |]. split.
    + rewrite Hreg. apply lookup_insert_eq.
    + split; [exact Hid |]. rewrite Hrow, lookup_insert_eq. reflexivity.
Defined.

(** ** The thread of a prediction is deleted *)

(** X3. [on_thread_delete] for the thread of a registered prediction (the
    only one that uses it): every user's row is credited the stake that
    [prediction_bets] holds for the user and the prediction, the row of the
    prediction is marked refunded, the bets stay in the table, and the
    creator's entry leaves the registry. For a thread that no registered
    prediction uses, nothing changes. *)
Theorem thread_delete_refunds
    (thread creator i : Z) (p : Prediction.t) (c : Points.t) (d : Db.t) :
  Points.predictions c !! creator = Some p ->
  Prediction.thread p = thread ->
  Prediction.db_id p = Some i ->
  (forall creator' p', Points.predictions c !! creator' = Some p' ->
     Prediction.thread p' = thread -> creator' = creator) ->
  (exists c' d',
     Points.on_thread_delete thread (c, d) = (Ok tt, (c', d'))
     /\ Points.predictions c' = delete creator (Points.predictions c)
     /\ (forall u,
           Db.users d' !! u
           = (fun bal => bal + escrowed_stake d i u) <$> Db.users d !! u)
     /\ (is_Some (Db.predictions d !! i) -> is_refunded d' i)
     /\ Db.prediction_bets d' = Db.prediction_bets d)
  /\ forall other,
       (forall creator' p', Points.predictions c !! creator' = Some p' ->
          Prediction.thread p' <> other) ->
       Points.on_thread_delete other (c, d) = (Ok tt, (c, d)).
Proof.
  intros Hp Ht Hi Huniq. split.
  - unfold Points.on_thread_delete, bind, get. cbn [fst snd].
    assert (Hin : (creator, p) ∈ filter (fun cp : Z * Prediction.t =>
                                           Prediction.thread cp.2 = thread)
                                   (map_to_list (Points.predictions c))).
    { apply list_elem_of_filter. split; [done |]. by apply elem_of_map_to_list. }
    destruct (filter _ _) as [| [creator' p'] l] eqn:Hl;
      [by apply elem_of_nil in Hin |].
    assert (Hhead : (creator', p') ∈ filter (fun cp : Z * Prediction.t =>
                                               Prediction.thread cp.2 = thread)
                                       (map_to_list (Points.predictions c))).
    { rewrite Hl. by left. }
    apply list_elem_of_filter in Hhead as [Ht' Hp']. cbn in Ht'.
    apply elem_of_map_to_list in Hp'.
    pose proof (Huniq creator' p' Hp' Ht') as ->.
    rewrite Hp in Hp'. injection Hp' as <-.
    rewrite Hi. unfold Points.status_of.
    destruct (refund_prediction_bets_run i c d) as (d1 & Hrun & Hpr & Hb & Hu).
    rewrite Hrun. cbn [Points.in_db Points.in_self fst snd].
    exists (Points.set_predictions (delete creator) c).
    exists (Db.update_prediction_status i Refunded None d1).
    split; [reflexivity |].
    split; [done |]. split; [| split].
    + intros u. cbn. apply Hu.
    + intros [r Hr]. unfold is_refunded. rewrite status_after_update.
      destruct (decide (i = i)); [| done]. rewrite Hpr, Hr. done.
    + cbn. exact Hb.
  - intros other Hnone.
    unfold Points.on_thread_delete, bind, get. cbn [fst snd].
    destruct (filter _ _) as [| [creator' p'] l] eqn:Hl; [done |].
    assert (Hhead : (creator', p') ∈ filter (fun cp : Z * Prediction.t =>
                                               Prediction.thread cp.2 = other)
                                       (map_to_list (Points.predictions c))).
    { rewrite Hl. by left. }
    apply list_elem_of_filter in Hhead as [Ht' Hp']. cbn in Ht'.
    apply elem_of_map_to_list in Hp'. by destruct (Hnone creator' p' Hp').
Qed.

Lemma thread_delete_refunds_witness :
  exists c' d',
    Points.on_thread_delete 78 recovered = (Ok tt, (c', d'))
    /\ Points.predictions c' = ∅
    /\ Db.users d' !! 1 = Some 120
    /\ is_refunded d' 6.
Proof.
  assert (Hreg : Points.predictions recovered.1 = {[ 9 := prediction_6 ]})
    by (vm_compute; reflexivity).
  destruct (thread_delete_refunds 78 9 6 prediction_6 recovered.1 recovered.2)
    as [(c' & d' & Hrun & Hc & Hu & Hst & _) _].
  - vm_compute. reflexivity.
  - vm_compute. reflexivity.
  - vm_compute. reflexivity.
  - intros creator' p' Hp' _. rewrite Hreg in Hp'.
    by apply lookup_singleton_Some in Hp' as [<- _].
  - exists c', d'. split; [exact Hrun |]. split.
    + rewrite Hc, Hreg. apply delete_singleton_eq.
    + split; [rewrite (Hu 1); vm_compute; reflexivity |].
      apply Hst. vm_compute. by eexists.
Defined.

(** ** The commands of the creator, continued *)

Lemma update_prediction_status_twice (i : Z) (st : status) (d : Db.t) :
  Db.update_prediction_status i st None
    (Db.update_prediction_status i st None d)
  = Db.update_prediction_status i st None d.
Proof.
  unfold Db.update_prediction_status, Db.set_predictions. cbn. f_equal.
  rewrite alter_alter_eq. apply alter_ext. intros r _. reflexivity.
Qed.

(** X4. [/points prediction lock] by a creator with a registered
    prediction: the view ends locked with its buttons disabled, the row of
    the prediction gets the status locked, and neither the dictionaries of
    the view nor the balances nor the persisted bets change. Locking again
    changes nothing at all. *)
Theorem lock_prediction_idempotent
    (user i : Z) (p : Prediction.t) (c : Points.t) (d : Db.t) :
  Points.predictions c !! user = Some p ->
  Prediction.db_id p = Some i ->
  exists p1 c1 d1,
    Points.lock_prediction user (c, d) = (Ok true, (c1, d1))
    /\ Points.lock_prediction user (c1, d1) = (Ok true, (c1, d1))
    /\ Points.predictions c1 = <[user := p1]> (Points.predictions c)
    /\ PredictionView.locked (Prediction.view p1) = true
    /\ (PredictionView.locked (Prediction.view p) = false ->
        PredictionView.disabled (Prediction.view p1) = true)
    /\ PredictionView.option_a_points (Prediction.view p1)
       = PredictionView.option_a_points (Prediction.view p)
    /\ PredictionView.option_b_points (Prediction.view p1)
       = PredictionView.option_b_points (Prediction.view p)
    /\ Db.users d1 = Db.users d
    /\ Db.prediction_bets d1 = Db.prediction_bets d
    /\ (is_Some (Db.predictions d !! i) ->
        row_status <$> Db.predictions d1 !! i = Some Locked).
Proof.
  intros Hp Hi.
  set (p1 := if PredictionView.locked (Prediction.view p) then p
             else Prediction.set_view
                    (PredictionView.set_locked (Prediction.view p)) p).
  assert (Hlock : Prediction.lock_prediction (p, d) = (Ok tt, (p1, d))).
  { unfold Prediction.lock_prediction, bind, get, p1. cbn [fst snd].
    destruct (PredictionView.locked (Prediction.view p)) eqn:Hl; [done |].
    destruct p. reflexivity. }
  assert (Hlocked : PredictionView.locked (Prediction.view p1) = true).
  { unfold p1. by destruct (PredictionView.locked (Prediction.view p)) eqn:Hl. }
  assert (Hlock1 : Prediction.lock_prediction (p1, d) = (Ok tt, (p1, d))).
  { unfold Prediction.lock_prediction, bind, get. cbn [fst snd].
    by rewrite Hlocked. }
  assert (Hid1 : Prediction.db_id p1 = Some i).
  { unfold p1. by destruct (PredictionView.locked (Prediction.view p)). }
  exists p1, (Points.set_predictions (<[user := p1]>) c),
    (Db.update_prediction_status i Locked None d).
  split; [| split].
  - unfold Points.lock_prediction, bind, get, ret. cbn [fst snd]. rewrite Hp.
    unfold Points.in_prediction. cbn [fst snd]. rewrite Hlock.
    unfold Points.status_of. rewrite Hi. reflexivity.
  - unfold Points.lock_prediction, bind, get, ret. cbn [fst snd].
    cbn [Points.predictions Points.set_predictions].
    rewrite lookup_insert_eq.
    unfold Points.in_prediction. cbn [fst snd].
    assert (Hlock2 : Prediction.lock_prediction
                       (p1, Db.update_prediction_status i Locked None d)
                     = (Ok tt, (p1, Db.update_prediction_status i Locked None d))).
    { unfold Prediction.lock_prediction, bind, get. cbn [fst snd].
      by rewrite Hlocked. }
    rewrite Hlock2. unfold Points.status_of. rewrite Hid1.
    cbn [Points.in_db fst snd]. rewrite update_prediction_status_twice.
    unfold Points.set_predictions. cbn. by rewrite insert_insert_eq.
  - split; [done |]. split; [done |].
    split; [unfold p1; intros ->; done |].
    split; [unfold p1; by destruct (PredictionView.locked (Prediction.view p)) |].
    split; [unfold p1; by destruct (PredictionView.locked (Prediction.view p)) |].
    split; [done |]. split; [done |].
    intros [r Hr]. rewrite status_after_update.
    destruct (decide (i = i)); [| done]. by rewrite Hr.
Qed.

Lemma lock_prediction_idempotent_witness :
  exists c1 d1,
    Points.lock_prediction 9 recovered = (Ok true, (c1, d1))
    /\ Points.lock_prediction 9 (c1, d1) = (Ok true, (c1, d1))
    /\ Db.users d1 = Db.users recovered.2
    /\ row_status <$> Db.predictions d1 !! 6 = Some Locked.
Proof.
  destruct (lock_prediction_idempotent 9 6 prediction_6 recovered.1 recovered.2)
    as (p1 & c1 & d1 & H1 & H2 & _ & _ & _ & _ & _ & Hu & _ & Hst).
  - vm_compute. reflexivity.
  - vm_compute. reflexivity.
  - exists c1, d1. split; [exact H1 |]. split; [exact H2 |].
    split; [exact Hu |]. apply Hst. vm_compute. by eexists.
Defined.

(** [Prediction.complete_prediction] writes to [users] only. *)
Lemma complete_prediction_tables (winner : string) (p p' : Prediction.t)
    (d d' : Db.t) (r : result unit) :
  Prediction.complete_prediction winner (p, d) = (r, (p', d')) ->
  Db.predictions d' = Db.predictions d
  /\ Db.prediction_bets d' = Db.prediction_bets d
  /\ Prediction.db_id p' = Prediction.db_id p.
Proof.
  unfold Prediction.complete_prediction, bind, get. cbn [fst snd].
  destruct (_ || _).
  - intros [= _ <- <-]. done.
  - destruct (bool_decide (winner = Prediction.option_a p)).
    + destruct (PredictionView.odds_a (Prediction.view p)) as [m |]; cbn;
        [| by intros [= _ <- <-]].
      unfold lift.
      destruct (Prediction.payouts m _) as [data | e]; cbn;
        by intros [= _ <- <-].
    + destruct (PredictionView.odds_b (Prediction.view p)) as [m |]; cbn;
        [| by intros [= _ <- <-]].
      unfold lift.
      destruct (Prediction.payouts m _) as [data | e]; cbn;
        by intros [= _ <- <-].
Qed.

(** X5. [/points prediction complete] by a creator with a registered
    prediction. A winner that is neither option is refused and nothing
    changes. With a winner that is one of the options (and not the empty
    text), whenever the command completes the creator has no entry in the
    registry any more, the other entries are as before, the row of the
    prediction has the status completed and that winner, and the persisted
    bets are untouched. The command does not ask for the prediction to be
    locked first. *)
Theorem complete_prediction_command
    (user i : Z) (winner : string) (p : Prediction.t) (c : Points.t) (d : Db.t) :
  Points.predictions c !! user = Some p ->
  Prediction.db_id p = Some i ->
  (winner <> Prediction.option_a p -> winner <> Prediction.option_b p ->
   Points.complete_prediction user winner (c, d) = (Ok false, (c, d)))
  /\ forall s',
       winner = Prediction.option_a p \/ winner = Prediction.option_b p ->
       winner <> EmptyString ->
       Points.complete_prediction user winner (c, d) = (Ok true, s') ->
       Points.predictions s'.1 = delete user (Points.predictions c)
       /\ Db.prediction_bets s'.2 = Db.prediction_bets d
       /\ forall row, Db.predictions d !! i = Some row ->
            exists row', Db.predictions s'.2 !! i = Some row'
              /\ row_status row' = Completed
              /\ row_winner row' = Some winner
              /\ row_creator_id row' = row_creator_id row
              /\ row_thread_id row' = row_thread_id row.
Proof.
  intros Hp Hi. split.
  - intros Ha Hb. unfold Points.complete_prediction, bind, get, ret.
    cbn [fst snd]. rewrite Hp.
    by rewrite !bool_decide_eq_false_2.
  - intros s' Hw Hne. unfold Points.complete_prediction, bind, get, ret.
    cbn [fst snd]. rewrite Hp.
    assert (Hvalid : bool_decide (winner = Prediction.option_a p)
                     || bool_decide (winner = Prediction.option_b p) = true).
    { destruct Hw as [Hw | Hw].
      - by rewrite (bool_decide_eq_true_2 _ Hw).
      - rewrite (bool_decide_eq_true_2 _ Hw). apply orb_true_r. }
    rewrite Hvalid. unfold Points.in_prediction. cbn [fst snd].
    destruct (Prediction.complete_prediction winner (p, d))
      as [[[] | e] [p' d1]] eqn:Hrun; [| discriminate].
    destruct (complete_prediction_tables _ _ _ _ _ _ Hrun) as (Hpr & Hb & _).
    unfold Points.status_of. rewrite Hi. cbn [Points.in_db Points.in_self fst snd].
    assert (Hgiven : Db.winner_given (Some winner) = Some winner).
    { by destruct winner. }
    intros [= <-]. cbn [fst snd]. split; [| split].
    + cbn. by rewrite delete_insert_eq.
    + unfold Db.update_prediction_status. rewrite Hgiven. exact Hb.
    + intros row Hrow. unfold Db.update_prediction_status.
      rewrite Hgiven. cbn. rewrite lookup_alter_eq, Hpr, Hrow. cbn.
      eexists. split; [reflexivity |]. done.
Qed.

(** Prediction 1 of user 3, with 100 points of user 1 on A and 50 of user 2
    on B, is completed for A. *)
Lemma complete_prediction_command_witness :
  Points.complete_prediction 3 "C" cog_with_bets = (Ok false, cog_with_bets)
  /\ Points.complete_prediction 3 "A" cog_with_bets = (Ok true, cog_completed)
  /\ Points.predictions cog_completed.1 = ∅
  /\ (exists row', Db.predictions cog_completed.2 !! 1 = Some row'
        /\ row_status row' = Completed /\ row_winner row' = Some "A"%string)
  /\ Db.users cog_completed.2 = {[ 1 := 550; 2 := 30 ]}.
Proof.
  assert (Hrun : Points.complete_prediction 3 "A" cog_with_bets
                 = (Ok true, cog_completed)) by (vm_compute; reflexivity).
  destruct (complete_prediction_command 3 1 "A" prediction_3_bets
              cog_with_bets.1 cog_with_bets.2) as [_ Hdone].
  - vm_compute. reflexivity.
  - vm_compute. reflexivity.
  - destruct (complete_prediction_command 3 1 "C" prediction_3_bets
                cog_with_bets.1 cog_with_bets.2) as [Hrefused _].
    + vm_compute. reflexivity.
    + vm_compute. reflexivity.
    + destruct (Hdone cog_completed) as (Hreg & _ & Hrow).
      * left. vm_compute. reflexivity.
      * discriminate.
      * exact Hrun.
      * split; [apply Hrefused; vm_compute; discriminate |].
        split; [exact Hrun |]. split.
        -- rewrite Hreg. vm_compute. reflexivity.
        -- split; [| vm_compute; reflexivity].
           destruct (Hrow _ ltac:(vm_compute; reflexivity))
             as (row' & Hr & Hs & Hw & _).
           exists row'. split; [exact Hr |]. split; [exact Hs | exact Hw].
Defined.

(** X6. [/points prediction refund] by a creator whose registered
    prediction is their only open row: the stakes of the view are credited
    back, the row is marked refunded, and the creator is free again, in
    the registry as in the table, so that their next [/points prediction
    start] with two different options is accepted. *)
Theorem cancel_then_start
    (plat : Platform) (thread new_id : Z) (initial : status) (user : Z)
    (title option_a option_b : string) (c : Points.t) (d : Db.t)
    (p : Prediction.t) (i : Z) :
  Points.predictions c !! user = Some p ->
  Prediction.db_id p = Some i ->
  (forall id row,
     Db.predictions d !! id = Some row ->
     row_creator_id row = user ->
     row_status row = Active \/ row_status row = Locked ->
     id = i) ->
  option_a <> option_b ->
  exists c' d',
    Points.cancel_prediction user (c, d) = (Ok true, (c', d'))
    /\ (forall u,
          Db.users d' !! u
          = (fun bal =>
               bal + (stake (PredictionView.option_a_points (Prediction.view p)) u
                      + stake (PredictionView.option_b_points (Prediction.view p)) u))
              <$> Db.users d !! u)
    /\ (is_Some (Db.predictions d !! i) -> is_refunded d' i)
    /\ Points.predictions c' !! user = None
    /\ ~ has_open_row d' user
    /\ (Points.start_prediction plat thread new_id initial user title
          option_a option_b (c', d')).1 = Ok Points.Started.
Proof.
  intros Hp Hi Honly Hopt.
  set (c' := Points.set_predictions (delete user)
               (Points.set_predictions
                  (<[user := Prediction.set_view
                               (PredictionView.set_locked (Prediction.view p)) p]>) c)).
  set (d' := Db.update_prediction_status i Refunded None
               (Db.set_users (Db.credit_many
                  (items (PredictionView.option_a_points (Prediction.view p))
                   ++ items (PredictionView.option_b_points (Prediction.view p)))) d)).
  assert (Hreg : Points.predictions c' !! user = None).
  { subst c'. cbn. apply lookup_delete_eq. }
  assert (Hrow : ~ has_open_row d' user).
  { intros (id & row & Hrow & Hcr & Hst).
    subst d'. unfold Db.update_prediction_status in Hrow. cbn in Hrow.
    destruct (decide (id = i)) as [-> | Hne].
    - rewrite lookup_alter_eq in Hrow.
      destruct (Db.predictions d !! i) as [r |]; [| done].
      cbn in Hrow. injection Hrow as <-. cbn in Hst.
      by destruct Hst.
    - rewrite lookup_alter_ne in Hrow by done.
      by apply Hne, (Honly id row). }
  exists c', d'.
  split; [| split; [| split; [| split; [exact Hreg | split; [exact Hrow |]]]]].
  - unfold Points.cancel_prediction, bind, get. cbn [fst snd]. rewrite Hp.
    unfold Points.in_prediction. cbn [fst snd].
    rewrite refund_prediction_run. unfold Points.status_of. rewrite Hi.
    reflexivity.
  - intros u. subst d'.
    cbn [Db.users Db.set_users Db.update_prediction_status
         Db.winner_given Db.set_predictions].
    apply refund_credits_stakes.
  - intros [r Hr]. unfold is_refunded. subst d'. rewrite status_after_update.
    destruct (decide (i = i)); [| done]. cbn. by rewrite Hr.
  - destruct (start_prediction_run plat thread new_id initial user title
                option_a option_b c' d' Hreg Hrow Hopt) as (p0 & _ & ->).
    reflexivity.
Qed.

Lemma cancel_then_start_witness :
  exists c' d',
    Points.cancel_prediction 3 cog_with_bets = (Ok true, (c', d'))
    /\ Db.users d' !! 1 = Some 500
    /\ Db.users d' !! 2 = Some 80
    /\ is_refunded d' 1
    /\ (Points.start_prediction plat0 11 2 Active 3 "rematch" "A" "B"
          (c', d')).1 = Ok Points.Started.
Proof.
  assert (Hrows : exists r, Db.predictions cog_with_bets.2 = {[ 1 := r ]})
    by (eexists; vm_compute; reflexivity).
  destruct Hrows as [r Hrows].
  destruct (cancel_then_start plat0 11 2 Active 3 "rematch" "A" "B"
              cog_with_bets.1 cog_with_bets.2 prediction_3_bets 1)
    as (c' & d' & Hrun & Hu & Hst & _ & _ & Hstart).
  - vm_compute. reflexivity.
  - vm_compute. reflexivity.
  - intros id row Hrow _ _. rewrite Hrows in Hrow.
    by apply lookup_singleton_Some in Hrow as [<- _].
  - discriminate.
  - exists c', d'. split; [exact Hrun |].
    split; [rewrite (Hu 1); vm_compute; reflexivity |].
    split; [rewrite (Hu 2); vm_compute; reflexivity |].
    split; [| exact Hstart].
    apply Hst. rewrite Hrows. rewrite lookup_singleton_eq. by eexists.
Defined.

(** ** The accrual buffer, continued *)

(** After any messages the buffer holds, for every author, the draw of
    their last message; the database is not touched. *)
Lemma messages_buffer (msgs : list (Z * bool * Z)) (c : Points.t) (d : Db.t) :
  exists c',
    messages msgs (c, d) = (Ok tt, (c', d))
    /\ Points.predictions c' = Points.predictions c
    /\ forall u,
         Points.points_buffer c' !! u
         = match last_draw msgs u with
           | Some drawn => Some drawn
           | None => Points.points_buffer c !! u
           end.
Proof.
  revert c. induction msgs as [| [[uid is_bot] drawn] msgs IH]; intros c.
  - by exists c.
  - unfold messages. cbn [for_each]. unfold bind.
    unfold Points.on_message at 1. cbn [fst snd last_draw].
    destruct is_bot; cbn [negb andb].
    + destruct (IH c) as (c' & Hrun & Hp & Hb).
      exists c'. split; [exact Hrun |]. split; [exact Hp |].
      intros u. rewrite (Hb u). by destruct (last_draw msgs u).
    + unfold Points.in_self. cbn [fst snd].
      destruct (IH (Points.set_points_buffer (<[uid := drawn]>) c))
        as (c' & Hrun & Hp & Hb).
      exists c'. split; [exact Hrun |]. split; [by rewrite Hp |].
      intros u. rewrite (Hb u). destruct (last_draw msgs u); [done |].
      cbn. case_bool_decide as Hu.
      * subst u. apply lookup_insert_eq.
      * by rewrite lookup_insert_ne.
Qed.

(** One run of the task with nothing scheduled during its [await]. *)
Lemma update_points_run (c : Points.t) (d : Db.t) :
  exists c' d',
    Points.update_points (c, d) = (Ok tt, (c', d'))
    /\ Points.points_buffer c' = ∅
    /\ Points.predictions c' = Points.predictions c
    /\ Db.predictions d' = Db.predictions d
    /\ Db.prediction_bets d' = Db.prediction_bets d
    /\ (forall u,
          Db.users d' !! u
          = match Points.points_buffer c !! u with
            | Some p => Some (Db.select_points d u + p)
            | None => Db.users d !! u
            end)
    /\ Points.update_points (c', d') = (Ok tt, (c', d')).
Proof.
  assert (Hidle : forall c0 d0, Points.points_buffer c0 = ∅ ->
            Points.update_points (c0, d0) = (Ok tt, (c0, d0))).
  { intros c0 d0 H0.
    unfold Points.update_points, Points.update_points_begin, bind, get.
    cbn [fst snd]. rewrite H0. unfold nonempty.
    by rewrite bool_decide_eq_true_2. }
  destruct (decide (Points.points_buffer c = ∅)) as [Hempty | Hfull].
  - exists c, d. split; [by apply Hidle |]. split; [exact Hempty |].
    do 3 (split; [reflexivity |]). split; [| by apply Hidle].
    intros u. by rewrite Hempty, lookup_empty.
  - exists (Points.set_points_buffer (fun _ => ∅) c).
    exists (Db.set_users
              (Db.upsert_many (map_to_list (Points.points_buffer c))) d).
    split.
    { unfold Points.update_points, Points.update_points_begin, bind, get.
      cbn [fst snd]. unfold nonempty.
      rewrite bool_decide_eq_false_2 by done. reflexivity. }
    do 4 (split; [reflexivity |]). split; [| by apply Hidle].
    intros u. cbn [Db.users Db.set_users]. apply upsert_snapshot_lookup.
Qed.

(** X7. Messages followed by a run of the task: every author who is not a
    bot is credited the draw of their LAST message only, whatever the
    number of messages they sent (a user without a row gets one, at that
    amount); the users who were only in the buffer before are credited
    what it held for them, everyone else keeps their balance; the buffer
    ends empty, and a second run of the task changes nothing. *)
Theorem one_award_per_flush (msgs : list (Z * bool * Z)) (c : Points.t)
    (d : Db.t) :
  exists c' d',
    (messages msgs ;; Points.update_points)%py (c, d) = (Ok tt, (c', d'))
    /\ Points.points_buffer c' = ∅
    /\ (forall u,
          Db.users d' !! u
          = match last_draw msgs u with
            | Some drawn => Some (Db.select_points d u + drawn)
            | None =>
                match Points.points_buffer c !! u with
                | Some p => Some (Db.select_points d u + p)
                | None => Db.users d !! u
                end
            end)
    /\ Points.update_points (c', d') = (Ok tt, (c', d')).
Proof.
  destruct (messages_buffer msgs c d) as (c1 & Hmsgs & _ & Hbuf).
  destruct (update_points_run c1 d) as (c' & d' & Hrun & He & _ & _ & _ & Hu & Hi).
  exists c', d'. split; [by unfold bind; rewrite Hmsgs |].
  split; [exact He |]. split; [| exact Hi].
  intros u. rewrite (Hu u), (Hbuf u). by destruct (last_draw msgs u).
Qed.

Lemma last_draw_elem (msgs : list (Z * bool * Z)) (u drawn : Z) :
  last_draw msgs u = Some drawn -> (u, false, drawn) ∈ msgs.
Proof.
  induction msgs as [| [[uid is_bot] x] msgs IH]; cbn [last_draw]; [done |].
  destruct (last_draw msgs u) as [y |].
  - intros [= <-]. apply elem_of_cons. right. by apply IH.
  - cbn. destruct is_bot; cbn; [done |].
    case_bool_decide as Hu; [| done]. intros [= <-]. subst uid.
    apply elem_of_cons. by left.
Qed.

(** X8. With an empty buffer and draws between 7 and 25 (what
    [random.randint(7, 25)] gives), the messages received before a run of
    the task raise nobody's balance by more than 25 points, however many
    messages they sent, and lower nobody's; bots gain nothing. *)
Theorem award_is_bounded (msgs : list (Z * bool * Z)) (c : Points.t)
    (d : Db.t) :
  Points.points_buffer c = ∅ ->
  (forall m, m ∈ msgs -> 7 <= m.2 <= 25) ->
  exists c' d',
    (messages msgs ;; Points.update_points)%py (c, d) = (Ok tt, (c', d'))
    /\ (forall u,
          Db.select_points d u <= Db.select_points d' u
                               <= Db.select_points d u + 25)
    /\ (forall u,
          (forall m, m ∈ msgs -> m.1.1 = u -> m.1.2 = true) ->
          Db.users d' !! u = Db.users d !! u).
Proof.
  intros Hempty Hdraws.
  destruct (messages_buffer msgs c d) as (c1 & Hmsgs & _ & Hbuf).
  destruct (update_points_run c1 d) as (c' & d' & Hrun & _ & _ & _ & _ & Hu1 & _).
  assert (Hu : forall u,
            Db.users d' !! u
            = match last_draw msgs u with
              | Some drawn => Some (Db.select_points d u + drawn)
              | None => Db.users d !! u
              end).
  { intros u. rewrite (Hu1 u), (Hbuf u), Hempty, lookup_empty.
    by destruct (last_draw msgs u). }
  exists c', d'. split; [by unfold bind; rewrite Hmsgs |]. split.
  - intros u. unfold Db.select_points at 2 3. rewrite (Hu u).
    destruct (last_draw msgs u) as [x |] eqn:Hlast.
    + apply last_draw_elem, Hdraws in Hlast. cbn in *. lia.
    + unfold Db.select_points. lia.
  - intros u Hbot. rewrite (Hu u).
    destruct (last_draw msgs u) as [x |] eqn:Hlast; [| done].
    apply last_draw_elem in Hlast. by specialize (Hbot _ Hlast eq_refl).
Qed.

Lemma award_is_bounded_witness :
  exists c' d',
    (messages [(1, false, 7); (4, true, 9); (1, false, 25); (1, false, 12)] ;;
     Points.update_points)%py (Points.init, db_u1)
    = (Ok tt, (c', d'))
    /\ Db.select_points d' 1 = Db.select_points db_u1 1 + 12
    /\ Db.users d' !! 4 = None.
Proof.
  destruct (award_is_bounded
              [(1, false, 7); (4, true, 9); (1, false, 25); (1, false, 12)]
              Points.init db_u1) as (c' & d' & Hrun & Hbound & Hbot).
  - reflexivity.
  - intros m Hm. repeat (apply elem_of_cons in Hm as [-> | Hm]; [cbn; lia |]).
    by apply elem_of_nil in Hm.
  - exists c', d'. split; [exact Hrun |].
    vm_compute in Hrun. injection Hrun as <- <-.
    split; vm_compute; reflexivity.
Defined.

(** ** The text typed into the modal *)

Lemma int_from_digits (s : string) (acc : Z) :
  all_digits s = true -> 0 <= acc ->
  acc <= int_from acc s
  /\ (int_from acc s = 0 -> acc = 0 /\ all_zeros s).
Proof.
  revert acc. induction s as [| c s IH]; intros acc Hd Hacc; cbn [int_from].
  - split; [lia |]. intros ->. split; [done |].
    intros c Hc. by apply elem_of_nil in Hc.
  - cbn [all_digits] in Hd. apply andb_true_iff in Hd as [Hc Hs].
    unfold is_digit in Hc. apply andb_true_iff in Hc as [Hlo Hhi].
    apply Z.leb_le in Hlo, Hhi.
    destruct (IH (10 * acc + (Z.of_nat (nat_of_ascii c) - 48)) Hs ltac:(lia))
      as [Hle Hzero].
    split; [lia |]. intros H0. destruct (Hzero H0) as [Hacc0 Hrest].
    split; [lia |].
    intros c' Hc'. cbn [list_ascii_of_string] in Hc'.
    apply elem_of_cons in Hc' as [-> | Hc']; [| by apply Hrest].
    assert (Hn : nat_of_ascii c = 48%nat) by lia.
    rewrite <- (ascii_nat_embedding c), Hn. reflexivity.
Qed.

(** X9. The answers of the modal to an ASCII text. "You must wager a
    numeric amount!" means the text is empty or has a character that is no
    decimal digit (a sign, a space, a point); "You must wager more than 0
    points!" means it is made of zeros only; "You don't have enough
    points!" means it is a number above the balance the modal was opened
    with. In these three cases nothing changes. Only a text of digits whose
    value is at least 1 and at most that balance reaches [modal_callback],
    with that value and the option of the modal. *)
Theorem modal_submit_answers (m : PredictionModal) (uid : Z) (value : string)
    (s s' : PredictionView.t * Db.t) (r : modal_response) :
  is_ascii value = true ->
  PredictionView.modal_submit m uid value s = (Ok r, s') ->
  match r with
  | NotNumeric =>
      (value = EmptyString
       \/ exists c, c ∈ list_ascii_of_string value /\ is_digit c = false)
      /\ s' = s
  | NotPositive => value <> EmptyString /\ all_zeros value /\ s' = s
  | NotEnoughPoints =>
      isdigit value = true /\ user_points m < int value /\ s' = s
  | Deferred =>
      isdigit value = true
      /\ 0 < int value <= user_points m
      /\ PredictionView.modal_callback uid (int value) (modal_option m) s
         = (Ok tt, s')
  end.
Proof.
  intros _. unfold PredictionView.modal_submit.
  destruct (isdigit value) eqn:Hd; cbn [negb].
  - assert (Hall : all_digits value = true /\ value <> EmptyString).
    { destruct value; [discriminate |]. done. }
    destruct Hall as [Hall Hne].
    destruct (int_from_digits value 0 Hall ltac:(lia)) as [Hge Hzero].
    fold (int value) in Hge, Hzero.
    destruct (Z.leb_spec (int value) 0) as [Hle | Hpos].
    { intros [= <- <-]. split; [done |]. split; [| done].
      apply Hzero. lia. }
    destruct (Z.ltb_spec (user_points m) (int value)) as [Hlt | Hle].
    { intros [= <- <-]. done. }
    unfold bind, ret.
    destruct (PredictionView.modal_callback _ _ _ _) as [[[] | e] s1] eqn:Hcb;
      [| discriminate].
    intros [= <- <-]. split; [done |]. split; [lia | done].
  - intros [= <- <-]. split; [| done].
    destruct value as [| c value]; [by left |]. right.
    cbn [isdigit] in Hd. clear -Hd.
    revert Hd. generalize (String c value). clear. intros t.
    induction t as [| c t IH]; cbn [all_digits]; [discriminate |].
    intros Hd. apply andb_false_iff in Hd as [Hc | Ht].
    + exists c. split; [| done]. cbn. apply elem_of_cons. by left.
    + destruct (IH Ht) as (c' & Hin & Hc'). exists c'. split; [| done].
      cbn. apply elem_of_cons. by right.
Qed.

Lemma modal_submit_answers_witness :
  ("000" <> EmptyString /\ all_zeros "000"
   /\ (view_empty, db_u1) = (view_empty, db_u1))
  /\ (("-12" = EmptyString
       \/ exists c, c ∈ list_ascii_of_string "-12" /\ is_digit c = false)
      /\ (view_empty, db_u1) = (view_empty, db_u1)).
Proof.
  split.
  - apply (modal_submit_answers {| modal_option := "A"; user_points := 100 |}
             1 "000" (view_empty, db_u1) (view_empty, db_u1) NotPositive);
      reflexivity.
  - apply (modal_submit_answers {| modal_option := "A"; user_points := 100 |}
             1 "-12" (view_empty, db_u1) (view_empty, db_u1) NotNumeric);
      reflexivity.
Defined.

(** ** What the wagers keep *)

Lemma sum_values_alter (f : Z -> Z) (m : gmap Z Z) (k b : Z) :
  m !! k = Some b -> sum_values (alter f k m) = sum_values m - b + f b.
Proof.
  intros Hk.
  assert (Halter : alter f k m = <[k := f b]> (delete k m)).
  { apply map_eq. intros u. destruct (decide (u = k)) as [-> | Hne].
    - by rewrite lookup_alter_eq, lookup_insert_eq, Hk.
    - by rewrite lookup_alter_ne, lookup_insert_ne, lookup_delete_ne. }
  rewrite Halter, sum_values_insert by apply lookup_delete_eq.
  rewrite (sum_values_delete m k b Hk). lia.
Qed.

Lemma sum_values_balances (m : gmap Z Z) :
  (forall u b, m !! u = Some b -> 0 <= b) ->
  0 <= sum_values m /\ forall u, default 0 (m !! u) <= sum_values m.
Proof.
  induction m as [| k b m Hnone IH] using map_ind; intros Hpos.
  - rewrite sum_values_empty. split; [done |]. intros u.
    by rewrite lookup_empty.
  - rewrite sum_values_insert by done.
    assert (0 <= b) by (apply (Hpos k); by rewrite lookup_insert_eq).
    destruct IH as [IH0 IHu].
    { intros u q Hu. apply (Hpos u). rewrite lookup_insert_ne; [done |].
      intros ->. by rewrite Hnone in Hu. }
    split; [lia |]. intros u. destruct (decide (u = k)) as [-> | Hne].
    + rewrite lookup_insert_eq. cbn. lia.
    + rewrite lookup_insert_ne by done. specialize (IHu u). lia.
Qed.

(** A wager that returns keeps the database solvent, moves points between
    the balance of the bettor and a pool only, and leaves the options, the
    id and the table of the predictions alone. *)
Lemma wager_keeps (label : string) (uid : Z) (value : string)
    (v v' : PredictionView.t) (d d' : Db.t) (r : wager_response) :
  solvent d ->
  PredictionView.wager label uid value (v, d) = (Ok r, (v', d')) ->
  solvent d'
  /\ total_points v' d' = total_points v d
  /\ PredictionView.option_a v' = PredictionView.option_a v
  /\ PredictionView.option_b v' = PredictionView.option_b v
  /\ PredictionView.prediction_id v' = PredictionView.prediction_id v
  /\ Db.predictions d' = Db.predictions d.
Proof.
  intros Hsolv Hw.
  assert (Hcases : r = Answered Deferred \/ r <> Answered Deferred).
  { destruct r as [| | []]; (by left) || (by right). }
  destruct Hcases as [-> | Hr].
  2: { apply wager_not_accepted in Hw; [| done]. by injection Hw as -> ->. }
  apply wager_accepted in Hw as (_ & _ & [Hpos Hle] & Hup & ->).
  destruct (update_embed_keeps _ _ Hup) as (Eoa & Eob & Eap & Ebp & _ & _ & Eid).
  unfold Db.select_points in Hle.
  destruct (Db.users d !! uid) as [bal |] eqn:Hbal; cbn in Hle; [| lia].
  split; [| split; [| split; [| split; [| split]]]].
  - intros u b. rewrite escrowed_users. unfold Db.sub_points.
    destruct (decide (u = uid)) as [-> | Hne].
    + rewrite lookup_alter_eq, Hbal. cbn. intros [= <-]. lia.
    + rewrite lookup_alter_ne by done. apply Hsolv.
  - unfold total_points. rewrite escrowed_users. unfold Db.sub_points.
    rewrite (sum_values_alter _ _ _ _ Hbal), Eap, Ebp.
    rewrite merged_a_points, merged_b_points.
    case_bool_decide; rewrite sum_values_merge; lia.
  - rewrite Eoa. unfold merged. by case_bool_decide.
  - rewrite Eob. unfold merged. by case_bool_decide.
  - rewrite Eid. unfold merged. by case_bool_decide.
  - unfold escrowed. by destruct (PredictionView.truthy_id _).
Qed.

(** An accepted wager keeps the persisted bets in step with the view. *)
Lemma wager_mirror (label : string) (uid : Z) (value : string)
    (v v' : PredictionView.t) (d d' : Db.t) (r : wager_response) (pid : Z) :
  view_ok v ->
  PredictionView.option_a v <> PredictionView.option_b v ->
  label = PredictionView.option_a v \/ label = PredictionView.option_b v ->
  PredictionView.truthy_id (PredictionView.prediction_id v) = Some pid ->
  bets_mirror v d pid ->
  PredictionView.wager label uid value (v, d) = (Ok r, (v', d')) ->
  bets_mirror v' d' pid.
Proof.
  intros (_ & _ & _ & Hside) Hopt Hlabel Hid Hm Hw.
  assert (Hcases : r = Answered Deferred \/ r <> Answered Deferred).
  { destruct r as [| | []]; (by left) || (by right). }
  destruct Hcases as [-> | Hr].
  2: { apply wager_not_accepted in Hw; [| done]. by injection Hw as -> ->. }
  apply wager_accepted in Hw as (_ & [Hsa Hsb] & _ & Hup & ->).
  destruct (update_embed_keeps _ _ Hup) as (Eoa & Eob & Eap & Ebp & _).
  assert (Eoa' : PredictionView.option_a v' = PredictionView.option_a v).
  { rewrite Eoa. unfold merged. by case_bool_decide. }
  assert (Eob' : PredictionView.option_b v' = PredictionView.option_b v).
  { rewrite Eob. unfold merged. by case_bool_decide. }
  intros u. rewrite Eoa', Eob', Eap, Ebp, merged_a_points, merged_b_points.
  destruct (decide (u = uid)) as [-> | Hne].
  - rewrite (escrowed_bets _ _ _ _ _ _ Hid), (Hm uid). unfold stake.
    case_bool_decide as Hon.
    + rewrite (Hsa Hon), lookup_insert_eq.
      destruct (PredictionView.option_a_points v !! uid) as [x |]; cbn.
      * done.
      * by rewrite Hon.
    + destruct Hlabel as [? | Hlb]; [done |].
      rewrite (Hsb Hlb), lookup_insert_eq.
      destruct (PredictionView.option_b_points v !! uid) as [y |]; cbn.
      * done.
      * by rewrite Hlb.
  - assert (Hbets : Db.bets_of (escrowed uid (int value) label v d) pid !! u
                    = Db.bets_of d pid !! u).
    { unfold escrowed. rewrite Hid. unfold Db.place_bet_db, Db.bets_of. cbn.
      rewrite lookup_insert_eq. cbn. by rewrite lookup_insert_ne. }
    rewrite Hbets, (Hm u).
    case_bool_decide;
      by rewrite insert_delete_eq, lookup_insert_ne.
Qed.

(** What one event keeps, when it returns. *)
Lemma event_keeps (e : event) (p p' : Prediction.t) (d d' : Db.t) :
  view_ok (Prediction.view p) ->
  offered (PredictionView.option_a (Prediction.view p))
    (PredictionView.option_b (Prediction.view p)) e ->
  run_event e (p, d) = (Ok tt, (p', d')) ->
  view_ok (Prediction.view p')
  /\ PredictionView.option_a (Prediction.view p')
     = PredictionView.option_a (Prediction.view p)
  /\ PredictionView.option_b (Prediction.view p')
     = PredictionView.option_b (Prediction.view p)
  /\ PredictionView.prediction_id (Prediction.view p')
     = PredictionView.prediction_id (Prediction.view p)
  /\ Db.predictions d' = Db.predictions d
  /\ (solvent d ->
      solvent d'
      /\ total_points (Prediction.view p') d'
         = total_points (Prediction.view p) d)
  /\ (forall pid,
        PredictionView.option_a (Prediction.view p)
        <> PredictionView.option_b (Prediction.view p) ->
        PredictionView.truthy_id
          (PredictionView.prediction_id (Prediction.view p)) = Some pid ->
        bets_mirror (Prediction.view p) d pid ->
        bets_mirror (Prediction.view p') d' pid).
Proof.
  intros Hok Hoff. destruct e as [label uid value |]; cbn.
  - unfold bind, Prediction.in_view, ret. cbn [fst snd].
    destruct (PredictionView.wager label uid value (Prediction.view p, d))
      as [[r | x] [v1 d1]] eqn:Hw; [| discriminate].
    intros [= <- <-]. cbn [Prediction.view Prediction.set_view].
    split; [by eapply wager_view_ok |].
    assert (Hfields : PredictionView.option_a v1
                      = PredictionView.option_a (Prediction.view p)
                      /\ PredictionView.option_b v1
                         = PredictionView.option_b (Prediction.view p)
                      /\ PredictionView.prediction_id v1
                         = PredictionView.prediction_id (Prediction.view p)
                      /\ Db.predictions d1 = Db.predictions d).
    { assert (Hcases : r = Answered Deferred \/ r <> Answered Deferred).
      { destruct r as [| | []]; (by left) || (by right). }
      destruct Hcases as [-> | Hr].
      2: { apply wager_not_accepted in Hw; [| done]. by injection Hw as -> ->. }
      apply wager_accepted in Hw as (_ & _ & _ & Hup & ->).
      destruct (update_embed_keeps _ _ Hup) as (-> & -> & _ & _ & _ & _ & ->).
      unfold merged, escrowed.
      case_bool_decide; destruct (PredictionView.truthy_id _); done. }
    destruct Hfields as (Ea & Eb & Ei & Ep).
    do 4 (split; [done |]).
    split.
    + intros Hsolv.
      destruct (wager_keeps _ _ _ _ _ _ _ _ Hsolv Hw) as (H1 & H2 & _). done.
    + intros pid Hopt Hid Hm. by eapply wager_mirror.
  - unfold Prediction.lock_prediction, bind, get, ret. cbn [fst snd].
    destruct (PredictionView.locked (Prediction.view p)).
    + by intros [= <- <-].
    + intros [= <- <-]. cbn [Prediction.view Prediction.set_view].
      split; [by apply lock_view_ok |]. done.
Qed.

Lemma events_keep (events : list event) (p p' : Prediction.t) (d d' : Db.t) :
  view_ok (Prediction.view p) ->
  Forall (offered (PredictionView.option_a (Prediction.view p))
            (PredictionView.option_b (Prediction.view p))) events ->
  for_each events run_event (p, d) = (Ok tt, (p', d')) ->
  view_ok (Prediction.view p')
  /\ PredictionView.option_a (Prediction.view p')
     = PredictionView.option_a (Prediction.view p)
  /\ PredictionView.option_b (Prediction.view p')
     = PredictionView.option_b (Prediction.view p)
  /\ PredictionView.prediction_id (Prediction.view p')
     = PredictionView.prediction_id (Prediction.view p)
  /\ Db.predictions d' = Db.predictions d
  /\ (solvent d ->
      solvent d'
      /\ total_points (Prediction.view p') d'
         = total_points (Prediction.view p) d)
  /\ (forall pid,
        PredictionView.option_a (Prediction.view p)
        <> PredictionView.option_b (Prediction.view p) ->
        PredictionView.truthy_id
          (PredictionView.prediction_id (Prediction.view p)) = Some pid ->
        bets_mirror (Prediction.view p) d pid ->
        bets_mirror (Prediction.view p') d' pid).
Proof.
  revert p d. induction events as [| e events IH]; intros p d Hok Hoff; cbn.
  - intros [= <- <-]. done.
  - apply Forall_cons in Hoff as [He Hoff]. unfold bind.
    destruct (run_event e (p, d)) as [[[] | x] [p1 d1]] eqn:Hrun;
      [| discriminate].
    intros Hrest.
    destruct (event_keeps e p p1 d d1 Hok He Hrun)
      as (Hok1 & Ea & Eb & Ei & Ep & Hsolv & Hmir).
    rewrite <- Ea, <- Eb in Hoff.
    destruct (IH p1 d1 Hok1 Hoff Hrest)
      as (Hok' & Ea' & Eb' & Ei' & Ep' & Hsolv' & Hmir').
    split; [done |]. split; [congruence |]. split; [congruence |].
    split; [congruence |]. split; [congruence |]. split.
    + intros Hs. destruct (Hsolv Hs) as [Hs1 Ht1].
      destruct (Hsolv' Hs1) as [Hs2 Ht2]. split; [done | congruence].
    + intros pid Hopt Hid Hm. apply Hmir'.
      * congruence.
      * congruence.
      * by apply Hmir.
Qed.

(** An event returns while all the points there are stay below
    [2 ^ 480]. *)
Lemma event_returns (e : event) (p : Prediction.t) (d : Db.t) :
  view_ok (Prediction.view p) ->
  solvent d ->
  total_points (Prediction.view p) d < 2 ^ 480 ->
  exists s', run_event e (p, d) = (Ok tt, s').
Proof.
  intros Hok Hsolv Htot. destruct e as [label uid value |]; cbn.
  - unfold bind, Prediction.in_view, ret. cbn [fst snd].
    destruct Hok as (Ha & Hb & Hrest).
    destruct (sum_values_balances (Db.users d) Hsolv) as [_ Hbal].
    specialize (Hbal uid). fold (Db.select_points d uid) in Hbal.
    pose proof (sum_values_nonneg _ Ha). pose proof (sum_values_nonneg _ Hb).
    unfold total_points in Htot.
    destruct (wager_returns label uid value (Prediction.view p) d)
      as (r & [v1 d1] & ->); [done | lia | lia |].
    by eexists.
  - unfold Prediction.lock_prediction, bind, get, ret. cbn [fst snd].
    destruct (PredictionView.locked (Prediction.view p)); by eexists.
Qed.

Lemma events_return (events : list event) (p : Prediction.t) (d : Db.t) :
  view_ok (Prediction.view p) ->
  solvent d ->
  total_points (Prediction.view p) d < 2 ^ 480 ->
  Forall (offered (PredictionView.option_a (Prediction.view p))
            (PredictionView.option_b (Prediction.view p))) events ->
  exists s', for_each events run_event (p, d) = (Ok tt, s').
Proof.
  revert p d. induction events as [| e events IH];
    intros p d Hok Hsolv Htot Hoff; cbn.
  - by eexists.
  - apply Forall_cons in Hoff as [He Hoff]. unfold bind.
    destruct (event_returns e p d Hok Hsolv Htot) as ([p1 d1] & Hrun).
    rewrite Hrun.
    destruct (event_keeps e p p1 d d1 Hok He Hrun)
      as (Hok1 & Ea & Eb & _ & _ & Hkeep & _).
    destruct (Hkeep Hsolv) as [Hs1 Ht1].
    apply IH; [done | done | lia |]. by rewrite Ea, Eb.
Qed.

Lemma solvent_u1_u2_rich : solvent db_u1_u2_rich.
Proof.
  intros u bal Hu. unfold db_u1_u2_rich in Hu. cbn in Hu.
  apply lookup_insert_Some in Hu as [[_ <-] | [_ Hu]]; [lia |].
  apply lookup_singleton_Some in Hu as [_ <-]. lia.
Qed.

Lemma fresh_prediction_view_ok : view_ok (Prediction.view fresh_prediction).
Proof.
  repeat split.
  - apply positive_stakes_empty.
  - apply positive_stakes_empty.
  - intros u. by left.
Qed.

(** ** The persisted bets and the restart *)

(** The two dictionaries that the loop of [restore_predictions] builds
    from the rows of a prediction, one row per user. *)
Lemma split_bets_lookup (option_a : string) (l : list (Z * bet_row))
    (acc : gmap Z Z * gmap Z Z) (u : Z) :
  NoDup l.*1 ->
  let r := foldl (fun acc (b : Z * string * Z) =>
                    if bool_decide (b.1.2 = option_a)
                    then (<[b.1.1 := b.2]> acc.1, acc.2)
                    else (acc.1, <[b.1.1 := b.2]> acc.2))
                 acc ((fun ur : Z * bet_row =>
                         (ur.1, bet_option ur.2, bet_points ur.2)) <$> l) in
  r.1 !! u
  = match (list_to_map l : gmap Z bet_row) !! u with
    | Some b => if bool_decide (bet_option b = option_a)
                then Some (bet_points b) else acc.1 !! u
    | None => acc.1 !! u
    end
  /\ r.2 !! u
     = match (list_to_map l : gmap Z bet_row) !! u with
       | Some b => if bool_decide (bet_option b = option_a)
                   then acc.2 !! u else Some (bet_points b)
       | None => acc.2 !! u
       end.
Proof.
  revert acc. induction l as [| [k b] l IH]; intros acc Hnd.
  - rewrite fmap_nil. cbn [foldl]. by rewrite list_to_map_nil, lookup_empty.
  - rewrite fmap_cons in Hnd. cbn [fst] in Hnd.
    apply NoDup_cons in Hnd as [Hk Hnd].
    rewrite fmap_cons. cbn [foldl fst snd].
    rewrite list_to_map_cons.
    assert (Hnone : (list_to_map l : gmap Z bet_row) !! k = None)
      by by apply not_elem_of_list_to_map_1.
    destruct (decide (u = k)) as [-> | Hne].
    + rewrite lookup_insert_eq.
      case_bool_decide as Hon.
      * destruct (IH (<[k := bet_points b]> acc.1, acc.2) Hnd) as [H1 H2].
        cbn zeta in H1, H2. rewrite H1, H2, Hnone. cbn [fst snd].
        by rewrite lookup_insert_eq.
      * destruct (IH (acc.1, <[k := bet_points b]> acc.2) Hnd) as [H1 H2].
        cbn zeta in H1, H2. rewrite H1, H2, Hnone. cbn [fst snd].
        by rewrite lookup_insert_eq.
    + rewrite lookup_insert_ne by done.
      case_bool_decide as Hon.
      * destruct (IH (<[k := bet_points b]> acc.1, acc.2) Hnd) as [H1 H2].
        cbn zeta in H1, H2. rewrite H1, H2. cbn [fst snd].
        by rewrite lookup_insert_ne.
      * destruct (IH (acc.1, <[k := bet_points b]> acc.2) Hnd) as [H1 H2].
        cbn zeta in H1, H2. rewrite H1, H2. cbn [fst snd].
        by rewrite lookup_insert_ne.
Qed.

(** When the persisted bets are in step with the view, the dictionaries
    rebuilt from them are the dictionaries of the view. *)
Lemma split_bets_mirror (v : PredictionView.t) (d : Db.t) (pid : Z) :
  PredictionView.option_a v <> PredictionView.option_b v ->
  (forall u, PredictionView.option_a_points v !! u = None
             \/ PredictionView.option_b_points v !! u = None) ->
  bets_mirror v d pid ->
  Points.split_bets (PredictionView.option_a v)
    (Db.get_bets_for_prediction d pid)
  = (PredictionView.option_a_points v, PredictionView.option_b_points v).
Proof.
  intros Hopt Hside Hm.
  unfold Points.split_bets, Db.get_bets_for_prediction.
  assert (Hl : forall u,
            let r := foldl (fun acc (b : Z * string * Z) =>
                              if bool_decide (b.1.2 = PredictionView.option_a v)
                              then (<[b.1.1 := b.2]> acc.1, acc.2)
                              else (acc.1, <[b.1.1 := b.2]> acc.2))
                       ((∅, ∅) : gmap Z Z * gmap Z Z)
                       ((fun ur : Z * bet_row =>
                           (ur.1, bet_option ur.2, bet_points ur.2))
                          <$> map_to_list (Db.bets_of d pid)) in
            r.1 !! u = PredictionView.option_a_points v !! u
            /\ r.2 !! u = PredictionView.option_b_points v !! u).
  { intros u.
    destruct (split_bets_lookup (PredictionView.option_a v)
                (map_to_list (Db.bets_of d pid)) (∅, ∅) u
                (NoDup_fst_map_to_list _)) as [H1 H2].
    cbn zeta in *. rewrite H1, H2, list_to_map_to_list, (Hm u).
    cbn [fst snd]. rewrite !lookup_empty.
    destruct (PredictionView.option_a_points v !! u) as [x |] eqn:Ha.
    - cbn. rewrite bool_decide_eq_true_2 by done.
      destruct (Hside u) as [H | H]; [congruence | by rewrite H].
    - destruct (PredictionView.option_b_points v !! u) as [y |]; cbn; [| done].
      by rewrite bool_decide_eq_false_2 by done. }
  cbn zeta in Hl.
  destruct (foldl _ _ _) as [ra rb]. cbn [fst snd] in Hl.
  f_equal; apply map_eq; intros u; by destruct (Hl u).
Qed.

Lemma fresh_prediction_mirror :
  bets_mirror (Prediction.view fresh_prediction) db_u1_u2_rich 1.
Proof.
  intros u.
  change (Db.bets_of db_u1_u2_rich 1) with (∅ : gmap Z bet_row).
  change (PredictionView.option_a_points (Prediction.view fresh_prediction))
    with (∅ : gmap Z Z).
  change (PredictionView.option_b_points (Prediction.view fresh_prediction))
    with (∅ : gmap Z Z).
  by rewrite !lookup_empty.
Qed.

(** X12. The refund from the table gives back what the wagers took. From a
    prediction without bets whose options differ and which has no row in
    [prediction_bets] yet, after any clicks on its buttons and locks, the
    bets persisted for a user add up to the stake the user holds in the
    view, and [refund_prediction_bets] (the refund of a deleted thread and
    of the recovery at startup) puts every balance back to what it was
    before the bets. *)
Theorem table_refund_restores_balances
    (events : list event) (p0 p : Prediction.t) (d0 d : Db.t) (pid : Z)
    (c : Points.t) :
  let v0 := Prediction.view p0 in
  let v := Prediction.view p in
  view_ok v0 ->
  PredictionView.option_a_points v0 = ∅ ->
  PredictionView.option_b_points v0 = ∅ ->
  PredictionView.option_a v0 <> PredictionView.option_b v0 ->
  PredictionView.truthy_id (PredictionView.prediction_id v0) = Some pid ->
  Db.bets_of d0 pid = ∅ ->
  Forall (offered (PredictionView.option_a v0) (PredictionView.option_b v0))
    events ->
  for_each events run_event (p0, d0) = (Ok tt, (p, d)) ->
  (forall u,
     escrowed_stake d pid u
     = stake (PredictionView.option_a_points v) u
       + stake (PredictionView.option_b_points v) u)
  /\ exists d',
       Points.refund_prediction_bets pid (c, d) = (Ok tt, (c, d'))
       /\ Db.users d' = Db.users d0
       /\ Db.predictions d' = Db.predictions d0.
Proof.
  intros v0 v Hok Ha0 Hb0 Hopt Hid Hbets Hoff Hrun.
  assert (Hinv0 : escrow_inv d0 (p0, d0)).
  { intros u. cbn [fst snd]. fold v0. rewrite Ha0, Hb0. unfold stake.
    rewrite lookup_empty. cbn.
    row_arith (Db.users d0 !! u). }
  pose proof (escrow_inv_events d0 events _ _ Hinv0 Hrun) as Hinv.
  assert (Hm0 : bets_mirror v0 d0 pid).
  { intros u. by rewrite Hbets, Ha0, Hb0, !lookup_empty. }
  destruct (events_keep events p0 p d0 d Hok Hoff Hrun)
    as ((_ & _ & _ & Hside) & _ & _ & _ & Hp & _ & Hmir).
  fold v in Hside.
  assert (Hm : bets_mirror v d pid) by by apply Hmir.
  assert (Hstake : forall u,
            escrowed_stake d pid u
            = stake (PredictionView.option_a_points v) u
              + stake (PredictionView.option_b_points v) u).
  { intros u. unfold escrowed_stake, stake. rewrite (Hm u).
    destruct (Hside u) as [H | H]; rewrite H.
    - by destruct (PredictionView.option_b_points v !! u).
    - destruct (PredictionView.option_a_points v !! u); cbn; lia. }
  split; [exact Hstake |].
  destruct (refund_prediction_bets_run pid c d) as (d' & Hr & Hp' & _ & Hu).
  exists d'. split; [exact Hr |]. split; [| congruence].
  apply map_eq. intros u. rewrite (Hu u), (Hstake u).
  specialize (Hinv u). cbn [fst snd] in Hinv. fold v in Hinv. rewrite Hinv.
  row_arith (Db.users d0 !! u).
Qed.

Lemma table_refund_restores_balances_witness :
  Db.users after_bets.2 = {[ 1 := 400; 2 := 30 ]}
  /\ exists d',
       Points.refund_prediction_bets 1 (Points.init, after_bets.2)
       = (Ok tt, (Points.init, d'))
       /\ Db.users d' = {[ 1 := 500; 2 := 80 ]}.
Proof.
  split; [vm_compute; reflexivity |].
  destruct (table_refund_restores_balances bets_u1_u2 fresh_prediction
              after_bets.1 db_u1_u2_rich after_bets.2 1 Points.init)
    as (_ & d' & Hrun & Hus & _).
  - exact fresh_prediction_view_ok.
  - reflexivity.
  - reflexivity.
  - discriminate.
  - reflexivity.
  - reflexivity.
  - repeat constructor; (by left) || (by right).
  - vm_compute. reflexivity.
  - exists d'. split; [exact Hrun | exact Hus].
Defined.

(** ** The recovery, run again *)

(** One row of the recovery leaves every row of the table as it is, or
    with the status refunded. *)
Lemma restore_row_rows (plat : Platform) (ir : Z * prediction_row)
    (c : Points.t) (d : Db.t) (s' : Points.t * Db.t) :
  Points.restore_row plat ir (c, d) = (Ok tt, s') ->
  Db.prediction_bets s'.2 = Db.prediction_bets d
  /\ (unreachable plat ir.2 = false -> s'.2 = d)
  /\ row_restores plat d ir
  /\ forall j r',
       Db.predictions s'.2 !! j = Some r' ->
       exists r, Db.predictions d !! j = Some r
                 /\ (r' = r \/ row_status r' = Refunded).
Proof.
  destruct ir as [id row]. intros Hrun.
  destruct (unreachable plat row) eqn:Hun.
  - destruct (restore_row_unreachable plat id row c d Hun)
      as (d' & Hrun' & Hb & _ & _).
    assert (Hd' : s'.2 = Db.update_prediction_status id Refunded None
                           (Points.refund_prediction_bets id (c, d)).2.2).
    { revert Hrun. unfold Points.restore_row, unreachable in *. cbn [fst snd].
      destruct (fetch_channel plat (row_thread_id row)) as [thread | []];
        try discriminate; unfold bind;
        destruct (refund_prediction_bets_run id c d) as (d1 & -> & _);
        by intros [= <-]. }
    destruct (refund_prediction_bets_run id c d) as (d1 & Hr1 & Hp1 & Hb1 & _).
    rewrite Hr1 in Hd'. cbn [fst snd] in Hd'.
    split; [| split; [cbn [snd]; intros; congruence | split; [left; exact Hun |]]].
    { rewrite Hd'. unfold Db.update_prediction_status. cbn. exact Hb1. }
    intros j r'. rewrite Hd'. unfold Db.update_prediction_status. cbn.
    rewrite Hp1. destruct (decide (j = id)) as [-> | Hne].
    + rewrite lookup_alter_eq.
      destruct (Db.predictions d !! id) as [r |]; [| done].
      cbn. intros [= <-]. exists r. split; [done |]. by right.
    + rewrite lookup_alter_ne by done. intros Hr. exists r'.
      split; [done |]. by left.
  - revert Hrun. unfold Points.restore_row, unreachable in *. cbn [fst snd].
    destruct (fetch_channel plat (row_thread_id row)) as [thread | []] eqn:Hf;
      try discriminate.
    unfold bind, get, lift. cbn [fst snd].
    destruct (Prediction.restore_view _ _ _ _ _ _ _ _ _ _) as [p | e] eqn:Hp;
      [| discriminate].
    intros [= <-]. cbn [fst snd].
    split; [done |]. split; [done |]. split.
    + right. exists thread, p. cbn [fst snd]. by rewrite Hf.
    + intros j r' Hr. exists r'. split; [done |]. by left.
Qed.

Lemma restore_rows_rows (plat : Platform) (d0 : Db.t)
    (rows : list (Z * prediction_row)) (c : Points.t) (d : Db.t)
    (s' : Points.t * Db.t) :
  Db.prediction_bets d = Db.prediction_bets d0 ->
  for_each rows (Points.restore_row plat) (c, d) = (Ok tt, s') ->
  Forall (row_restores plat d0) rows
  /\ (Forall (fun ir => unreachable plat ir.2 = false) rows -> s'.2 = d)
  /\ forall j r',
       Db.predictions s'.2 !! j = Some r' ->
       exists r, Db.predictions d !! j = Some r
                 /\ (r' = r \/ row_status r' = Refunded).
Proof.
  revert c d. induction rows as [| ir rows IH]; intros c d Hb; cbn [for_each].
  - intros [= <-]. split; [done |]. split; [done |].
    intros j r' Hr. exists r'. split; [done |]. by left.
  - unfold bind.
    destruct (Points.restore_row plat ir (c, d)) as [[[] | e] [c1 d1]] eqn:Hrow;
      [| discriminate].
    intros Hrest.
    destruct (restore_row_rows plat ir c d _ Hrow) as (Hb1 & Hsame & Hres & Hrows).
    cbn [fst snd] in *.
    destruct (IH c1 d1 ltac:(congruence) Hrest) as (Hall & Hsame' & Hrows').
    split; [| split].
    + apply Forall_cons. split; [| done].
      destruct ir as [id row].
      destruct Hres as [Hun | (thread & p & Hf & Hv)]; [by left |].
      right. exists thread, p. split; [done |]. cbn [fst snd] in *.
      by rewrite <- (get_bets_for_prediction_bets d0 d id Hb).
    + intros Hreach. apply Forall_cons in Hreach as [Hir Hreach].
      rewrite (Hsame' Hreach). by apply Hsame.
    + intros j r' Hr. destruct (Hrows' j r' Hr) as (r1 & Hr1 & Hor).
      destruct (Hrows j r1 Hr1) as (r & Hr0 & Hor0).
      exists r. split; [done |].
      destruct Hor as [-> | ?]; [| by right]. done.
Qed.

(** X13. The recovery pays its refunds once. When [restore_predictions]
    has completed, running it again on the same platform completes too and
    leaves the database as the first run left it: no balance is credited a
    second time, and no row changes. *)
Theorem recovery_refunds_once
    (plat : Platform) (c : Points.t) (d0 : Db.t) (s1 : Points.t * Db.t) :
  Points.restore_predictions plat (c, d0) = (Ok tt, s1) ->
  exists s2,
    Points.restore_predictions plat s1 = (Ok tt, s2)
    /\ s2.2 = s1.2.
Proof.
  unfold Points.restore_predictions at 1. unfold bind, get. cbn [fst snd].
  intros Hrun. destruct s1 as [c1 d1].
  destruct (restore_rows_rows plat d0 _ c d0 _ eq_refl Hrun)
    as (Hall & _ & Hrows).
  destruct (restore_rows_spec plat _ c d0 _ Hrun)
    as (Hb & _ & _ & _ & Href & _).
  cbn [fst snd] in *.
  assert (Hopen : forall id row,
            (id, row) ∈ Db.get_restorable_predictions d1 ->
            (id, row) ∈ Db.get_restorable_predictions d0
            /\ unreachable plat row = false).
  { intros id row Hin. apply elem_of_get_restorable in Hin as [Hrow Hres].
    destruct (Hrows id row Hrow) as (r & Hr & [-> | Hst]).
    2: { unfold Db.restorable in Hres. by rewrite Hst in Hres. }
    assert (Hin0 : (id, r) ∈ Db.get_restorable_predictions d0)
      by by apply elem_of_get_restorable.
    split; [done |].
    destruct (unreachable plat r) eqn:Hun; [| done].
    assert (Hrefd : is_refunded d1 id) by (apply (Href id r); by eauto).
    unfold is_refunded in Hrefd. rewrite Hrow in Hrefd. cbn in Hrefd.
    injection Hrefd as Hst. unfold Db.restorable in Hres.
    by rewrite Hst in Hres. }
  assert (Hall1 : Forall (row_restores plat d0)
                    (Db.get_restorable_predictions d1)).
  { apply Forall_forall. intros [id row] Hin.
    destruct (Hopen id row Hin) as [Hin0 _].
    by apply (proj1 (Forall_forall _ _) Hall). }
  destruct (restore_rows_return plat d0 _ c1 d1 Hb Hall1) as (s2 & Hrun2).
  exists s2. unfold Points.restore_predictions, bind, get. cbn [fst snd].
  split; [exact Hrun2 |].
  destruct (restore_rows_rows plat d0 _ c1 d1 _ Hb Hrun2) as (_ & Hsame & _).
  apply Hsame. apply Forall_forall. intros [id row] Hin.
  by destruct (Hopen id row Hin).
Qed.

Lemma recovery_refunds_once_witness :
  exists s2,
    Points.restore_predictions plat_77_deleted recovered = (Ok tt, s2)
    /\ Db.users s2.2 !! 1 = Some 100.
Proof.
  destruct (recovery_refunds_once plat_77_deleted Points.init
              db_two_predictions recovered) as (s2 & Hrun & Hdb).
  - vm_compute. reflexivity.
  - exists s2. split; [exact Hrun |]. rewrite Hdb. vm_compute. reflexivity.
Defined.

(** ** A settled prediction *)

(** Without a prediction in the registry, the three commands of a creator
    answer "You don't have a prediction open." and change nothing. *)
Lemma commands_need_a_prediction (user : Z) (winner : string)
    (s : Points.t * Db.t) :
  Points.predictions s.1 !! user = None ->
  Points.lock_prediction user s = (Ok false, s)
  /\ Points.complete_prediction user winner s = (Ok false, s)
  /\ Points.cancel_prediction user s = (Ok false, s).
Proof.
  intros Hnone.
  unfold Points.lock_prediction, Points.complete_prediction,
    Points.cancel_prediction, bind, get.
  cbn [fst snd]. by rewrite Hnone.
Qed.

(** X14. A prediction is settled once. When [/points prediction refund] or
    [/points prediction complete] has answered that it is done, the
    creator has no prediction in the registry, and each further lock,
    complete or refund command of the creator is answered "You don't have
    a prediction open." and changes neither the registry nor the database:
    nothing is paid or refunded a second time. *)
Theorem settled_prediction_is_closed
    (user : Z) (winner : string) (s s1 : Points.t * Db.t) :
  Points.cancel_prediction user s = (Ok true, s1)
  \/ Points.complete_prediction user winner s = (Ok true, s1) ->
  Points.predictions s1.1 !! user = None
  /\ forall winner',
       Points.lock_prediction user s1 = (Ok false, s1)
       /\ Points.complete_prediction user winner' s1 = (Ok false, s1)
       /\ Points.cancel_prediction user s1 = (Ok false, s1).
Proof.
  intros Hdone.
  assert (Hnone : Points.predictions s1.1 !! user = None).
  { destruct s as [c d]. destruct Hdone as [Hrun | Hrun]; revert Hrun.
    - unfold Points.cancel_prediction, bind, get. cbn [fst snd].
      destruct (Points.predictions c !! user) as [p |]; [| discriminate].
      unfold Points.in_prediction. cbn [fst snd].
      rewrite refund_prediction_run. unfold Points.status_of.
      destruct (Prediction.db_id p); intros [= <-]; cbn;
        apply lookup_delete_eq.
    - unfold Points.complete_prediction, bind, get. cbn [fst snd].
      destruct (Points.predictions c !! user) as [p |]; [| discriminate].
      destruct (_ || _); [| discriminate].
      unfold Points.in_prediction. cbn [fst snd].
      destruct (Prediction.complete_prediction winner (p, d))
        as [[[] | e] [p' d']]; [| discriminate].
      unfold Points.status_of.
      destruct (Prediction.db_id p); intros [= <-]; cbn;
        apply lookup_delete_eq. }
  split; [exact Hnone |]. intros winner'.
  by apply commands_need_a_prediction.
Qed.

Lemma settled_prediction_is_closed_witness :
  Points.cancel_prediction 3 cog_completed = (Ok false, cog_completed)
  /\ Points.complete_prediction 3 "B" cog_completed = (Ok false, cog_completed).
Proof.
  destruct (settled_prediction_is_closed 3 "A" cog_with_bets cog_completed)
    as [_ Hclosed].
  - right. vm_compute. reflexivity.
  - destruct (Hclosed "B") as (_ & Hcomplete & Hcancel). by split.
Defined.

(** ** The balance a modal was opened with *)

(** [modal_callback] returns while the pools, with the wager added, stay
    below [2 ^ 480]. *)
Lemma modal_callback_returns (uid points : Z) (option : string)
    (v : PredictionView.t) (d : Db.t) :
  positive_stakes (PredictionView.option_a_points v) ->
  positive_stakes (PredictionView.option_b_points v) ->
  0 < points ->
  sum_values (PredictionView.option_a_points v) + points < 2 ^ 480 ->
  sum_values (PredictionView.option_b_points v) + points < 2 ^ 480 ->
  exists v',
    PredictionView.modal_callback uid points option (v, d)
    = (Ok tt, (v', escrowed uid points option v d)).
Proof.
  intros Ha Hb Hp Hba Hbb. rewrite modal_callback_run.
  set (v1 := merged uid points option v).
  assert (Ha1 : positive_stakes (PredictionView.option_a_points v1)).
  { subst v1. rewrite merged_a_points. case_bool_decide; [| done].
    by apply positive_stakes_merge. }
  assert (Hb1 : positive_stakes (PredictionView.option_b_points v1)).
  { subst v1. rewrite merged_b_points. case_bool_decide; [done |].
    by apply positive_stakes_merge. }
  assert (Hsa : sum_values (PredictionView.option_a_points v1) < 2 ^ 480).
  { subst v1. rewrite merged_a_points. case_bool_decide.
    - rewrite sum_values_merge. lia.
    - pose proof (sum_values_nonneg _ Ha). lia. }
  assert (Hsb : sum_values (PredictionView.option_b_points v1) < 2 ^ 480).
  { subst v1. rewrite merged_b_points. case_bool_decide.
    - pose proof (sum_values_nonneg _ Hb). lia.
    - rewrite sum_values_merge. lia. }
  destruct (multiplier_defined _ _ 480 Ha1 Hb1 Hsa Hsb ltac:(lia)) as (oa & Hoa & _).
  destruct (multiplier_defined _ _ 480 Hb1 Ha1 Hsb Hsa ltac:(lia)) as (ob & Hob & _).
  rewrite <- (odds_is_multiplier _ _ Ha1) in Hoa.
  rewrite <- (odds_is_multiplier _ _ Hb1) in Hob.
  rewrite (update_embed_run v1 oa ob Hoa Hob). by eexists.
Qed.

(** X15. The modal compares the wager with the balance that was read when
    it was opened, not with the balance at the time it is submitted: a
    wager of digits between 1 and that balance is accepted whatever the
    database holds by then, and the user's row is debited the wager, so
    that a balance that fell in between (by a bet placed from another
    modal, say) ends below zero. *)
Theorem modal_checks_opening_balance
    (m : PredictionModal) (uid : Z) (value : string)
    (v : PredictionView.t) (d : Db.t) :
  is_ascii value = true ->
  isdigit value = true ->
  0 < int value <= user_points m ->
  positive_stakes (PredictionView.option_a_points v) ->
  positive_stakes (PredictionView.option_b_points v) ->
  sum_values (PredictionView.option_a_points v) + int value < 2 ^ 480 ->
  sum_values (PredictionView.option_b_points v) + int value < 2 ^ 480 ->
  exists v' d',
    PredictionView.modal_submit m uid value (v, d) = (Ok Deferred, (v', d'))
    /\ Db.users d' !! uid = (fun bal => bal - int value) <$> Db.users d !! uid
    /\ (Db.select_points d uid < int value ->
        is_Some (Db.users d !! uid) ->
        Db.select_points d' uid < 0).
Proof.
  intros _ Hd [Hpos Hle] Ha Hb Hba Hbb.
  destruct (modal_callback_returns uid (int value) (modal_option m) v d
              Ha Hb Hpos Hba Hbb) as (v' & Hcb).
  exists v', (escrowed uid (int value) (modal_option m) v d).
  assert (Hu : Db.users (escrowed uid (int value) (modal_option m) v d) !! uid
               = (fun bal => bal - int value) <$> Db.users d !! uid).
  { rewrite escrowed_users. unfold Db.sub_points. apply lookup_alter_eq. }
  split; [| split; [exact Hu |]].
  - unfold PredictionView.modal_submit. rewrite Hd. cbn [negb].
    destruct (Z.leb_spec (int value) 0) as [| _]; [lia |].
    destruct (Z.ltb_spec (user_points m) (int value)) as [| _]; [lia |].
    unfold bind, ret. by rewrite Hcb.
  - unfold Db.select_points. rewrite Hu. intros Hlow [bal Hbal].
    rewrite Hbal in *. cbn in *. lia.
Qed.

Lemma modal_checks_opening_balance_witness :
  exists v' d',
    PredictionView.modal_submit {| modal_option := "A"; user_points := 100 |}
      1 "100" (view_empty, db_u1_u2) = (Ok Deferred, (v', d'))
    /\ Db.select_points db_u1_u2 1 = 0
    /\ Db.select_points d' 1 = -100.
Proof.
  destruct (modal_checks_opening_balance
              {| modal_option := "A"; user_points := 100 |} 1 "100"
              view_empty db_u1_u2) as (v' & d' & Hrun & Hu & _).
  - reflexivity.
  - reflexivity.
  - vm_compute. split; [reflexivity | discriminate].
  - apply positive_stakes_empty.
  - apply positive_stakes_empty.
  - vm_compute. reflexivity.
  - vm_compute. reflexivity.
  - exists v', d'. split; [exact Hrun |]. split; [reflexivity |].
    unfold Db.select_points. rewrite Hu. vm_compute. reflexivity.
Defined.

(** ** The crediting [UPDATE] *)

(** X16. The crediting [UPDATE] that the payouts and the refunds hand to
    [db.perform_many]: the result does not depend on the order of the
    [(points, user_id)] tuples, so not on the order in which a dictionary
    is iterated; the amounts of a user add up; and a user without a row
    in [users] is credited nothing and gets no row. *)
Theorem credit_order_is_irrelevant (l1 l2 : list (Z * Z)) (us : gmap Z Z) :
  l1 ≡ₚ l2 ->
  Db.credit_many l1 us = Db.credit_many l2 us
  /\ (forall u, Db.credit_many l1 us !! u
                = (fun bal => bal + credited l1 u) <$> us !! u)
  /\ forall u, us !! u = None -> Db.credit_many l1 us !! u = None.
Proof.
  intros Hperm. split; [| split].
  - apply map_eq. intros u.
    assert (Hc : credited l1 u = credited l2 u) by by apply credited_perm.
    by rewrite !credit_many_lookup, Hc.
  - intros u. apply credit_many_lookup.
  - intros u Hu. by rewrite credit_many_lookup, Hu.
Qed.

Lemma credit_order_is_irrelevant_witness :
  Db.credit_many [(5, 1); (7, 2); (3, 1); (4, 9)] {[ 1 := 10; 2 := 0 ]}
  = Db.credit_many [(4, 9); (3, 1); (7, 2); (5, 1)] {[ 1 := 10; 2 := 0 ]}.
Proof.
  apply (credit_order_is_irrelevant
           [(5, 1); (7, 2); (3, 1); (4, 9)] [(4, 9); (3, 1); (7, 2); (5, 1)]).
  apply (Permutation_rev [(5, 1); (7, 2); (3, 1); (4, 9)]).
Defined.

(** ** The timeout of a view *)

(** X17. When the timeout of a view elapses, [on_timeout] leaves it locked
    without touching the options, the dictionaries or the odds, and a
    second timeout changes nothing. If the view was open (or its buttons
    were disabled already), a click on either button is not delivered from
    then on: a wager changes neither the view nor the database, whatever
    the text. *)
Theorem timeout_closes_betting (v : PredictionView.t) (d : Db.t) :
  let v' := (PredictionView.on_timeout v).2 in
  (PredictionView.on_timeout v).1 = Ok tt
  /\ PredictionView.locked v' = true
  /\ PredictionView.option_a v' = PredictionView.option_a v
  /\ PredictionView.option_b v' = PredictionView.option_b v
  /\ PredictionView.option_a_points v' = PredictionView.option_a_points v
  /\ PredictionView.option_b_points v' = PredictionView.option_b_points v
  /\ PredictionView.odds_a v' = PredictionView.odds_a v
  /\ PredictionView.odds_b v' = PredictionView.odds_b v
  /\ PredictionView.on_timeout v' = (Ok tt, v')
  /\ (PredictionView.locked v = false \/ PredictionView.disabled v = true ->
      forall label uid value,
        PredictionView.wager label uid value (v', d) = (Ok Ignored, (v', d))).
Proof.
  cbn zeta. rewrite on_timeout_locks. cbn [fst snd].
  destruct (PredictionView.locked v) eqn:Hl.
  - do 8 (split; [done |]). split.
    + rewrite on_timeout_locks. by rewrite Hl.
    + intros [? | Hdis]; [done |]. intros label uid value.
      unfold PredictionView.wager, PredictionView.click, bind, get, ret.
      cbn [fst snd]. by rewrite Hdis.
  - do 8 (split; [done |]). split; [reflexivity |].
    intros _ label uid value. apply wager_ignored_when_locked.
Qed.

(** ** The recovery of a reachable prediction *)

(** What [restore_view] builds. *)
Lemma restore_view_fields (plat : Platform) (id : Z) (title a b : string)
    (thread message_id : Z) (pa pb : gmap Z Z) (lk : bool) (p : Prediction.t) :
  Prediction.restore_view plat id title a b thread message_id pa pb lk = Ok p ->
  Prediction.db_id p = Some id
  /\ Prediction.thread p = thread
  /\ Prediction.title p = title
  /\ Prediction.option_a p = a
  /\ Prediction.option_b p = b
  /\ PredictionView.update_embed
       (PredictionView.init a b (Some id) pa pb lk) = (Ok tt, Prediction.view p).
Proof.
  unfold Prediction.restore_view, result_bind.
  destruct (match fetch_message plat thread message_id with
            | Ok m => Ok (Some m)
            | Raise NotFound => Ok None
            | Raise e => Raise e
            end) as [fetched | e]; [| discriminate].
  destruct (PredictionView.update_embed _) as [[[] | e] v]; [| discriminate].
  by intros [= <-].
Qed.

(** The registry after the loop of the recovery, at a creator with one row
    among those of the loop. *)
Lemma restore_rows_registers (plat : Platform) (d0 : Db.t) (id : Z)
    (row : prediction_row) (thread : Z) (p : Prediction.t)
    (rows : list (Z * prediction_row)) (c : Points.t) (d : Db.t)
    (s' : Points.t * Db.t) :
  fetch_channel plat (row_thread_id row) = Ok thread ->
  Prediction.restore_view plat id (row_title row) (row_option_a row)
    (row_option_b row) thread (row_message_id row)
    (Points.split_bets (row_option_a row) (Db.get_bets_for_prediction d0 id)).1
    (Points.split_bets (row_option_a row) (Db.get_bets_for_prediction d0 id)).2
    (bool_decide (row_status row = Locked)) = Ok p ->
  (forall ir, ir ∈ rows ->
     ir = (id, row) \/ row_creator_id ir.2 <> row_creator_id row) ->
  Db.prediction_bets d = Db.prediction_bets d0 ->
  Points.predictions c !! row_creator_id row = Some p \/ (id, row) ∈ rows ->
  for_each rows (Points.restore_row plat) (c, d) = (Ok tt, s') ->
  Points.predictions s'.1 !! row_creator_id row = Some p.
Proof.
  intros Hfetch Hview. revert c d.
  induction rows as [| ir rows IH]; intros c d Hothers Hb Hor; cbn [for_each].
  - intros [= <-]. destruct Hor as [? | Hin]; [done |].
    by apply elem_of_nil in Hin.
  - unfold bind.
    destruct (Points.restore_row plat ir (c, d)) as [[[] | e] [c1 d1]] eqn:Hrow;
      [| discriminate].
    intros Hrest.
    destruct (restore_row_rows plat ir c d _ Hrow) as (Hb1 & _ & _ & _).
    cbn [fst snd] in Hb1.
    apply (IH c1 d1); [| congruence | | done].
    { intros ir' Hin. apply Hothers. apply elem_of_cons. by right. }
    destruct (Hothers ir ltac:(apply elem_of_cons; by left)) as [-> | Hne].
    + left. revert Hrow. unfold Points.restore_row. cbn [fst snd].
      rewrite Hfetch. unfold bind, get, lift. cbn [fst snd].
      rewrite (get_bets_for_prediction_bets d0 d id Hb), Hview.
      intros [= <- _]. cbn. apply lookup_insert_eq.
    + assert (Hreg : Points.predictions c1 !! row_creator_id row
                     = Points.predictions c !! row_creator_id row).
      { clear Hview. revert Hrow. unfold Points.restore_row.
        destruct ir as [id' row']. cbn [fst snd] in *.
        destruct (fetch_channel plat (row_thread_id row')) as [thread' | []];
          try discriminate.
        - unfold bind, get, lift. cbn [fst snd].
          destruct (Prediction.restore_view _ _ _ _ _ _ _ _ _ _) as [p' | e];
            [| discriminate].
          intros [= <- _]. cbn. by rewrite lookup_insert_ne.
        - unfold bind.
          destruct (refund_prediction_bets_run id' c d) as (d2 & -> & _).
          by intros [= <- _].
        - unfold bind.
          destruct (refund_prediction_bets_run id' c d) as (d2 & -> & _).
          by intros [= <- _]. }
      destruct Hor as [Hc | Hin]; [left; congruence |].
      apply elem_of_cons in Hin as [<- | Hin]; [done | by right].
Qed.

(** X18. The recovery of a reachable prediction. When
    [restore_predictions] completes, an active or locked prediction whose
    thread is fetched, and which is the only open one of its creator, is
    in the registry under its creator, with the id, the title, the options
    and the thread of its row; its view holds the dictionaries rebuilt from
    [prediction_bets] with the odds of these pools, and it is locked, its
    buttons disabled, exactly when the status of the row is locked. *)
Theorem recovery_restores_reachable
    (plat : Platform) (c : Points.t) (d0 : Db.t) (id : Z)
    (row : prediction_row) (s' : Points.t * Db.t) :
  Db.predictions d0 !! id = Some row ->
  row_status row = Active \/ row_status row = Locked ->
  unreachable plat row = false ->
  (forall id' row',
     Db.predictions d0 !! id' = Some row' ->
     row_creator_id row' = row_creator_id row ->
     row_status row' = Active \/ row_status row' = Locked ->
     id' = id) ->
  Points.restore_predictions plat (c, d0) = (Ok tt, s') ->
  exists p,
    Points.predictions s'.1 !! row_creator_id row = Some p
    /\ Prediction.db_id p = Some id
    /\ fetch_channel plat (row_thread_id row) = Ok (Prediction.thread p)
    /\ Prediction.title p = row_title row
    /\ Prediction.option_a p = row_option_a row
    /\ Prediction.option_b p = row_option_b row
    /\ (let v := Prediction.view p in
        let pts := Points.split_bets (row_option_a row)
                     (Db.get_bets_for_prediction d0 id) in
        PredictionView.option_a v = row_option_a row
        /\ PredictionView.option_b v = row_option_b row
        /\ PredictionView.prediction_id v = Some id
        /\ PredictionView.option_a_points v = pts.1
        /\ PredictionView.option_b_points v = pts.2
        /\ odds_current v
        /\ PredictionView.locked v = bool_decide (row_status row = Locked)
        /\ PredictionView.disabled v = bool_decide (row_status row = Locked)).
Proof.
  intros Hrow Hst Hreach Honly.
  unfold Points.restore_predictions, bind, get. cbn [fst snd]. intros Hrun.
  assert (Hin : (id, row) ∈ Db.get_restorable_predictions d0).
  { apply elem_of_get_restorable. split; [done |].
    unfold Db.restorable. destruct Hst as [-> | ->]; done. }
  destruct (restore_rows_rows plat d0 _ c d0 _ eq_refl Hrun) as (Hall & _ & _).
  pose proof (proj1 (Forall_forall _ _) Hall _ Hin) as Hres.
  destruct Hres as [Hun | (thread & p & Hfetch & Hview)];
    cbn [fst snd] in *; [congruence |].
  exists p.
  split.
  { apply (restore_rows_registers plat d0 id row thread p
             (Db.get_restorable_predictions d0) c d0); try done.
    - intros [id' row'] Hin'. cbn [snd].
      destruct (decide (row_creator_id row' = row_creator_id row)) as [Hc | Hc];
        [| by right].
      left. apply elem_of_get_restorable in Hin' as [Hrow' Hres'].
      assert (id' = id) as ->.
      { apply (Honly id' row'); [done | done |].
        unfold Db.restorable in Hres'.
        apply orb_true_iff in Hres' as [H | H];
          apply bool_decide_eq_true in H; tauto. }
      congruence.
    - by right. }
  destruct (restore_view_fields _ _ _ _ _ _ _ _ _ _ _ Hview)
    as (Hid & Hth & Hti & Ha & Hb & Hup).
  split; [done |]. split; [by rewrite Hth |].
  do 3 (split; [done |]).
  cbn zeta.
  destruct (update_embed_keeps _ _ Hup) as (-> & -> & -> & -> & -> & -> & ->).
  do 5 (split; [reflexivity |]).
  split; [by eapply update_embed_current |]. done.
Qed.

Lemma recovery_restores_reachable_witness :
  exists p,
    Points.predictions recovered.1 !! 9 = Some p
    /\ Prediction.db_id p = Some 6
    /\ PredictionView.option_a_points (Prediction.view p) = {[ 1 := 20 ]}
    /\ PredictionView.locked (Prediction.view p) = false.
Proof.
  destruct (recovery_restores_reachable plat_77_deleted Points.init
              db_two_predictions 6
              {| row_creator_id := 9; row_title := "second";
                 row_option_a := "A"; row_option_b := "B";
                 row_status := Active; row_winner := None;
                 row_thread_id := 78; row_message_id := 780 |} recovered)
    as (p & Hreg & Hid & _ & _ & _ & _ & _ & _ & _ & Ha & _ & _ & Hl & _).
  - reflexivity.
  - by left.
  - reflexivity.
  - intros id' row' Hrow' Hc _.
    change (Db.predictions db_two_predictions)
      with (<[5 := {| row_creator_id := 8; row_title := "first";
                      row_option_a := "A"; row_option_b := "B";
                      row_status := Locked; row_winner := None;
                      row_thread_id := 77; row_message_id := 770 |}]>
              ({[ 6 := {| row_creator_id := 9; row_title := "second";
                          row_option_a := "A"; row_option_b := "B";
                          row_status := Active; row_winner := None;
                          row_thread_id := 78; row_message_id := 780 |} ]}
               : gmap Z prediction_row)) in Hrow'.
    apply lookup_insert_Some in Hrow' as [[_ <-] | [_ Hrow']];
      [discriminate |].
    by apply lookup_singleton_Some in Hrow' as [<- _].
  - vm_compute. reflexivity.
  - exists p. split; [exact Hreg |]. split; [exact Hid |].
    split; [rewrite Ha; vm_compute; reflexivity | exact Hl].
Defined.

(** ** A payout is never below the stake *)

Lemma value_ge_offset (y m e k : Z) :
  0 <= k -> 0 <= e + k ->
  value_ge y m e <-> y * 2 ^ k <= m * 2 ^ (e + k).
Proof.
  intros Hk Hek. unfold value_ge.
  destruct (Z.le_gt_cases 0 e) as [He | He].
  - rewrite (Z.max_l 0 (- e)), (Z.max_r 0 e) by lia.
    rewrite Z.pow_0_r, Z.mul_1_r, Z.pow_add_r by lia.
    pose proof (Z.pow_pos_nonneg 2 k ltac:(lia) Hk).
    pose proof (Z.pow_pos_nonneg 2 e ltac:(lia) He).
    split; intros H1; nia.
  - rewrite (Z.max_r 0 (- e)), (Z.max_l 0 e) by lia.
    rewrite Z.pow_0_r, Z.mul_1_r.
    replace k with (- e + (e + k)) at 1 by lia.
    rewrite Z.pow_add_r by lia.
    pose proof (Z.pow_pos_nonneg 2 (e + k) ltac:(lia) Hek).
    pose proof (Z.pow_pos_nonneg 2 (- e) ltac:(lia) ltac:(lia)).
    split; intros H1; nia.
Qed.

Lemma value_ge_mono (y m m' e : Z) :
  m <= m' -> value_ge y m e -> value_ge y m' e.
Proof.
  unfold value_ge. intros Hm H.
  pose proof (Z.pow_pos_nonneg 2 (Z.max 0 e) ltac:(lia) ltac:(lia)). nia.
Qed.

Lemma Zdigits2_bounds (m : Z) :
  0 < m -> 2 ^ (Zdigits2 m - 1) <= m < 2 ^ Zdigits2 m.
Proof.
  intros Hm. rewrite Zdigits2_log2 by done.
  replace (Z.log2 m + 1 - 1) with (Z.log2 m) by lia.
  replace (Z.log2 m + 1) with (Z.succ (Z.log2 m)) by lia.
  by apply Z.log2_spec.
Qed.

Lemma value_ge_digits (y m e : Z) :
  0 < m -> 1 <= y -> value_ge y m e -> 1 <= Zdigits2 m + e.
Proof.
  intros Hm Hy H.
  destruct (Z.le_gt_cases 1 (Zdigits2 m + e)) as [| Hlow]; [done | exfalso].
  pose proof (Zdigits2_bounds m Hm) as [_ Hup].
  pose proof (Zdigits2_nonneg m).
  unfold value_ge in H.
  rewrite (Z.max_r 0 (- e)), (Z.max_l 0 e) in H by lia.
  rewrite Z.pow_0_r, Z.mul_1_r in H.
  assert (2 ^ Zdigits2 m <= 2 ^ (- e)) by (apply Z.pow_le_mono_r; lia).
  pose proof (Z.pow_pos_nonneg 2 (- e) ltac:(lia) ltac:(lia)). nia.
Qed.

(** The truncation of [shr_fexp] keeps a significand of 53 bits, so it
    stays at or above every integer below [2 ^ 53] that the number was at
    or above. *)
Lemma shr_fexp_value_ge (y m e : Z) (l : location) :
  0 < m -> 1 <= y < 2 ^ 53 -> value_ge y m e ->
  0 < shr_m (shr_fexp prec emax m e l).1
  /\ value_ge y (shr_m (shr_fexp prec emax m e l).1)
       (shr_fexp prec emax m e l).2.
Proof.
  intros Hm Hy Hge. unfold shr_fexp, shr.
  pose proof (value_ge_digits y m e Hm ltac:(lia) Hge) as Hd.
  assert (Hf : fexp prec emax (Zdigits2 m + e) - e = Zdigits2 m - 53).
  { unfold fexp, emin, prec, emax. lia. }
  rewrite Hf.
  destruct (Zdigits2 m - 53) as [| n | n] eqn:Hn; cbn [fst snd];
    rewrite ?shr_record_of_loc_m; try done.
  rewrite iter_pos_shr_m by (rewrite shr_record_of_loc_m; lia).
  rewrite shr_record_of_loc_m, Z.shiftr_div_pow2 by lia.
  pose proof (Zdigits2_bounds m Hm) as [Hlo _].
  pose proof (Z.pow_pos_nonneg 2 (Zpos n) ltac:(lia) ltac:(lia)) as Hp.
  assert (Hq : 2 ^ 52 <= m / 2 ^ Zpos n).
  { apply Z.div_le_lower_bound; [done |].
    rewrite <- Z.pow_add_r by lia.
    replace (Z.pos n + 52) with (Zdigits2 m - 1) by lia. done. }
  split; [lia |].
  destruct (Z.le_gt_cases (e + Zpos n) 0) as [Hneg | Hpos].
  - unfold value_ge in *.
    rewrite (Z.max_r 0 (- e)), (Z.max_l 0 e) in Hge by lia.
    rewrite (Z.max_r 0 (- (e + Zpos n))), (Z.max_l 0 (e + Zpos n)) by lia.
    rewrite Z.pow_0_r, Z.mul_1_r in *.
    apply Z.div_le_lower_bound; [done |].
    replace (- e) with (Zpos n + - (e + Zpos n)) in Hge by lia.
    rewrite Z.pow_add_r in Hge by lia. lia.
  - unfold value_ge.
    rewrite (Z.max_l 0 (- (e + Zpos n))), (Z.max_r 0 (e + Zpos n)) by lia.
    rewrite Z.pow_0_r, Z.mul_1_r.
    assert (Ht : 2 ^ 1 <= 2 ^ (e + Zpos n)) by (apply Z.pow_le_mono_r; lia).
    assert (Hprod : 2 ^ 52 * 2 ^ 1 <= m / 2 ^ Zpos n * 2 ^ (e + Zpos n))
      by (apply Z.mul_le_mono_nonneg; lia).
    lia.
Qed.

(** Rounding to nearest keeps every integer below [2 ^ 53] that the exact
    number is at or above. *)
Lemma binary_round_aux_at_least (y m e : Z) (l : location) :
  0 < m -> 1 <= y < 2 ^ 53 -> value_ge y m e ->
  at_least y (binary_round_aux prec emax false m e l).
Proof.
  intros Hm Hy Hge. unfold binary_round_aux.
  pose proof (shr_fexp_value_ge y m e l Hm Hy Hge) as [H1 H2].
  destruct (shr_fexp prec emax m e l) as [mrs' e'] eqn:E1. cbn [fst snd] in H1, H2.
  pose proof (round_nearest_even_bound (shr_m mrs') (loc_of_shr_record mrs')
                ltac:(lia)) as Hr.
  set (m2 := round_nearest_even (shr_m mrs') (loc_of_shr_record mrs')) in *.
  assert (Hge2 : value_ge y m2 e') by (apply (value_ge_mono y (shr_m mrs')); [lia | done]).
  pose proof (shr_fexp_value_ge y m2 e' loc_Exact ltac:(lia) Hy Hge2) as [H3 H4].
  destruct (shr_fexp prec emax m2 e' loc_Exact) as [mrs'' e''] eqn:E2.
  cbn [fst snd] in H3, H4.
  destruct (shr_m mrs'') as [| p | p]; [lia | | lia].
  destruct (e'' <=? emax - prec); done.
Qed.

Lemma shl_align_value_ge (y : Z) (m : positive) (e e' : Z) :
  value_ge y (Zpos m) e ->
  value_ge y (Zpos (shl_align m e e').1) (shl_align m e e').2.
Proof.
  intros Hge. unfold shl_align.
  destruct (e' - e) as [| d | d] eqn:Hd; cbn [fst snd]; try done.
  change (Pos.iter xO m d) with (shift_pos d m).
  rewrite shift_pos_correct, Z.pow_pos_fold.
  set (k := Z.max 0 (- e) + Zpos d).
  apply (value_ge_offset y _ e' k); [lia | lia |].
  apply (value_ge_offset y _ e k) in Hge; [| lia | lia].
  replace (e + k) with (Zpos d + (e' + k)) in Hge by lia.
  rewrite Z.pow_add_r in Hge by lia. lia.
Qed.

Lemma binary_round_at_least (y : Z) (m : positive) (e : Z) :
  1 <= y < 2 ^ 53 -> value_ge y (Zpos m) e ->
  at_least y (binary_round prec emax false m e).
Proof.
  intros Hy Hge. unfold binary_round.
  pose proof (shl_align_value_ge y m e
                (fexp prec emax (Zpos (digits2_pos m) + e)) Hge) as Hal.
  destruct (shl_align m e _) as [mz ez]. cbn [fst snd] in Hal.
  by apply binary_round_aux_at_least.
Qed.

(** [float(q)] is at least [q] for an integer from 1 to [2 ^ 53]. *)
Lemma float_of_int_at_least (q : Z) (f : spec_float) :
  1 <= q < 2 ^ 53 -> float_of_int q = Ok f -> at_least q f.
Proof.
  intros Hq. unfold float_of_int, binary_normalize.
  destruct q as [| p | p]; [lia | | lia].
  pose proof (binary_round_at_least (Zpos p) p 0 Hq) as Hb.
  assert (Hv : value_ge (Zpos p) (Zpos p) 0) by (unfold value_ge; change (Z.max 0 (- 0)) with 0; change (Z.max 0 0) with 0; lia).
  specialize (Hb Hv).
  destruct (binary_round prec emax false p 0) as [s | [] | | [] m e];
    try done; by intros [= <-].
Qed.

(** [1 + x] is at least 1 for a float [x] that is zero or positive. *)
Lemma one_plus_at_least (x : spec_float) (K : Z) :
  below K x -> at_least 1 (one_plus x).
Proof.
  intros Hx. unfold one_plus, one.
  change (SFone prec emax) with (S754_finite false 4503599627370496 (-52)).
  destruct x as [s | s | | [] mx ex]; try done.
  cbn [SFadd cond_Zopp].
  set (ez := Z.min (-52) ex).
  assert (H1 : value_ge 1 (Zpos (shl_align 4503599627370496 (-52) ez).1) ez).
  { pose proof (shl_align_value_ge 1 4503599627370496 (-52) ez) as H.
    rewrite shl_align_snd in H by (subst ez; lia).
    apply H. unfold value_ge. vm_compute. discriminate. }
  destruct (shl_align 4503599627370496 (-52) ez) as [m1 e1].
  destruct (shl_align mx ex ez) as [m2 e2].
  cbn [fst snd] in *.
  unfold binary_normalize.
  change (Zpos m1 + Zpos m2) with (Zpos (m1 + m2)).
  apply binary_round_at_least; [lia |].
  apply (value_ge_mono 1 (Zpos m1)); [lia | done].
Qed.

Lemma SFmul_at_least (x y : spec_float) (q Kx Ky : Z) :
  1 <= q < 2 ^ 53 ->
  below Kx x -> below Ky y ->
  at_least q x -> at_least 1 y ->
  at_least q (SFmul prec emax x y).
Proof.
  intros Hq Hbx Hby Hx Hy.
  destruct x as [sx | sx | | [] mx ex]; try done;
    destruct y as [sy | sy | | [] my ey]; try done.
  cbn [SFmul xorb]. cbn [at_least] in Hx, Hy.
  apply binary_round_aux_at_least; [lia | done |].
  set (k1 := Z.max 0 (- ex)). set (k2 := Z.max 0 (- ey)).
  apply (value_ge_offset q _ ex k1) in Hx; [| lia | lia].
  apply (value_ge_offset 1 _ ey k2) in Hy; [| lia | lia].
  apply (value_ge_offset q _ (ex + ey) (k1 + k2)); [lia | lia |].
  replace (ex + ey + (k1 + k2)) with ((ex + k1) + (ey + k2)) by lia.
  rewrite !Z.pow_add_r by lia.
  rewrite Pos2Z.inj_mul.
  pose proof (Z.pow_pos_nonneg 2 k1 ltac:(lia) ltac:(lia)).
  pose proof (Z.pow_pos_nonneg 2 k2 ltac:(lia) ltac:(lia)).
  pose proof (Z.pow_pos_nonneg 2 (ex + k1) ltac:(lia) ltac:(lia)).
  pose proof (Z.pow_pos_nonneg 2 (ey + k2) ltac:(lia) ltac:(lia)).
  nia.
Qed.

Lemma div_half_even_floor (m d : Z) : 0 < d -> m / d <= div_half_even m d.
Proof.
  intros Hd. unfold div_half_even.
  destruct (2 * (m mod d) ?= d); [destruct (Z.even (m / d)) | |]; lia.
Qed.

Lemma round_float_at_least (f : spec_float) (y a : Z) :
  at_least y f -> round_float f = Ok a -> y <= a.
Proof.
  destruct f as [s | [] | | [] m e]; try done.
  unfold at_least, value_ge, round_float. intros Hge [= <-].
  destruct e as [| k | k].
  - change (Z.max 0 (- 0)) with 0 in Hge. change (Z.max 0 0) with 0 in Hge.
    lia.
  - rewrite (Z.max_l 0 (- Zpos k)), (Z.max_r 0 (Zpos k)) in Hge by lia.
    rewrite Z.pow_0_r, Z.mul_1_r in Hge. done.
  - rewrite (Z.max_r 0 (- Zneg k)), (Z.max_l 0 (Zneg k)) in Hge by lia.
    rewrite Z.pow_0_r, Z.mul_1_r in Hge.
    change (- Zneg k) with (Zpos k) in Hge.
    pose proof (Z.pow_pos_nonneg 2 (Zpos k) ltac:(lia) ltac:(lia)) as Hp.
    etransitivity; [| apply div_half_even_floor; done].
    apply Z.div_le_lower_bound; [done | lia].
Qed.

(** The rounded payout is never below the stake. *)
Lemma round_mul_at_least (own opposite q a : Z) (m : num) :
  0 < own -> 0 <= opposite < 2 ^ 53 -> 1 <= q < 2 ^ 53 ->
  multiplier own opposite = Ok m ->
  round_mul q m = Ok a -> q <= a.
Proof.
  intros Hown Hopp Hq. unfold multiplier.
  destruct (Z.eqb_spec own 0) as [| _]; [lia |].
  destruct (truediv_below opposite own 53) as (f & Hf & Hbf); try lia.
  { apply Zdigits2_lt_pow2; lia. }
  rewrite Hf. cbn [result_bind]. intros [= <-].
  unfold round_mul, int_mul.
  destruct (float_of_int_below q 53) as (p & Hp & Hbp); try lia.
  { apply Zdigits2_lt_pow2; lia. }
  rewrite Hp. cbn [result_bind round]. intros Ha.
  apply (round_float_at_least _ _ _ (SFmul_at_least p (one_plus f) q _ _ Hq Hbp
           (one_plus_below f 54 Hbf ltac:(lia))
           (float_of_int_at_least q p Hq Hp)
           (one_plus_at_least f 54 Hbf)) Ha).
Qed.

(** X19. Nobody loses by a completion. Whoever the winner, with positive
    stakes, current odds and pools below [2 ^ 53], [complete_prediction]
    returns; every bettor of the winning side is credited at least the
    points they staked (their stake times a multiplier of at least 1,
    rounded; or their stake itself when one side is empty), and no
    balance goes down. *)
Theorem completion_pays_at_least_the_stake
    (p : Prediction.t) (d : Db.t) (winner : string) :
  let v := Prediction.view p in
  let a_wins := bool_decide (winner = Prediction.option_a p) in
  let win := if a_wins then PredictionView.option_a_points v
             else PredictionView.option_b_points v in
  let lose := if a_wins then PredictionView.option_b_points v
              else PredictionView.option_a_points v in
  positive_stakes win -> positive_stakes lose ->
  odds_current v ->
  sum_values win < 2 ^ 53 -> sum_values lose < 2 ^ 53 ->
  exists p' d',
    Prediction.complete_prediction winner (p, d) = (Ok tt, (p', d'))
    /\ (forall uid q, win !! uid = Some q ->
          exists a, q <= a
            /\ Db.users d' !! uid = (fun bal => bal + a) <$> Db.users d !! uid)
    /\ (forall uid,
          exists a, 0 <= a
            /\ Db.users d' !! uid = (fun bal => bal + a) <$> Db.users d !! uid).
Proof.
  intros v a_wins win lose Hpos Hposl Hcur Hbw Hbl.
  destruct (decide (win = ∅ \/ lose = ∅)) as [Hempty | Hfull].
  - (* one side is empty: the stakes are refunded *)
    assert (Hcond : negb (nonempty (PredictionView.option_a_points v))
                    || negb (nonempty (PredictionView.option_b_points v))
                    = true).
    { subst win lose. destruct a_wins; destruct Hempty as [H | H];
        apply nonempty_false in H; rewrite H; cbn; try done;
        apply orb_true_r. }
    assert (Hstakes : forall uid,
              stake win uid + stake lose uid
              = stake (PredictionView.option_a_points v) uid
                + stake (PredictionView.option_b_points v) uid).
    { intros uid. subst win lose. destruct a_wins; lia. }
    exists (Prediction.set_view (PredictionView.set_locked v) p).
    exists (Db.set_users
              (Db.credit_many
                 (items (PredictionView.option_a_points v)
                  ++ items (PredictionView.option_b_points v))) d).
    split; [| split].
    + unfold Prediction.complete_prediction, bind, get. simpl. fold v.
      rewrite Hcond. reflexivity.
    + intros uid q Hq. exists (stake win uid + stake lose uid).
      split.
      * pose proof (stake_nonneg lose uid Hposl). unfold stake at 1.
        rewrite Hq. cbn. lia.
      * simpl. rewrite refund_credits_stakes. by rewrite Hstakes.
    + intros uid. exists (stake win uid + stake lose uid). split.
      * pose proof (stake_nonneg win uid Hpos).
        pose proof (stake_nonneg lose uid Hposl). lia.
      * simpl. rewrite refund_credits_stakes. by rewrite Hstakes.
  - (* both sides hold bets: the winners are paid by the multiplier *)
    assert (Hwin : win <> ∅) by tauto.
    assert (Hlose : lose <> ∅) by tauto.
    destruct (odds_current_fields v Hcur) as [oa [ob [Hoa [Hob [Hfa Hfb]]]]].
    assert (Hm : exists m, multiplier (sum_values win) (sum_values lose) = Ok m
                   /\ (if a_wins then PredictionView.odds_a v
                       else PredictionView.odds_b v) = Some m).
    { subst win lose. destruct a_wins.
      - exists oa. by rewrite <- (odds_is_multiplier _ _ Hpos).
      - exists ob. by rewrite <- (odds_is_multiplier _ _ Hpos). }
    destruct Hm as (m & Hm & Hfield).
    destruct (multiplier_defined win lose 53 Hpos Hposl Hbw Hbl ltac:(lia))
      as (m' & Hm' & Hdef).
    rewrite Hm in Hm'. injection Hm' as <-.
    destruct (payout_credits m win (Db.users d) Hdef) as [data [Hdata [Hw Hl]]].
    pose proof (sum_values_pos win Hpos Hwin) as Hwpos.
    pose proof (sum_values_nonneg lose Hposl) as Hlnn.
    exists (Prediction.set_view (PredictionView.set_locked v) p).
    exists (Db.set_users (Db.credit_many data) d).
    split; [| split].
    + unfold Prediction.complete_prediction, bind, get. simpl. fold v.
      subst win lose. fold a_wins.
      destruct a_wins eqn:Hside.
      * apply nonempty_true in Hwin, Hlose. rewrite Hwin, Hlose. simpl.
        rewrite Hfield. simpl. unfold lift. rewrite Hdata. reflexivity.
      * apply nonempty_true in Hwin, Hlose. rewrite Hwin, Hlose. simpl.
        rewrite Hfield. simpl. unfold lift. rewrite Hdata. reflexivity.
    + intros uid q Hq. destruct (Hw uid q Hq) as (a & Ha & Hu).
      exists a. split; [| exact Hu].
      pose proof (stake_le_pool win uid q Hpos Hq) as Hle.
      apply (round_mul_at_least (sum_values win) (sum_values lose) q a m);
        try done; lia.
    + intros uid. cbn [Db.users Db.set_users].
      destruct (win !! uid) as [q |] eqn:Hq.
      * destruct (Hw uid q Hq) as (a & Ha & Hu).
        exists a. split; [| exact Hu].
        pose proof (stake_le_pool win uid q Hpos Hq) as Hle.
        assert (q <= a); [| lia].
        apply (round_mul_at_least (sum_values win) (sum_values lose) q a m);
          try done; lia.
      * exists 0. split; [done |]. rewrite (Hl uid Hq).
        row_arith (Db.users d !! uid).
Qed.

Lemma completion_pays_at_least_the_stake_witness :
  exists p' d',
    Prediction.complete_prediction "B"
      (prediction_of view_100_300_current, db_u1_u2) = (Ok tt, (p', d'))
    /\ exists a, 300 <= a /\ Db.users d' !! 2 = Some a.
Proof.
  destruct (completion_pays_at_least_the_stake
              (prediction_of view_100_300_current) db_u1_u2 "B")
    as (p' & d' & Hrun & Hw & _).
  - apply positive_stakes_singleton. reflexivity.
  - apply positive_stakes_singleton. reflexivity.
  - vm_compute. reflexivity.
  - vm_compute. reflexivity.
  - vm_compute. reflexivity.
  - exists p', d'. split; [exact Hrun |].
    destruct (Hw 2 300 eq_refl) as (a & Ha & Hu).
    exists a. split; [exact Ha |]. rewrite Hu. reflexivity.
Defined.

(** ** Clicks and submissions in any order *)

Lemma for_each_app {S A} (l1 l2 : list A) (body : A -> M S unit) (s : S) :
  for_each (l1 ++ l2) body s
  = (for_each l1 body ;; for_each l2 body)%py s.
Proof.
  revert s. induction l1 as [| x l1 IH]; intros s; cbn [for_each app].
  - reflexivity.
  - unfold bind. destruct (body x s) as [[[] | e] s1]; [| reflexivity].
    rewrite IH. reflexivity.
Qed.

(** What a submitted modal does when it returns. *)
Lemma modal_submit_inv (m : PredictionModal) (uid : Z) (value : string)
    (v v' : PredictionView.t) (d d' : Db.t) (r : modal_response) :
  PredictionView.modal_submit m uid value (v, d) = (Ok r, (v', d')) ->
  (r <> Deferred /\ v' = v /\ d' = d)
  \/ (r = Deferred
      /\ 0 < int value <= user_points m
      /\ PredictionView.update_embed (merged uid (int value) (modal_option m) v)
         = (Ok tt, v')
      /\ d' = escrowed uid (int value) (modal_option m) v d).
Proof.
  unfold PredictionView.modal_submit.
  destruct (negb (isdigit value)); [intros [= <- <- <-]; by left |].
  destruct (Z.leb_spec (int value) 0) as [| Hpos];
    [intros [= <- <- <-]; by left |].
  destruct (Z.ltb_spec (user_points m) (int value)) as [| Hle];
    [intros [= <- <- <-]; by left |].
  unfold bind, ret. rewrite modal_callback_run.
  destruct (PredictionView.update_embed _) as [[[] | e] v1] eqn:Hup;
    [| discriminate].
  intros [= <- <- <-]. right. repeat split; try done; lia.
Qed.

Lemma set_locked_current (v : PredictionView.t) :
  odds_current v -> odds_current (PredictionView.set_locked v).
Proof.
  intros Hcur.
  destruct (odds_current_fields v Hcur) as (oa & ob & Hoa & Hob & Hfa & Hfb).
  unfold odds_current. rewrite (update_embed_run _ oa ob) by done.
  unfold PredictionView.set_locked, PredictionView.set_odds_a,
    PredictionView.set_odds_b. cbn. by rewrite Hfa, Hfb.
Qed.

(** A click changes neither the view nor the database. *)
Lemma click_reads (label : string) (uid : Z) (v : PredictionView.t) (d : Db.t) :
  exists r,
    PredictionView.click label uid (v, d) = (Ok r, (v, d))
    /\ forall m, r = Some (SentModal m) ->
         modal_option m = label /\ user_points m = Db.select_points d uid.
Proof.
  unfold PredictionView.click, PredictionView.button_callback, bind, get, ret.
  cbn [fst snd]. destruct (PredictionView.disabled v).
  - eexists. split; [reflexivity |]. discriminate.
  - destruct (_ || _).
    + eexists. split; [reflexivity |]. discriminate.
    + eexists. split; [reflexivity |]. by intros m [= <-].
Qed.

Lemma set_view_same (p : Prediction.t) :
  Prediction.set_view (Prediction.view p) p = p.
Proof. by destruct p. Qed.

(** A wager merged on the side the user holds, or by a user who holds
    nothing, keeps the persisted bets in step with the view. *)
Lemma modal_callback_mirror (uid points pid : Z) (option : string)
    (v v' : PredictionView.t) (d : Db.t) :
  same_side v option uid ->
  PredictionView.option_a v <> PredictionView.option_b v ->
  option = PredictionView.option_a v \/ option = PredictionView.option_b v ->
  PredictionView.truthy_id (PredictionView.prediction_id v) = Some pid ->
  bets_mirror v d pid ->
  PredictionView.update_embed (merged uid points option v) = (Ok tt, v') ->
  bets_mirror v' (escrowed uid points option v d) pid.
Proof.
  intros [Hsa Hsb] Hopt Hlabel Hid Hm Hup.
  destruct (update_embed_keeps _ _ Hup) as (Eoa & Eob & Eap & Ebp & _).
  assert (Eoa' : PredictionView.option_a v' = PredictionView.option_a v).
  { rewrite Eoa. unfold merged. by case_bool_decide. }
  assert (Eob' : PredictionView.option_b v' = PredictionView.option_b v).
  { rewrite Eob. unfold merged. by case_bool_decide. }
  intros u. rewrite Eoa', Eob', Eap, Ebp, merged_a_points, merged_b_points.
  destruct (decide (u = uid)) as [-> | Hne].
  - rewrite (escrowed_bets _ _ _ _ _ _ Hid), (Hm uid). unfold stake.
    case_bool_decide as Hon.
    + rewrite (Hsa Hon), lookup_insert_eq.
      destruct (PredictionView.option_a_points v !! uid) as [x |]; cbn.
      * done.
      * by rewrite Hon.
    + destruct Hlabel as [? | Hlb]; [done |].
      rewrite (Hsb Hlb), lookup_insert_eq.
      destruct (PredictionView.option_b_points v !! uid) as [y |]; cbn.
      * done.
      * by rewrite Hlb.
  - assert (Hbets : Db.bets_of (escrowed uid points option v d) pid !! u
                    = Db.bets_of d pid !! u).
    { unfold escrowed. rewrite Hid. unfold Db.place_bet_db, Db.bets_of. cbn.
      rewrite lookup_insert_eq. cbn. by rewrite lookup_insert_ne. }
    rewrite Hbets, (Hm u).
    case_bool_decide;
      by rewrite insert_delete_eq, lookup_insert_ne.
Qed.

(** What a submission that [modal_callback] takes keeps and changes. *)
Lemma merged_keeps (B : Z) (uid points : Z) (option : string)
    (v v' : PredictionView.t) (d : Db.t) :
  positive_stakes (PredictionView.option_a_points v) ->
  positive_stakes (PredictionView.option_b_points v) ->
  0 < points <= B ->
  is_Some (Db.users d !! uid) ->
  PredictionView.update_embed (merged uid points option v) = (Ok tt, v') ->
  let d' := escrowed uid points option v d in
  positive_stakes (PredictionView.option_a_points v')
  /\ positive_stakes (PredictionView.option_b_points v')
  /\ odds_current v'
  /\ PredictionView.option_a v' = PredictionView.option_a v
  /\ PredictionView.option_b v' = PredictionView.option_b v
  /\ PredictionView.prediction_id v' = PredictionView.prediction_id v
  /\ Db.predictions d' = Db.predictions d
  /\ Db.users d' = Db.sub_points points uid (Db.users d)
  /\ total_points v' d' = total_points v d
  /\ pools v' = pools v + points
  /\ (one_sided v' ->
      one_sided v
      /\ (PredictionView.option_a v <> PredictionView.option_b v ->
          same_side v option uid)).
Proof.
  intros Ha Hb [Hpos HB] [bal Hbal] Hup. cbn zeta.
  destruct (update_embed_keeps _ _ Hup) as (Eoa & Eob & Eap & Ebp & _ & _ & Eid).
  split; [| split; [| split; [by eapply update_embed_current |]]].
  { rewrite Eap, merged_a_points. case_bool_decide; [| done].
    by apply positive_stakes_merge. }
  { rewrite Ebp, merged_b_points. case_bool_decide; [done |].
    by apply positive_stakes_merge. }
  split; [rewrite Eoa; unfold merged; by case_bool_decide |].
  split; [rewrite Eob; unfold merged; by case_bool_decide |].
  split; [rewrite Eid; unfold merged; by case_bool_decide |].
  split; [unfold escrowed; by destruct (PredictionView.truthy_id _) |].
  split; [apply escrowed_users |].
  split; [| split].
  - unfold total_points. rewrite escrowed_users. unfold Db.sub_points.
    rewrite (sum_values_alter _ _ _ _ Hbal), Eap, Ebp.
    rewrite merged_a_points, merged_b_points.
    case_bool_decide; rewrite sum_values_merge; lia.
  - unfold pools. rewrite Eap, Ebp, merged_a_points, merged_b_points.
    case_bool_decide; rewrite sum_values_merge; lia.
  - intros Hone.
    assert (Hlook : forall u,
              PredictionView.option_a_points v' !! u = None
              \/ PredictionView.option_b_points v' !! u = None) by exact Hone.
    setoid_rewrite Eap in Hlook. setoid_rewrite Ebp in Hlook.
    setoid_rewrite merged_a_points in Hlook.
    setoid_rewrite merged_b_points in Hlook.
    split.
    + intros u. specialize (Hlook u). revert Hlook.
      case_bool_decide as Hon; rewrite insert_delete_eq;
        (destruct (decide (u = uid)) as [-> | Hne];
         [rewrite lookup_insert_eq | rewrite lookup_insert_ne by done]);
        intros [Hl | Hl]; try done; by (left + right).
    + intros Hopt. specialize (Hlook uid). revert Hlook.
      case_bool_decide as Hon; rewrite insert_delete_eq, lookup_insert_eq;
        intros [Hl | Hl]; try done; split; try done.
      * intros Heq. exfalso. apply Hopt. congruence.
Qed.

(** What one handler keeps, when it returns. *)
Lemma step_keeps (B : Z) (st : step) (s s' : table) :
  let v := Prediction.view s.2.1 in
  let v' := Prediction.view s'.2.1 in
  0 <= B ->
  sound_table B s ->
  allowed (PredictionView.option_a v) (PredictionView.option_b v) st ->
  run_step st s = (Ok tt, s') ->
  sound_table B s'
  /\ PredictionView.option_a v' = PredictionView.option_a v
  /\ PredictionView.option_b v' = PredictionView.option_b v
  /\ PredictionView.prediction_id v' = PredictionView.prediction_id v
  /\ Db.predictions s'.2.2 = Db.predictions s.2.2
  /\ total_points v' s'.2.2 = total_points v s.2.2
  /\ pools v <= pools v' <= pools v + B
  /\ (forall u, Db.select_points s'.2.2 u <= Db.select_points s.2.2 u)
  /\ (one_sided v' -> one_sided v)
  /\ (forall pid,
        PredictionView.option_a v <> PredictionView.option_b v ->
        PredictionView.truthy_id (PredictionView.prediction_id v) = Some pid ->
        (one_sided v -> bets_mirror v s.2.2 pid) ->
        one_sided v' -> bets_mirror v' s'.2.2 pid).
Proof.
  cbn zeta. destruct s as [ms [p d]]. cbn [fst snd].
  set (v := Prediction.view p). set (v' := Prediction.view s'.2.1).
  intros HB Hsound Hallowed.
  assert (Hsame : forall ms1 p1,
            Prediction.view p1 = v ->
            s' = (ms1, (p1, d)) ->
            (forall uid m, (uid, m) ∈ ms1 ->
               (modal_option m = PredictionView.option_a v
                \/ modal_option m = PredictionView.option_b v)
               /\ user_points m <= B
               /\ (0 < user_points m -> is_Some (Db.users d !! uid))) ->
            sound_table B s'
            /\ PredictionView.option_a v' = PredictionView.option_a v
            /\ PredictionView.option_b v' = PredictionView.option_b v
            /\ PredictionView.prediction_id v' = PredictionView.prediction_id v
            /\ Db.predictions s'.2.2 = Db.predictions d
            /\ total_points v' s'.2.2 = total_points v d
            /\ pools v <= pools v' <= pools v + B
            /\ (forall u, Db.select_points s'.2.2 u <= Db.select_points d u)
            /\ (one_sided v' -> one_sided v)
            /\ (forall pid,
                  PredictionView.option_a v <> PredictionView.option_b v ->
                  PredictionView.truthy_id (PredictionView.prediction_id v)
                  = Some pid ->
                  (one_sided v -> bets_mirror v d pid) ->
                  one_sided v' -> bets_mirror v' s'.2.2 pid)).
  { intros ms1 p1 Hp1 -> Hms1. subst v'. cbn [fst snd]. rewrite Hp1.
    destruct Hsound as (Ha & Hb & Hcur & Hbal & _). cbn [fst snd] in *.
    split.
    { unfold sound_table. cbn [fst snd]. rewrite Hp1. done. }
    do 5 (split; [done |]). split; [lia |]. split; [done |].
    split; [done |]. intros pid _ _ Hm Hone. by apply Hm. }
  destruct Hsound as (Ha & Hb & Hcur & Hbal & Hmod). cbn [fst snd] in *.
  fold v in Ha, Hb, Hcur, Hmod.
  destruct st as [label uid | k value |]; cbn [run_step fst snd allowed] in *.
  - (* a click *)
    unfold Prediction.in_view. cbn [fst snd]. fold v.
    destruct (click_reads label uid v d) as (r & -> & Hr).
    assert (Hold : forall uid0 m0, (uid0, m0) ∈ ms ->
              (modal_option m0 = PredictionView.option_a v
               \/ modal_option m0 = PredictionView.option_b v)
              /\ user_points m0 <= B
              /\ (0 < user_points m0 -> is_Some (Db.users d !! uid0)))
      by exact Hmod.
    destruct r as [[| m] |]; intros [= <-].
    + by apply (Hsame ms (Prediction.set_view v p)).
    + apply (Hsame ((uid, m) :: ms) (Prediction.set_view v p)); [done | done |].
      intros uid0 m0 Hin. apply elem_of_cons in Hin as [[= -> ->] | Hin];
        [| by apply Hold].
      destruct (Hr m eq_refl) as [-> ->].
      split; [done |]. unfold Db.select_points.
      destruct (Db.users d !! uid) as [bal |] eqn:Hrow; cbn.
      * split; [by apply (Hbal uid) | by eexists].
      * split; [done | lia].
    + by apply (Hsame ms (Prediction.set_view v p)).
  - (* a submission *)
    destruct (ms !! k) as [[uid m] |] eqn:Hk.
    2: { intros [= <-]. by apply (Hsame ms p). }
    assert (Hin : (uid, m) ∈ ms) by by eapply list_elem_of_lookup_2.
    assert (Hsub : forall x, x ∈ delete k ms -> x ∈ ms).
    { intros x Hx. eapply elem_of_sublist; [exact Hx | apply sublist_delete]. }
    destruct (Hmod uid m Hin) as (Hoption & HmB & Hrow).
    unfold Prediction.in_view. cbn [fst snd]. fold v.
    destruct (PredictionView.modal_submit m uid value (v, d))
      as [[r | e] [v1 d1]] eqn:Hsubmit; [| discriminate].
    intros [= <-].
    apply modal_submit_inv in Hsubmit
      as [(_ & -> & ->) | (_ & [Hpos Hle] & Hup & ->)].
    { apply (Hsame (delete k ms) (Prediction.set_view v p)); [done | done |].
      intros uid0 m0 Hin0. by apply Hmod, Hsub. }
    destruct (merged_keeps B uid (int value) (modal_option m) v v1 d
                Ha Hb ltac:(lia) (Hrow ltac:(lia)) Hup)
      as (Ha1 & Hb1 & Hcur1 & Eoa & Eob & Eid & Ep & Eu & Et & Epools & Hone).
    subst v'. cbn [fst snd Prediction.view Prediction.set_view].
    split.
    { unfold sound_table.
      cbn [fst snd Prediction.view Prediction.set_view].
      split; [done |]. split; [done |]. split; [done |]. split.
      - intros u bal. rewrite Eu. unfold Db.sub_points.
        destruct (decide (u = uid)) as [-> | Hne].
        + rewrite lookup_alter_eq.
          destruct (Db.users d !! uid) as [b0 |] eqn:Hb0; [| done].
          cbn. intros [= <-]. pose proof (Hbal uid b0 Hb0). lia.
        + rewrite lookup_alter_ne by done. apply Hbal.
      - intros uid0 m0 Hin0. destruct (Hmod uid0 m0 (Hsub _ Hin0))
          as (Ho0 & HB0 & Hrow0).
        rewrite Eoa, Eob. split; [done |]. split; [done |].
        intros Hp0. rewrite Eu. unfold Db.sub_points.
        destruct (decide (uid0 = uid)) as [-> | Hne].
        + rewrite lookup_alter_eq. destruct (Hrow0 Hp0) as [b0 ->]. by eexists.
        + rewrite lookup_alter_ne by done. by apply Hrow0. }
    do 5 (split; [done |]). split; [lia |]. split.
    { intros u. unfold Db.select_points. rewrite Eu. unfold Db.sub_points.
      destruct (decide (u = uid)) as [-> | Hne].
      - rewrite lookup_alter_eq. destruct (Db.users d !! uid); cbn; lia.
      - by rewrite lookup_alter_ne. }
    split; [by intros H1; apply Hone |].
    intros pid Hopt Hid Hm Hone1. destruct (Hone Hone1) as [Hone0 Hside].
    apply modal_callback_mirror; try done; [by apply Hside | by apply Hm].
  - (* the lock *)
    unfold Prediction.lock_prediction, bind, get, ret. cbn [fst snd]. fold v.
    destruct (PredictionView.locked v) eqn:Hl.
    + intros [= <-]. by apply (Hsame ms p).
    + intros [= <-]. subst v'.
      cbn [fst snd Prediction.view Prediction.set_view].
      split.
      { unfold sound_table.
        cbn [fst snd Prediction.view Prediction.set_view].
        split; [done |]. split; [done |].
        split; [by apply set_locked_current |]. done. }
      do 5 (split; [done |]). split; [unfold pools; subst v; cbn; lia |].
      split; [done |]. split; [done |].
      intros pid _ _ Hm Hone. by apply Hm.
Qed.

(** A handler returns while the pools, with the most that a modal offers
    added, stay below [2 ^ 480]. *)
Lemma step_returns (B : Z) (st : step) (s : table) :
  0 <= B ->
  sound_table B s ->
  pools (Prediction.view s.2.1) + B < 2 ^ 480 ->
  exists s', run_step st s = (Ok tt, s').
Proof.
  destruct s as [ms [p d]]. cbn [fst snd].
  intros HB (Ha & Hb & Hcur & Hbal & Hmod) Hpools. cbn [fst snd] in *.
  destruct st as [label uid | k value |]; cbn [run_step fst snd].
  - unfold Prediction.in_view. cbn [fst snd].
    destruct (click_reads label uid (Prediction.view p) d) as (r & -> & _).
    destruct r as [[| m] |]; by eexists.
  - destruct (ms !! k) as [[uid m] |] eqn:Hk; [| by eexists].
    destruct (Hmod uid m ltac:(by eapply list_elem_of_lookup_2))
      as (_ & HmB & _).
    unfold Prediction.in_view. cbn [fst snd].
    unfold PredictionView.modal_submit.
    destruct (negb (isdigit value)); [by eexists |].
    destruct (Z.leb_spec (int value) 0) as [| Hpos]; [by eexists |].
    destruct (Z.ltb_spec (user_points m) (int value)) as [| Hle];
      [by eexists |].
    pose proof (sum_values_nonneg _ Ha). pose proof (sum_values_nonneg _ Hb).
    unfold pools in Hpools.
    destruct (modal_callback_returns uid (int value) (modal_option m)
                (Prediction.view p) d Ha Hb Hpos ltac:(lia) ltac:(lia))
      as (v1 & Hcb).
    unfold bind, ret. rewrite Hcb. by eexists.
  - unfold Prediction.lock_prediction, bind, get, ret. cbn [fst snd].
    destruct (PredictionView.locked (Prediction.view p)); by eexists.
Qed.

(** What any handlers keep, when they all return. *)
Lemma steps_keep (B : Z) (steps : list step) (s s' : table) :
  let v := Prediction.view s.2.1 in
  let v' := Prediction.view s'.2.1 in
  0 <= B ->
  sound_table B s ->
  Forall (allowed (PredictionView.option_a v) (PredictionView.option_b v))
    steps ->
  for_each steps run_step s = (Ok tt, s') ->
  sound_table B s'
  /\ PredictionView.option_a v' = PredictionView.option_a v
  /\ PredictionView.option_b v' = PredictionView.option_b v
  /\ PredictionView.prediction_id v' = PredictionView.prediction_id v
  /\ Db.predictions s'.2.2 = Db.predictions s.2.2
  /\ total_points v' s'.2.2 = total_points v s.2.2
  /\ pools v <= pools v' <= pools v + B * Z.of_nat (length steps)
  /\ (forall u, Db.select_points s'.2.2 u <= Db.select_points s.2.2 u)
  /\ (one_sided v' -> one_sided v)
  /\ (forall pid,
        PredictionView.option_a v <> PredictionView.option_b v ->
        PredictionView.truthy_id (PredictionView.prediction_id v) = Some pid ->
        (one_sided v -> bets_mirror v s.2.2 pid) ->
        one_sided v' -> bets_mirror v' s'.2.2 pid).
Proof.
  cbn zeta. intros HB. revert s.
  induction steps as [| st steps IH]; intros s Hsound Hall; cbn [for_each].
  - intros [= <-]. split; [done |]. do 5 (split; [done |]).
    split; [cbn; lia |]. split; [done |]. split; [done |].
    intros pid _ _ Hm Hone. by apply Hm.
  - apply Forall_cons in Hall as [Hst Hall]. unfold bind.
    destruct (run_step st s) as [[[] | e] s1] eqn:Hrun; [| discriminate].
    intros Hrest.
    destruct (step_keeps B st s s1 HB Hsound Hst Hrun)
      as (Hsound1 & Ea & Eb & Ei & Ep & Et & Hpools & Hbal & Hone & Hmir).
    rewrite <- Ea, <- Eb in Hall.
    destruct (IH s1 Hsound1 Hall Hrest)
      as (Hsound' & Ea' & Eb' & Ei' & Ep' & Et' & Hpools' & Hbal' & Hone'
          & Hmir').
    split; [done |]. split; [congruence |]. split; [congruence |].
    split; [congruence |]. split; [congruence |]. split; [congruence |].
    split.
    { cbn [length]. rewrite Nat2Z.inj_succ. nia. }
    split.
    { intros u. specialize (Hbal u). specialize (Hbal' u). lia. }
    split; [by intros H; apply Hone, Hone' |].
    intros pid Hopt Hid Hm Hfinal. apply Hmir'; try done.
    + congruence.
    + congruence.
    + intros Hone1. by apply Hmir.
Qed.

(** ... and they all return while the pools cannot reach [2 ^ 480]. *)
Lemma steps_return (B : Z) (steps : list step) (s : table) :
  let v := Prediction.view s.2.1 in
  0 <= B ->
  sound_table B s ->
  pools v + B * Z.of_nat (length steps) < 2 ^ 480 ->
  Forall (allowed (PredictionView.option_a v) (PredictionView.option_b v))
    steps ->
  exists s', for_each steps run_step s = (Ok tt, s').
Proof.
  cbn zeta. intros HB. revert s.
  induction steps as [| st steps IH]; intros s Hsound Hpools Hall;
    cbn [for_each].
  - by eexists.
  - apply Forall_cons in Hall as [Hst Hall]. unfold bind.
    cbn [length] in Hpools. rewrite Nat2Z.inj_succ in Hpools.
    destruct (step_returns B st s HB Hsound ltac:(nia)) as (s1 & Hrun).
    rewrite Hrun.
    destruct (step_keeps B st s s1 HB Hsound Hst Hrun)
      as (Hsound1 & Ea & Eb & _ & _ & _ & Hp1 & _).
    apply IH; [done | nia |]. by rewrite Ea, Eb.
Qed.

(** A click whose modal is submitted at once is the wager of
    [PredictionView.wager]. *)
Lemma at_once_run (e : event) (s : Prediction.t * Db.t) :
  for_each (at_once e) run_step ([], s)
  = ((run_event e s).1, ([], (run_event e s).2)).
Proof.
  destruct s as [p d]. destruct e as [label uid value |];
    cbn [at_once for_each run_event].
  - unfold bind at 1 2. cbn [run_step fst snd].
    unfold bind, ret, Prediction.in_view, PredictionView.wager. cbn [fst snd].
    unfold bind, ret.
    destruct (click_reads label uid (Prediction.view p) d) as (r & -> & _).
    destruct r as [[| m] |]; cbn [lookup fst snd]; try reflexivity.
    cbn.
    destruct (PredictionView.modal_submit m uid value (Prediction.view p, d))
      as [[r | x] [v1 d1]]; reflexivity.
  - unfold bind, ret. cbn [run_step fst snd].
    destruct (Prediction.lock_prediction (p, d)) as [[[] | x] pd];
      reflexivity.
Qed.

Lemma at_once_runs (events : list event) (s : Prediction.t * Db.t) :
  for_each (flat_map at_once events) run_step ([], s)
  = ((for_each events run_event s).1, ([], (for_each events run_event s).2)).
Proof.
  revert s. induction events as [| e events IH]; intros s;
    cbn [flat_map for_each]; [reflexivity |].
  rewrite for_each_app. unfold bind. rewrite at_once_run.
  destruct (run_event e s) as [[[] | x] s1]; cbn [fst snd]; [| reflexivity].
  apply IH.
Qed.

Lemma at_once_allowed (oa ob : string) (events : list event) :
  Forall (allowed oa ob) (flat_map at_once events) ->
  Forall (offered oa ob) events.
Proof.
  induction events as [| e events IH]; cbn [flat_map]; [done |].
  intros Hall. apply Forall_app in Hall as [He Hall].
  apply Forall_cons. split; [| by apply IH].
  destruct e as [label uid value |]; [| done].
  by apply Forall_cons in He as [He _].
Qed.

Lemma balances_bounded (us : gmap Z Z) :
  exists B, 0 <= B /\ forall u bal, us !! u = Some bal -> bal <= B.
Proof.
  induction us as [| k b us Hnone (B & HB & IH)] using map_ind.
  - exists 0. split; [done |]. intros u bal Hu. by rewrite lookup_empty in Hu.
  - exists (Z.max B b). split; [lia |]. intros u bal Hu.
    apply lookup_insert_Some in Hu as [[_ <-] | [_ Hu]]; [lia |].
    specialize (IH u bal Hu). lia.
Qed.

(** X10. Clicks whose modal is submitted at once, and locks. When every
    modal is submitted right after the click that opened it, before any
    other click, submission or lock, with ASCII texts: from a view with
    positive stakes, current odds and nobody on both sides, while no
    balance is negative and the balances and the two pools together are
    below [2 ^ 480], every handler returns (no division by zero, no
    overflow) and no modal stays open; afterwards no balance is negative,
    the points of all users and pools together are as many as before, all
    stakes are positive, no user holds points on both sides, and the odds
    stored in the view are those of its pools. *)
Theorem wagers_return_and_conserve
    (events : list event) (p : Prediction.t) (d : Db.t) :
  let v := Prediction.view p in
  view_ok v ->
  solvent d ->
  total_points v d < 2 ^ 480 ->
  Forall (allowed (PredictionView.option_a v) (PredictionView.option_b v))
    (flat_map at_once events) ->
  exists p' d',
    for_each (flat_map at_once events) run_step ([], (p, d))
    = (Ok tt, ([], (p', d')))
    /\ solvent d'
    /\ total_points (Prediction.view p') d' = total_points v d
    /\ view_ok (Prediction.view p').
Proof.
  intros v Hok Hsolv Htot Hall.
  pose proof (at_once_allowed _ _ events Hall) as Hoff.
  destruct (events_return events p d Hok Hsolv Htot Hoff) as ([p' d'] & Hrun).
  destruct (events_keep events p p' d d' Hok Hoff Hrun)
    as (Hok' & _ & _ & _ & _ & Hkeep & _).
  destruct (Hkeep Hsolv) as [Hs Ht].
  exists p', d'. split; [| done].
  by rewrite at_once_runs, Hrun.
Qed.

Lemma wagers_return_and_conserve_witness :
  exists p' d',
    for_each (flat_map at_once events_at_once) run_step
      ([], (fresh_prediction, db_u1_u2_rich)) = (Ok tt, ([], (p', d')))
    /\ solvent d'
    /\ total_points (Prediction.view p') d' = 580
    /\ view_ok (Prediction.view p').
Proof.
  destruct (wagers_return_and_conserve events_at_once
              fresh_prediction db_u1_u2_rich)
    as (p' & d' & Hrun & Hs & Ht & Hok).
  - exact fresh_prediction_view_ok.
  - exact solvent_u1_u2_rich.
  - vm_compute. reflexivity.
  - repeat constructor; (by left) || (by right).
  - exists p', d'. split; [exact Hrun |]. split; [exact Hs |].
    split; [| exact Hok]. rewrite Ht. vm_compute. reflexivity.
Defined.

(** X11. The bets survive a restart, for the users on one side. Clicks,
    submissions of the modals they opened (with ASCII texts) and locks run
    in any order on a view with a prediction id and two different options,
    whose entries [prediction_bets] holds. When they have returned and no
    user holds points on both options, [prediction_bets] holds the entries
    of the two dictionaries again; the dictionaries that
    [restore_predictions] rebuilds from the table are then those of the
    view in memory, and the view that [restore_view] makes of them has the
    same options, id, dictionaries and odds. *)
Theorem restart_rebuilds_view
    (steps : list step) (p p' : Prediction.t) (d d' : Db.t) (pid : Z)
    (open' : list (Z * PredictionModal)) :
  let v := Prediction.view p in
  let v' := Prediction.view p' in
  view_ok v ->
  PredictionView.option_a v <> PredictionView.option_b v ->
  PredictionView.truthy_id (PredictionView.prediction_id v) = Some pid ->
  bets_mirror v d pid ->
  Forall (allowed (PredictionView.option_a v) (PredictionView.option_b v))
    steps ->
  for_each steps run_step ([], (p, d)) = (Ok tt, (open', (p', d'))) ->
  one_sided v' ->
  bets_mirror v' d' pid
  /\ Points.split_bets (PredictionView.option_a v')
       (Db.get_bets_for_prediction d' pid)
     = (PredictionView.option_a_points v', PredictionView.option_b_points v')
  /\ forall plat title thread message_id lk restored,
       Prediction.restore_view plat pid title
         (PredictionView.option_a v') (PredictionView.option_b v')
         thread message_id
         (Points.split_bets (PredictionView.option_a v')
            (Db.get_bets_for_prediction d' pid)).1
         (Points.split_bets (PredictionView.option_a v')
            (Db.get_bets_for_prediction d' pid)).2 lk = Ok restored ->
       let w := Prediction.view restored in
       PredictionView.option_a_points w = PredictionView.option_a_points v'
       /\ PredictionView.option_b_points w = PredictionView.option_b_points v'
       /\ PredictionView.odds_a w = PredictionView.odds_a v'
       /\ PredictionView.odds_b w = PredictionView.odds_b v'
       /\ PredictionView.option_a w = PredictionView.option_a v'
       /\ PredictionView.option_b w = PredictionView.option_b v'
       /\ PredictionView.prediction_id w = PredictionView.prediction_id v'
       /\ PredictionView.locked w = lk
       /\ PredictionView.disabled w = lk.
Proof.
  intros v v' (Ha & Hb & Hcur & Hside) Hopt Hid Hm Hall Hrun Hone.
  destruct (balances_bounded (Db.users d)) as (B & HB & Hbal).
  assert (Hsound : sound_table B ([], (p, d))).
  { split; [done |]. split; [done |]. split; [done |].
    split; [exact Hbal |]. intros uid m Hin. by apply elem_of_nil in Hin. }
  destruct (steps_keep B steps _ _ HB Hsound Hall Hrun)
    as ((_ & _ & Hcur' & _) & Ea & Eb & Ei & _ & _ & _ & _ & _ & Hmir).
  cbn [fst snd] in *. fold v v' in Hcur', Ea, Eb, Ei, Hmir.
  assert (Hm' : bets_mirror v' d' pid) by by apply Hmir.
  assert (Hsplit : Points.split_bets (PredictionView.option_a v')
                     (Db.get_bets_for_prediction d' pid)
                   = (PredictionView.option_a_points v',
                      PredictionView.option_b_points v')).
  { apply split_bets_mirror; [congruence | done | done]. }
  split; [done |]. split; [done |].
  intros plat title thread message_id lk restored. rewrite Hsplit.
  cbn [fst snd]. unfold Prediction.restore_view, result_bind.
  destruct (match fetch_message plat thread message_id with
            | Ok m => Ok (Some m)
            | Raise NotFound => Ok None
            | Raise e => Raise e
            end) as [fetched | e]; [| discriminate].
  destruct (odds_current_fields v' Hcur') as (oa & ob & Hoa & Hob & Hfa & Hfb).
  rewrite (update_embed_run _ oa ob) by done.
  intros [= <-]. cbn. rewrite Hfa, Hfb.
  do 6 (split; [reflexivity |]). split; [| done].
  rewrite Ei. unfold PredictionView.truthy_id in Hid.
  destruct (PredictionView.prediction_id v) as [z |]; [| discriminate].
  destruct (Z.eqb_spec z 0); [discriminate |]. by injection Hid as ->.
Qed.

Lemma restart_rebuilds_view_witness :
  Points.split_bets "A" (Db.get_bets_for_prediction after_interleaved.2.2 1)
  = ({[ 1 := 100 ]}, {[ 2 := 50 ]}).
Proof.
  destruct (restart_rebuilds_view steps_interleaved fresh_prediction
              after_interleaved.2.1 db_u1_u2_rich after_interleaved.2.2 1
              after_interleaved.1) as (_ & Hsplit & _).
  - exact fresh_prediction_view_ok.
  - discriminate.
  - reflexivity.
  - exact fresh_prediction_mirror.
  - repeat constructor; (by left) || (by right).
  - vm_compute. reflexivity.
  - intros u.
    change (PredictionView.option_a_points
              (Prediction.view after_interleaved.2.1))
      with ({[ 1 := 100 ]} : gmap Z Z).
    change (PredictionView.option_b_points
              (Prediction.view after_interleaved.2.1))
      with ({[ 2 := 50 ]} : gmap Z Z).
    destruct (decide (u = 1)) as [-> | Hne].
    + right. reflexivity.
    + left. by apply lookup_singleton_ne.
  - exact Hsplit.
Defined.

(** X20. Clicks, submissions and locks in any order. Whatever the order
    in which the clicks on the two buttons, the submissions of the modals
    they opened (with ASCII texts) and the locks run, from a view with
    positive stakes and current odds and a database without a negative
    balance: while the balances and the pools together, times the number
    of handlers and one, are below [2 ^ 480], every handler returns;
    afterwards the points of all users and pools together are as many as
    before, all stakes are positive, the odds stored in the view are those
    of its pools, and no balance is above what it was. *)
Theorem interleaved_wagers_conserve
    (steps : list step) (p : Prediction.t) (d : Db.t) :
  let v := Prediction.view p in
  positive_stakes (PredictionView.option_a_points v) ->
  positive_stakes (PredictionView.option_b_points v) ->
  odds_current v ->
  solvent d ->
  total_points v d * (1 + Z.of_nat (length steps)) < 2 ^ 480 ->
  Forall (allowed (PredictionView.option_a v) (PredictionView.option_b v))
    steps ->
  exists open' p' d',
    for_each steps run_step ([], (p, d)) = (Ok tt, (open', (p', d')))
    /\ total_points (Prediction.view p') d' = total_points v d
    /\ positive_stakes (PredictionView.option_a_points (Prediction.view p'))
    /\ positive_stakes (PredictionView.option_b_points (Prediction.view p'))
    /\ odds_current (Prediction.view p')
    /\ forall u, Db.select_points d' u <= Db.select_points d u.
Proof.
  intros v Ha Hb Hcur Hsolv Htot Hall.
  destruct (sum_values_balances (Db.users d) Hsolv) as [HB Hbal].
  set (B := sum_values (Db.users d)) in *.
  pose proof (sum_values_nonneg _ Ha) as Hna.
  pose proof (sum_values_nonneg _ Hb) as Hnb.
  assert (Hsound : sound_table B ([], (p, d))).
  { split; [done |]. split; [done |]. split; [done |]. split.
    - intros u bal Hu. specialize (Hbal u). cbn [fst snd] in Hu.
      rewrite Hu in Hbal. exact Hbal.
    - intros uid m Hin. by apply elem_of_nil in Hin. }
  assert (Hbound : pools v + B * Z.of_nat (length steps) < 2 ^ 480).
  { unfold total_points in Htot. fold B in Htot. unfold pools.
    pose proof (Nat2Z.is_nonneg (length steps)). nia. }
  destruct (steps_return B steps _ HB Hsound Hbound Hall)
    as ([open' [p' d']] & Hrun).
  destruct (steps_keep B steps _ _ HB Hsound Hall Hrun)
    as ((Ha' & Hb' & Hcur' & _) & _ & _ & _ & _ & Et & _ & Hdown & _).
  exists open', p', d'. cbn [fst snd] in *. done.
Qed.

Lemma interleaved_wagers_conserve_witness :
  exists open' p' d',
    for_each steps_both_sides run_step ([], (fresh_prediction, db_rich_u1))
    = (Ok tt, (open', (p', d')))
    /\ total_points (Prediction.view p') d' = 1000.
Proof.
  destruct (interleaved_wagers_conserve steps_both_sides fresh_prediction
              db_rich_u1) as (open' & p' & d' & Hrun & Ht & _).
  - apply positive_stakes_empty.
  - apply positive_stakes_empty.
  - vm_compute. reflexivity.
  - intros u bal Hu. unfold db_rich_u1 in Hu. cbn [Db.users] in Hu.
    apply lookup_singleton_Some in Hu as [_ <-]. lia.
  - vm_compute. reflexivity.
  - repeat constructor; (by left) || (by right).
  - exists open', p', d'. split; [exact Hrun |]. rewrite Ht.
    vm_compute. reflexivity.
Defined.
